(** * mytar: a length-prefixed archive codec

    Shallow embedding of [mytar.py] (the encoder [create_archive], the
    decoder [extract_archive], the helpers [read_exact] and [die], and
    [main]) over an explicit model of the POSIX calls the program uses, and
    the proofs of the properties the specification states about them.

    Layout: byte strings and Python's integer/UTF-8 conversions; the process
    state and the [os] calls; the functions of the program; lemmas about
    the conversions, the calls and the loops; the theorems of the
    specification; further properties of the decoder, of the encoder and of
    the command line, each read off the code. *)

From Stdlib Require Import ZArith List Lia String Ascii.
From Stdlib.Strings Require Import Byte.
From stdpp Require Import gmap list.

Local Open Scope Z_scope.

(** ** Byte strings and Python integers *)

(** A Python [bytes] value. *)
Abbreviation bytes := (list byte).

(** A Python [str]: a sequence of code points.  Python strings may hold lone
    surrogates (U+D800..U+DFFF); those have no UTF-8 encoding. *)
Abbreviation str := (list Z).

(** [len(b)] as a Python integer. *)
Definition len {A : Type} (l : list A) : Z := Z.of_nat (length l).

Definition byte_val (b : byte) : Z := Z.of_N (Byte.to_N b).

Definition byte_of (z : Z) : byte :=
  match Byte.of_N (Z.to_N z) with
  | Some b => b
  | None => x00
  end.

(** The [k] base-256 digits of [n], most significant first. *)
Fixpoint be_digits (k : nat) (n : Z) : bytes :=
  match k with
  | O => []
  | S k' => be_digits k' (n / 256) ++ [byte_of (n mod 256)]
  end.

(** [n.to_bytes(k, 'big')]: [None] stands for Python's [OverflowError],
    raised for a negative [n] and for an [n] that does not fit in [k] bytes. *)
Definition int_to_bytes (n : Z) (k : nat) : option bytes :=
  if (0 <=? n) && (n <? 256 ^ Z.of_nat k) then Some (be_digits k n) else None.

(** [int.from_bytes(bs, 'big')], unsigned. *)
Definition int_from_bytes (bs : bytes) : Z :=
  fold_left (fun acc b => acc * 256 + byte_val b) bs 0.

(** ** UTF-8 *)

(** The UTF-8 encoding of one code point; [None] for a surrogate and for a
    value outside the code space (Python's [UnicodeEncodeError]). *)
Definition utf8_encode_cp (c : Z) : option bytes :=
  if c <? 0 then None
  else if c <? 0x80 then Some [byte_of c]
  else if c <? 0x800 then
    Some [byte_of (0xC0 + c / 64); byte_of (0x80 + c mod 64)]
  else if c <? 0x10000 then
    if (0xD800 <=? c) && (c <=? 0xDFFF) then None
    else Some [byte_of (0xE0 + c / 4096); byte_of (0x80 + (c / 64) mod 64);
               byte_of (0x80 + c mod 64)]
  else if c <? 0x110000 then
    Some [byte_of (0xF0 + c / 262144); byte_of (0x80 + (c / 4096) mod 64);
          byte_of (0x80 + (c / 64) mod 64); byte_of (0x80 + c mod 64)]
  else None.

(** [s.encode('utf-8')]. *)
Fixpoint utf8_encode (s : str) : option bytes :=
  match s with
  | [] => Some []
  | c :: s' =>
      match utf8_encode_cp c, utf8_encode s' with
      | Some b, Some bs => Some (b ++ bs)
      | _, _ => None
      end
  end.

(** A continuation byte, 10xxxxxx. *)
Definition is_cont (b : byte) : bool :=
  (0x80 <=? byte_val b) && (byte_val b <? 0xC0).

Definition cont_bits (b : byte) : Z := byte_val b - 0x80.

(** [bs.decode('utf-8')], strict: overlong forms, surrogates, values above
    U+10FFFF, stray continuation bytes and truncated sequences are errors
    ([None] stands for [UnicodeDecodeError]). *)
Fixpoint utf8_decode (bs : bytes) : option str :=
  match bs with
  | [] => Some []
  | b0 :: r0 =>
      let v0 := byte_val b0 in
      if v0 <? 0x80 then
        match utf8_decode r0 with Some s => Some (v0 :: s) | None => None end
      else if v0 <? 0xC2 then None
      else if v0 <? 0xE0 then
        match r0 with
        | b1 :: r1 =>
            if is_cont b1 then
              match utf8_decode r1 with
              | Some s => Some ((v0 - 0xC0) * 64 + cont_bits b1 :: s)
              | None => None
              end
            else None
        | _ => None
        end
      else if v0 <? 0xF0 then
        match r0 with
        | b1 :: b2 :: r2 =>
            let c := (v0 - 0xE0) * 4096 + cont_bits b1 * 64 + cont_bits b2 in
            if is_cont b1 && is_cont b2 && (0x800 <=? c)
               && negb ((0xD800 <=? c) && (c <=? 0xDFFF)) then
              match utf8_decode r2 with
              | Some s => Some (c :: s)
              | None => None
              end
            else None
        | _ => None
        end
      else if v0 <? 0xF5 then
        match r0 with
        | b1 :: b2 :: b3 :: r3 =>
            let c := (v0 - 0xF0) * 262144 + cont_bits b1 * 4096
                     + cont_bits b2 * 64 + cont_bits b3 in
            if is_cont b1 && is_cont b2 && is_cont b3
               && (0x10000 <=? c) && (c <? 0x110000) then
              match utf8_decode r3 with
              | Some s => Some (c :: s)
              | None => None
              end
            else None
        | _ => None
        end
      else None
  end.

(** A string literal of the program, as a Python [str]. *)
Definition lit (s : string) : str :=
  map (fun a => Z.of_N (N_of_ascii a)) (list_ascii_of_string s).

(** ** The process and its environment *)

(** The environment is what the calls of the [os] module meet: the files
    that can be opened for reading, the paths that can be created, the bytes
    on the standard input, and how many bytes each read delivers.  It covers
    the runs in which a call on an open descriptor does what it is asked: a
    read delivers bytes or the end of the file, a write takes every byte.
    When such a call fails ([EPIPE] or [ENOSPC] on a write, a read on a
    directory that [os.open] accepted), Python raises an [OSError] that no
    statement of the program catches, and the run, which ends in that
    exception, is none of the runs described here.  Paths are keys: two
    paths that differ are two files, and no path is a standard stream; the
    statements that depend on it say so ([plain_name]). *)

(** A file that can be opened for reading: what [fstat] reports for it
    ([None]: the call fails) and the bytes successive reads deliver.  The two
    are independent, so that a file that shrinks or grows between the
    [fstat] and the reads is a value of this type. *)
Record rfile := RFile { st_size : option Z; content : bytes }.

(** An entry of the descriptor table. *)
Inductive handle :=
| RdH (pending : bytes) (st : option Z)
| WrH (path : str).

(** The system calls made, in order. *)
Inductive event :=
| EvOpen (path : str) (fd : nat)
| EvCreate (path : str) (fd : nat)
| EvRead (fd : nat) (n : Z) (got : bytes)
| EvWrite (fd : nat) (data : bytes)
| EvClose (fd : nat).

(** Python exceptions the program can meet. *)
Inductive exn := OSError | OverflowError | UnicodeEncodeError | ValueError.

Record world := World {
  readable : gmap str rfile;   (* files [os.open(_, O_RDONLY)] succeeds on *)
  creatable : str -> bool;     (* paths [os.open(_, O_WRONLY|O_CREAT|O_TRUNC)] succeeds on *)
  disk : gmap str bytes;       (* files written so far *)
  stdin : bytes;               (* bytes still to come on descriptor 0 *)
  stdout : bytes;              (* bytes written to descriptor 1 *)
  stderr : bytes;              (* bytes written to descriptor 2 *)
  fds : gmap nat handle;       (* descriptors opened by the program *)
  next_fd : nat;               (* the descriptor the next open returns *)
  sched : list nat;            (* short reads: read [i] delivers at most [S (sched !! i)] bytes *)
  trace : list event
}.

Definition set_disk (d : gmap str bytes) (w : world) : world :=
  World (readable w) (creatable w) d (stdin w) (stdout w) (stderr w)
        (fds w) (next_fd w) (sched w) (trace w).
Definition set_stdin (b : bytes) (w : world) : world :=
  World (readable w) (creatable w) (disk w) b (stdout w) (stderr w)
        (fds w) (next_fd w) (sched w) (trace w).
Definition set_stdout (b : bytes) (w : world) : world :=
  World (readable w) (creatable w) (disk w) (stdin w) b (stderr w)
        (fds w) (next_fd w) (sched w) (trace w).
Definition set_stderr (b : bytes) (w : world) : world :=
  World (readable w) (creatable w) (disk w) (stdin w) (stdout w) b
        (fds w) (next_fd w) (sched w) (trace w).
Definition set_fds (t : gmap nat handle) (w : world) : world :=
  World (readable w) (creatable w) (disk w) (stdin w) (stdout w) (stderr w)
        t (next_fd w) (sched w) (trace w).
Definition set_next_fd (n : nat) (w : world) : world :=
  World (readable w) (creatable w) (disk w) (stdin w) (stdout w) (stderr w)
        (fds w) n (sched w) (trace w).
Definition set_sched (s : list nat) (w : world) : world :=
  World (readable w) (creatable w) (disk w) (stdin w) (stdout w) (stderr w)
        (fds w) (next_fd w) s (trace w).
Definition log (e : event) (w : world) : world :=
  World (readable w) (creatable w) (disk w) (stdin w) (stdout w) (stderr w)
        (fds w) (next_fd w) (sched w) (trace w ++ [e]).

(** How a computation ends: with a value, by [sys.exit(code)], by an
    exception, or without an answer because a loop ran out of the steps
    allotted to it (which [create_archive_total], [extract_archive_total]
    and [read_exact_total] show not to happen from a well-formed state). *)
Inductive outcome (A : Type) :=
| Ret (a : A)
| SysExit (code : Z)
| Raised (e : exn)
| OutOfFuel.
Arguments Ret {A} a.
Arguments SysExit {A} code.
Arguments Raised {A} e.
Arguments OutOfFuel {A}.

Definition M (A : Type) : Type := world -> outcome A * world.

Definition ret {A} (a : A) : M A := fun w => (Ret a, w).

Definition bind {A B} (m : M A) (k : A -> M B) : M B := fun w =>
  match m w with
  | (Ret a, w') => k a w'
  | (SysExit c, w') => (SysExit c, w')
  | (Raised e, w') => (Raised e, w')
  | (OutOfFuel, w') => (OutOfFuel, w')
  end.

Definition raise {A} (e : exn) : M A := fun w => (Raised e, w).
Definition out_of_fuel {A} : M A := fun w => (OutOfFuel, w).

(** [try: m  except OSError: h]. *)
Definition except_OSError {A} (m : M A) (h : M A) : M A := fun w =>
  match m w with
  | (Raised OSError, w') => h w'
  | r => r
  end.

(** A conversion that raises [e] where the model returns [None]. *)
Definition or_raise {A} (e : exn) (o : option A) : M A :=
  match o with Some a => ret a | None => raise e end.

Declare Scope prog_scope.
Delimit Scope prog_scope with prog.
Notation "x <- m ;; k" := (bind m (fun x => k))
  (at level 100, m at next level, right associativity) : prog_scope.
Notation "m ;; k" := (bind m (fun _ => k))
  (at level 100, right associativity) : prog_scope.
Local Open Scope prog_scope.

(** *** The [os] calls *)

(** The bytes a read on [fd] can still deliver; [None] for a descriptor
    that is not open for reading. *)
Definition pending_of (fd : nat) (w : world) : option bytes :=
  if decide (fd = 0%nat) then Some (stdin w)
  else match fds w !! fd with
       | Some (RdH p _) => Some p
       | _ => None
       end.

Definition set_pending (fd : nat) (p : bytes) (w : world) : world :=
  if decide (fd = 0%nat) then set_stdin p w
  else match fds w !! fd with
       | Some (RdH _ st) => set_fds (<[fd := RdH p st]> (fds w)) w
       | _ => w
       end.

(** The number of bytes one read of at most [n] bytes delivers when
    [avail] are left: all of them up to [n], or fewer when the schedule says
    so, but at least one unless [n <= 0] or the stream is at its end. *)
Definition read_count (n : Z) (s : list nat) (avail : nat) : nat :=
  let want := Z.to_nat n in
  let cap := match s with [] => want | c :: _ => Nat.min want (S c) end in
  Nat.min cap avail.

(** [os.read(fd, n)]. *)
Definition os_read (fd : nat) (n : Z) : M bytes := fun w =>
  match pending_of fd w with
  | None => (Raised OSError, w)
  | Some p =>
      let k := read_count n (sched w) (length p) in
      let data := take k p in
      (Ret data,
       log (EvRead fd n data) (set_sched (tail (sched w)) (set_pending fd (drop k p) w)))
  end.

(** [os.write(fd, data)]; the program never looks at the count it returns,
    and the model writes all of [data]. *)
Definition os_write (fd : nat) (data : bytes) : M unit := fun w =>
  if decide (fd = 1%nat) then
    (Ret tt, log (EvWrite fd data) (set_stdout (stdout w ++ data) w))
  else if decide (fd = 2%nat) then
    (Ret tt, log (EvWrite fd data) (set_stderr (stderr w ++ data) w))
  else match fds w !! fd with
       | Some (WrH path) =>
           (Ret tt, log (EvWrite fd data)
                      (set_disk (<[path := default [] (disk w !! path) ++ data]> (disk w)) w))
       | _ => (Raised OSError, w)
       end.

(** [os.open(name, os.O_RDONLY)]. *)
Definition os_open_rdonly (name : str) : M nat := fun w =>
  match readable w !! name with
  | None => (Raised OSError, w)
  | Some f =>
      let fd := next_fd w in
      (Ret fd, log (EvOpen name fd)
                 (set_next_fd (S fd) (set_fds (<[fd := RdH (content f) (st_size f)]> (fds w)) w)))
  end.

(** A name with a NUL character in it. *)
Definition has_nul (name : str) : bool := existsb (Z.eqb 0) name.

(** [os.open(name, os.O_WRONLY | os.O_CREAT | os.O_TRUNC, 0o644)].  A call
    that fails raises [OSError], but for a name with a NUL character in it:
    Python refuses it with [ValueError] before any system call is made (and
    [creatable] holds of no such name in an actual file system). *)
Definition os_open_create (name : str) : M nat := fun w =>
  if creatable w name then
    let fd := next_fd w in
    (Ret fd, log (EvCreate name fd)
               (set_next_fd (S fd) (set_fds (<[fd := WrH name]> (fds w))
                  (set_disk (<[name := []]> (disk w)) w))))
  else if has_nul name then (Raised ValueError, w)
  else (Raised OSError, w).

(** [os.fstat(fd).st_size]. *)
Definition os_fstat_size (fd : nat) : M Z := fun w =>
  match fds w !! fd with
  | Some (RdH _ (Some sz)) => (Ret sz, w)
  | _ => (Raised OSError, w)
  end.

(** [os.close(fd)]. *)
Definition os_close (fd : nat) : M unit := fun w =>
  match fds w !! fd with
  | Some _ => (Ret tt, log (EvClose fd) (set_fds (delete fd (fds w)) w))
  | None => (Raised OSError, w)
  end.

(** ** The program *)

Definition BUF_SIZE : Z := 4096.

(** The line [die(msg)] writes: [("mytar: " + msg + "\n").encode()]. *)
Definition diagnostic (msg : str) : option bytes :=
  utf8_encode (lit "mytar: " ++ msg ++ lit (String "010" EmptyString)).

(** [die(msg)] with the default [code = 1]. *)
Definition die {A} (msg : str) : M A :=
  b <- or_raise UnicodeEncodeError (diagnostic msg) ;;
  os_write 2 b ;;
  fun w => (SysExit 1, w).

(** The [while remaining > 0] loop of [read_exact]; [fuel] bounds the
    number of iterations. *)
Fixpoint read_exact_loop (fuel : nat) (fd : nat) (chunks : list bytes)
    (remaining : Z) : M bytes :=
  if remaining >? 0 then
    match fuel with
    | O => out_of_fuel
    | S fuel' =>
        data <- os_read fd remaining ;;
        match data with
        | [] => ret (concat chunks)
        | _ => read_exact_loop fuel' fd (chunks ++ [data]) (remaining - len data)
        end
    end
  else ret (concat chunks).

(** The bytes still to come on [fd], as a number of loop iterations: every
    iteration that does not leave a read loop consumes at least one. *)
Definition avail (fd : nat) (w : world) : nat :=
  match pending_of fd w with Some p => length p | None => O end.

Definition read_exact (fd : nat) (n : Z) : M bytes := fun w =>
  read_exact_loop (S (avail fd w)) fd [] n w.

(** The content loop of [create_archive] (lines 64-71). *)
Fixpoint create_copy_loop (fuel : nat) (name : str) (fd : nat) (remaining : Z)
    : M unit :=
  if remaining >? 0 then
    match fuel with
    | O => out_of_fuel
    | S fuel' =>
        chunk <- os_read fd (Z.min BUF_SIZE remaining) ;;
        match chunk with
        | [] =>
            os_close fd ;;
            die (lit "unexpected EOF reading '" ++ name ++ lit "'")
        | _ =>
            os_write 1 chunk ;;
            create_copy_loop fuel' name fd (remaining - len chunk)
        end
    end
  else ret tt.

(** The body of the [for name in filenames] loop of [create_archive]. *)
Definition create_archive_body (name : str) : M unit :=
  fd <- except_OSError (os_open_rdonly name)
          (die (lit "cannot open file '" ++ name ++ lit "'")) ;;
  size <- except_OSError (os_fstat_size fd)
            (os_close fd ;; die (lit "cannot stat file '" ++ name ++ lit "'")) ;;
  name_bytes <- or_raise UnicodeEncodeError (utf8_encode name) ;;
  raw_len <- or_raise OverflowError (int_to_bytes (len name_bytes) 4) ;;
  os_write 1 raw_len ;;
  os_write 1 name_bytes ;;
  raw_size <- or_raise OverflowError (int_to_bytes size 8) ;;
  os_write 1 raw_size ;;
  (fun w => create_copy_loop (S (avail fd w)) name fd size w) ;;
  os_close fd.

Fixpoint create_archive (filenames : list str) : M unit :=
  match filenames with
  | [] => ret tt
  | name :: rest => create_archive_body name ;; create_archive rest
  end.

(** The content loop of [extract_archive] (lines 117-124). *)
Fixpoint extract_copy_loop (fuel : nat) (in_fd out_fd : nat) (remaining : Z)
    : M unit :=
  if remaining >? 0 then
    match fuel with
    | O => out_of_fuel
    | S fuel' =>
        chunk <- os_read in_fd (Z.min BUF_SIZE remaining) ;;
        match chunk with
        | [] =>
            os_close out_fd ;;
            die (lit "corrupted archive (unexpected EOF in file data)")
        | _ =>
            os_write out_fd chunk ;;
            extract_copy_loop fuel' in_fd out_fd (remaining - len chunk)
        end
    end
  else ret tt.

(** The [while True] loop of [extract_archive]; an iteration that does not
    leave the loop has read at least the four bytes of a name length. *)
Fixpoint extract_loop (fuel : nat) (in_fd : nat) : M unit :=
  match fuel with
  | O => out_of_fuel
  | S fuel' =>
      raw_len <- read_exact in_fd 4 ;;
      if len raw_len =? 0 then ret tt
      else if len raw_len <? 4 then
        die (lit "corrupted archive (incomplete filename length)")
      else
        let name_len := int_from_bytes raw_len in
        if name_len <=? 0 then
          die (lit "corrupted archive (invalid filename length)")
        else
          name_bytes <- read_exact in_fd name_len ;;
          if len name_bytes <? name_len then
            die (lit "corrupted archive (incomplete filename)")
          else
            match utf8_decode name_bytes with
            | None => die (lit "corrupted archive (filename encoding)")
            | Some name =>
                raw_size <- read_exact in_fd 8 ;;
                if len raw_size <? 8 then
                  die (lit "corrupted archive (incomplete file size)")
                else
                  let size := int_from_bytes raw_size in
                  if size <? 0 then
                    die (lit "corrupted archive (invalid file size)")
                  else
                    out_fd <- except_OSError (os_open_create name)
                                (die (lit "cannot create output file '" ++ name ++ lit "'")) ;;
                    (fun w => extract_copy_loop (S (avail in_fd w)) in_fd out_fd size w) ;;
                    os_close out_fd ;;
                    extract_loop fuel' in_fd
            end
  end.

Definition extract_archive : M unit := fun w =>
  extract_loop (S (length (stdin w))) 0 w.

(** ** The command line *)

(** [main()], with [argv] for [sys.argv].  [die] does not return, so the
    statements after a call to it run only when the test before it fails;
    [argv !! 1] is read only after the test on the length. *)
Definition main (argv : list str) : M unit :=
  (if len argv <? 2 then die (lit "usage: mytar.py c file... | mytar.py x") else ret tt) ;;
  let mode := default [] (argv !! 1%nat) in
  if decide (mode = lit "c") then
    (if len argv <? 3 then die (lit "create mode requires at least one file") else ret tt) ;;
    create_archive (drop 2 argv)
  else if decide (mode = lit "x") then extract_archive
  else die (lit "unknown mode (use 'c' or 'x')").

(** ** Vocabulary of the statements *)

(** The state without its bookkeeping: the read schedule and the trace do
    not belong to what a run leaves behind. *)
Definition erase (w : world) : world :=
  World (readable w) (creatable w) (disk w) (stdin w) (stdout w) (stderr w)
        (fds w) (next_fd w) [] [].

(** The archive record of the wire format, for a name already encoded. *)
Definition record_bytes (name_bytes : bytes) (size : Z) (data : bytes) : bytes :=
  be_digits 4 (len name_bytes) ++ name_bytes ++ be_digits 8 size ++ data.

(** The encoder's state when it enters the content loop for the file
    [name]: the file is open on the next free descriptor and the header of
    its record is written. *)
Definition after_header (name : str) (nb : bytes) (size : Z) (data : bytes)
    (w : world) : world :=
  let fd := next_fd w in
  let w1 := log (EvOpen name fd)
              (set_next_fd (S fd) (set_fds (<[fd := RdH data (Some size)]> (fds w)) w)) in
  let w2 := log (EvWrite 1 (be_digits 4 (len nb)))
              (set_stdout (stdout w1 ++ be_digits 4 (len nb)) w1) in
  let w3 := log (EvWrite 1 nb) (set_stdout (stdout w2 ++ nb) w2) in
  log (EvWrite 1 (be_digits 8 size)) (set_stdout (stdout w3 ++ be_digits 8 size) w3).

(** The stream that archives [files], each a name and a content. *)
Fixpoint archive_of (files : list (str * bytes)) : bytes :=
  match files with
  | [] => []
  | (name, data) :: rest =>
      record_bytes (default [] (utf8_encode name)) (len data) data ++ archive_of rest
  end.

(** A file the format can carry: a name that is not empty and encodes into
    fewer than 2^32 bytes, and fewer than 2^64 bytes of content. *)
Definition archivable (f : str * bytes) : Prop :=
  f.1 <> [] /\ (exists nb, utf8_encode f.1 = Some nb /\ len nb < 2 ^ 32) /\
  len f.2 < 2 ^ 64.

(** Descriptors 0, 1 and 2 are taken, and none at or above [next_fd] is. *)
Definition fd_wf (w : world) : Prop :=
  (3 <= next_fd w)%nat /\ forall k, (next_fd w <= k)%nat -> fds w !! k = None.

(** The paths created, in the order of their creation. *)
Definition created (t : list event) : list str :=
  flat_map (fun e => match e with EvCreate path _ => [path] | _ => [] end) t.

(** [m] only appends events to the trace, and all of them satisfy [ok]. *)
Definition emits {A} (ok : event -> Prop) (m : M A) : Prop :=
  forall w, exists evs, trace (snd (m w)) = trace w ++ evs /\ Forall ok evs.

Definition not_create (e : event) : Prop :=
  match e with EvCreate _ _ => False | _ => True end.

(** What a content loop started with [remaining] bytes to go may do: read,
    asking for no more than [min(BUF_SIZE, remaining)] bytes and holding no
    more than it asked for, write, and close. *)
Definition copy_event (remaining : Z) (e : event) : Prop :=
  match e with
  | EvRead _ n got => n <= Z.min BUF_SIZE remaining /\ len got <= n
  | EvWrite _ _ | EvClose _ => True
  | EvOpen _ _ | EvCreate _ _ => False
  end.

(** What can follow the empty chunk that ends a content loop early: the
    close of a descriptor and the line [die] writes. *)
Definition after_eof (e : event) : Prop :=
  match e with
  | EvClose _ => True
  | EvWrite fd _ => fd = 2%nat
  | _ => False
  end.

(** The calls of a content loop from [src] to [dst] that has [remaining]
    bytes to go, as lines 64-71 and 117-124 make them.  Each read is on
    [src] and asks for [min(BUF_SIZE, remaining)] bytes, with the
    [remaining] of its own iteration.  A chunk that is not empty is no
    longer than what was asked for and is written to [dst] as it was read,
    before the next read, which is for the [remaining - len chunk] bytes
    then left.  After an empty chunk come only a close and the line of
    [die].  The calls stop where the loop ends or a call raises. *)
Fixpoint chunked (src dst : nat) (remaining : Z) (evs : list event) : Prop :=
  match evs with
  | [] => True
  | EvRead fd n chunk :: rest =>
      fd = src /\ 0 < remaining /\ n = Z.min BUF_SIZE remaining /\ len chunk <= n /\
      match chunk with
      | [] => Forall after_eof rest
      | _ =>
          match rest with
          | [] => True
          | EvWrite fd' data :: rest' =>
              fd' = dst /\ data = chunk /\ chunked src dst (remaining - len chunk) rest'
          | _ => False
          end
      end
  | _ => False
  end.

(** The bytes written to [dst], in order. *)
Definition copied (dst : nat) (evs : list event) : bytes :=
  flat_map (fun e => match e with
                     | EvWrite fd data => if decide (fd = dst) then data else []
                     | _ => []
                     end) evs.

(** No read asks for or delivers more than the buffer holds, and no write
    but that of a diagnostic line carries more. *)
Definition within_buffer (e : event) : Prop :=
  match e with
  | EvRead _ n got => n <= BUF_SIZE /\ len got <= BUF_SIZE
  | EvWrite fd data => fd <> 2%nat -> len data <= BUF_SIZE
  | _ => True
  end.

(** A stream made of complete records and nothing else: for each record a
    4-byte length that is not 0, a name of that length that decodes, an
    8-byte length and a content of that length. *)
Inductive complete_records : bytes -> Prop :=
| records_nil : complete_records []
| records_cons (raw_len name_bytes raw_size data rest : bytes) :
    length raw_len = 4%nat -> int_from_bytes raw_len = len name_bytes ->
    0 < len name_bytes -> is_Some (utf8_decode name_bytes) ->
    length raw_size = 8%nat -> int_from_bytes raw_size = len data ->
    complete_records rest ->
    complete_records (raw_len ++ name_bytes ++ raw_size ++ data ++ rest).

(** A name that is a single component of a path: without [/] and without
    NUL, and neither empty nor [.] nor [..].  Two such names that differ
    are two entries of the working directory, and none of them is a path to
    a standard stream. *)
Definition plain_name (name : str) : bool :=
  negb (existsb (fun c => (c =? 0) || (c =? 47)) name) &&
  negb (bool_decide (name = []) || bool_decide (name = lit ".")
        || bool_decide (name = lit "..")).

(** ** A one-pass reading of the decoder *)

(** What one iteration of the loop of [extract_archive] makes of the
    stream [s], read off lines 81-126 with [can_create] standing for the
    success of the [os.open] of line 112: the end of the loop, a fatal error
    before a file is created (with what is left unread), the exception that
    line 112 raises and line 113 does not catch, a fatal error after a file
    was created and filled with [data], or a whole record. *)
Inductive verdict :=
| VEnd
| VFail (msg : str) (rest : bytes)
| VRaise (e : exn) (rest : bytes)
| VCut (name : str) (data : bytes) (msg : str)
| VFile (name : str) (data rest : bytes).

Definition scan_record (can_create : str -> bool) (s : bytes) : verdict :=
  let raw_len := take 4 s in
  if len raw_len =? 0 then VEnd
  else if len raw_len <? 4 then
    VFail (lit "corrupted archive (incomplete filename length)") []
  else
    let name_len := int_from_bytes raw_len in
    if name_len <=? 0 then
      VFail (lit "corrupted archive (invalid filename length)") (drop 4 s)
    else
      let name_bytes := take (Z.to_nat name_len) (drop 4 s) in
      let s2 := drop (Z.to_nat name_len) (drop 4 s) in
      if len name_bytes <? name_len then
        VFail (lit "corrupted archive (incomplete filename)") s2
      else
        match utf8_decode name_bytes with
        | None => VFail (lit "corrupted archive (filename encoding)") s2
        | Some name =>
            let raw_size := take 8 s2 in
            let s3 := drop 8 s2 in
            if len raw_size <? 8 then
              VFail (lit "corrupted archive (incomplete file size)") s3
            else
              let size := int_from_bytes raw_size in
              if size <? 0 then
                VFail (lit "corrupted archive (invalid file size)") s3
              else if can_create name then
                if len s3 <? size then
                  VCut name s3 (lit "corrupted archive (unexpected EOF in file data)")
                else VFile name (take (Z.to_nat size) s3) (drop (Z.to_nat size) s3)
              else if has_nul name then VRaise ValueError s3
              else VFail (lit "cannot create output file '" ++ name ++ lit "'") s3
        end.

(** How a loop that does not return ends: by [die(msg)], or by an
    exception. *)
Inductive stop :=
| Said (msg : str)
| Threw (e : exn).

(** The whole loop: the files created, in order and with what was written
    to each, how the loop ends if it does not return, and the bytes left
    unread. *)
Record scan := Scan {
  scanned : list (str * bytes);
  failure : option stop;
  unread : bytes
}.

Fixpoint scan_stream (fuel : nat) (can_create : str -> bool) (s : bytes) : scan :=
  match fuel with
  | O => Scan [] None s
  | S fuel' =>
      match scan_record can_create s with
      | VEnd => Scan [] None []
      | VFail msg rest => Scan [] (Some (Said msg)) rest
      | VRaise e rest => Scan [] (Some (Threw e)) rest
      | VCut name data msg => Scan [(name, data)] (Some (Said msg)) []
      | VFile name data rest =>
          let r := scan_stream fuel' can_create rest in
          Scan ((name, data) :: scanned r) (failure r) (unread r)
      end
  end.

Definition scan_archive (can_create : str -> bool) (s : bytes) : scan :=
  scan_stream (S (length s)) can_create s.

(** The state the decoder leaves, up to bookkeeping, when its run is the
    scan [r]: a descriptor used per file, the files on disk, the line on the
    diagnostic stream. *)
Definition after_scan (r : scan) (w : world) : world :=
  set_next_fd (next_fd w + length (scanned r))
    (set_stderr (stderr w ++ match failure r with
                             | Some (Said msg) => default [] (diagnostic msg)
                             | _ => []
                             end)
       (set_stdin (unread r)
          (set_disk (foldl (fun d f => <[f.1 := f.2]> d) (disk w) (scanned r)) w))).

Definition scan_outcome (r : scan) : outcome unit :=
  match failure r with
  | Some (Said _) => SysExit 1
  | Some (Threw e) => Raised e
  | None => Ret tt
  end.

(** What an iteration that stops with a message leaves. *)
Definition fails_with (msg : str) (rest : bytes) (w : world) (r : outcome unit * world) : Prop :=
  exists b,
    diagnostic msg = Some b /\ fst r = SysExit 1 /\
    erase (snd r) = erase (set_stderr (stderr w ++ b) (set_stdin rest w)) /\
    created (trace (snd r)) = created (trace w).

(** The run [r] of an iteration of the loop, from [w] and with [fuel]
    iterations to follow, is the one [v] describes. *)
Definition step_agrees (fuel : nat) (w : world) (v : verdict)
    (r : outcome unit * world) : Prop :=
  match v with
  | VEnd =>
      fst r = Ret tt /\ erase (snd r) = erase w /\
      created (trace (snd r)) = created (trace w)
  | VFail msg rest => fails_with msg rest w r
  | VRaise e rest =>
      fst r = Raised e /\ erase (snd r) = erase (set_stdin rest w) /\
      created (trace (snd r)) = created (trace w)
  | VCut name data msg =>
      exists b,
        diagnostic msg = Some b /\ fst r = SysExit 1 /\
        erase (snd r) = erase (set_next_fd (S (next_fd w))
                                 (set_stderr (stderr w ++ b)
                                    (set_stdin [] (set_disk (<[name := data]> (disk w)) w)))) /\
        created (trace (snd r)) = created (trace w) ++ [name]
  | VFile name data rest =>
      exists w',
        r = extract_loop fuel 0 w' /\
        erase w' = erase (set_next_fd (S (next_fd w))
                            (set_stdin rest (set_disk (<[name := data]> (disk w)) w))) /\
        created (trace w') = created (trace w) ++ [name] /\
        (length rest < length (stdin w))%nat
  end.

(** ** A one-pass reading of the encoder *)

(** How [die(msg)] ends and what it writes: the exit with the encoded line,
    or the exception of the [.encode()] with nothing written. *)
Definition die_run (msg : str) : outcome unit * bytes :=
  match diagnostic msg with
  | Some b => (SysExit 1, b)
  | None => (Raised UnicodeEncodeError, [])
  end.

(** One iteration of the loop of [create_archive]: how it ends, what it
    appends to the standard output and to the diagnostic stream, whether
    the [os.open] succeeded, and the handle it leaves in the descriptor
    table when it ends without closing it. *)
Record file_run := FileRun {
  ends : outcome unit;
  written : bytes;
  said : bytes;
  opened : bool;
  left_open : option handle
}.

(** Lines 41-73 for the path [name], in an environment where [files] can be
    opened for reading. *)
Definition archive_file (files : gmap str rfile) (name : str) : file_run :=
  match files !! name with
  | None =>
      let d := die_run (lit "cannot open file '" ++ name ++ lit "'") in
      FileRun d.1 [] d.2 false None
  | Some f =>
      match st_size f with
      | None =>
          let d := die_run (lit "cannot stat file '" ++ name ++ lit "'") in
          FileRun d.1 [] d.2 true None
      | Some size =>
          let h := RdH (content f) (Some size) in
          match utf8_encode name with
          | None => FileRun (Raised UnicodeEncodeError) [] [] true (Some h)
          | Some nb =>
              match int_to_bytes (len nb) 4 with
              | None => FileRun (Raised OverflowError) [] [] true (Some h)
              | Some raw_len =>
                  match int_to_bytes size 8 with
                  | None => FileRun (Raised OverflowError) (raw_len ++ nb) [] true (Some h)
                  | Some raw_size =>
                      if size <=? len (content f) then
                        FileRun (Ret tt)
                          (raw_len ++ nb ++ raw_size ++ take (Z.to_nat size) (content f))
                          [] true None
                      else
                        let d := die_run (lit "unexpected EOF reading '" ++ name ++ lit "'") in
                        FileRun d.1 (raw_len ++ nb ++ raw_size ++ content f) d.2 true None
                  end
              end
          end
      end
  end.

(** The state an iteration that ran as [v] leaves, up to bookkeeping. *)
Definition after_file (v : file_run) (w : world) : world :=
  set_next_fd (if opened v then S (next_fd w) else next_fd w)
    (set_fds (match left_open v with
              | Some h => <[next_fd w := h]> (fds w)
              | None => fds w
              end)
       (set_stderr (stderr w ++ said v) (set_stdout (stdout w ++ written v) w))).

(** The iterations [create_archive] runs on [names]: it goes on to the next
    path only after an iteration that returned. *)
Fixpoint archive_runs (files : gmap str rfile) (names : list str) : list file_run :=
  match names with
  | [] => []
  | name :: rest =>
      let v := archive_file files name in
      v :: match ends v with
           | Ret _ => archive_runs files rest
           | _ => []
           end
  end.

Definition runs_outcome (vs : list file_run) : outcome unit :=
  match last vs with Some v => ends v | None => Ret tt end.

Definition after_runs (vs : list file_run) (w : world) : world :=
  foldl (fun w v => after_file v w) w vs.

(** ** Sample inputs *)

(** A process that has just started: nothing written, no descriptor of its
    own, and [s] as the schedule of short reads. *)
Definition fresh_world (files : gmap str rfile) (can_create : bool) (input : bytes)
    (s : list nat) : world :=
  World files (fun _ => can_create) ∅ input [] [] ∅ 3 s [].

(** Three files: a short one, an empty one whose name is not ASCII, and one
    longer than the buffer. *)
Definition sample_files : list (str * bytes) :=
  [ (lit "a.txt", [x68; x69; x0a]);
    ([233; 0x4e2d; 0x1F600], []);
    (lit "big", repeat x2a 4500) ].

Definition sample_src : world :=
  fresh_world (list_to_map (map (fun f => (f.1, RFile (Some (len f.2)) f.2)) sample_files))
    false [] [0; 6; 4095; 2]%nat.

Definition sample_dst : world := fresh_world ∅ true [] [1; 0; 2]%nat.

(** A file that announces 10 bytes and delivers 4. *)
Definition shrunk_src : world :=
  fresh_world {[ lit "log" := RFile (Some 10) [x01; x02; x03; x04] ]} false [] [1]%nat.

(** A file of size 0. *)
Definition empty_src : world :=
  fresh_world {[ lit "e" := RFile (Some 0) [] ]} false [] [].

(** ** More sample inputs *)

Definition one_file : list (str * bytes) := [(lit "a.txt", [x68; x69; x0a])].

(** A decoder about to read [input], one or two bytes at a time at first. *)
Definition reading (can_create : bool) (input : bytes) : world :=
  fresh_world ∅ can_create input [1; 0]%nat.

(** One record, then a name announced as 5 bytes of which 2 are there. *)
Definition cut_name_input : world :=
  reading true (archive_of one_file ++ be_digits 4 5 ++ [x61; x62]).

(** One record, then a name of 2 bytes that is not UTF-8, then a size. *)
Definition bad_name_input : world :=
  reading true (archive_of one_file ++ be_digits 4 2 ++ [xc3; x28] ++ be_digits 8 0).

(** One record, then a name and 3 bytes of a size. *)
Definition cut_size_input : world :=
  reading true (archive_of one_file ++ be_digits 4 1 ++ [x61] ++ [x00; x00; x00]).

(** A whole record, where nothing can be created. *)
Definition no_create_input : world :=
  reading false (be_digits 4 1 ++ [x61] ++ be_digits 8 2 ++ [x68; x69]).

(** One record, then a whole record whose name is [a], NUL, [b]. *)
Definition nul_name_input : world :=
  reading false (be_digits 4 3 ++ [x61; x00; x62] ++ be_digits 8 1 ++ [x68]).

(** Two records under distinct names, then garbage. *)
Definition two_then_garbage : world :=
  reading true (archive_of [(lit "a", [x01]); (lit "b", [x02; x03])] ++ [xff; xff; xff; xff; xff]).

(** The same stream, read all at once. *)
Definition two_then_garbage_at_once : world :=
  fresh_world ∅ true
    (archive_of [(lit "a", [x01]); (lit "b", [x02; x03])] ++ [xff; xff; xff; xff; xff]) [].

(** Two records under distinct names. *)
Definition two_records : world :=
  reading true (archive_of [(lit "a", [x01]); (lit "b", [x02; x03])]).

(** An encoder whose environment holds what [two_records] extracts. *)
Definition rearchive_src : world :=
  fresh_world ((fun c => RFile (Some (len c)) c) <$> disk (snd (extract_archive two_records)))
    false [] [0]%nat.

(** An environment with the files of [sample_files], a file on which
    [fstat] fails and a file whose name has a lone surrogate. *)
Definition odd_src (s : list nat) : world :=
  fresh_world (<[lit "nostat" := RFile None [x01]]>
                 (<[ [0xDCFF] := RFile (Some 1) [x01]]>
                    (list_to_map (map (fun f => (f.1, RFile (Some (len f.2)) f.2)) one_file))))
    false [] s.

(** * Properties *)

(** ** Integers and bytes *)

Lemma byte_val_range (b : byte) : 0 <= byte_val b < 256.
Proof.
  unfold byte_val. pose proof (Byte.to_N_bounded b). lia.
Qed.

Lemma byte_val_of (z : Z) : 0 <= z < 256 -> byte_val (byte_of z) = z.
Proof.
  intros Hz. unfold byte_val, byte_of.
  destruct (Byte.of_N (Z.to_N z)) as [b|] eqn:E.
  - apply Byte.to_of_N in E. rewrite E. lia.
  - apply Byte.of_N_None_iff in E. lia.
Qed.

Lemma byte_of_val (b : byte) : byte_of (byte_val b) = b.
Proof.
  unfold byte_of, byte_val. rewrite N2Z.id, Byte.of_to_N. reflexivity.
Qed.

Lemma len_app {A} (l1 l2 : list A) : len (l1 ++ l2) = len l1 + len l2.
Proof. unfold len. rewrite length_app. lia. Qed.

Lemma len_nonneg {A} (l : list A) : 0 <= len l.
Proof. unfold len. lia. Qed.

Lemma be_digits_length (k : nat) (n : Z) : length (be_digits k n) = k.
Proof.
  revert n. induction k as [|k IH]; intros n; simpl; [reflexivity|].
  rewrite length_app, IH. simpl. lia.
Qed.

Lemma int_from_bytes_snoc (bs : bytes) (b : byte) :
  int_from_bytes (bs ++ [b]) = int_from_bytes bs * 256 + byte_val b.
Proof. unfold int_from_bytes. rewrite fold_left_app. reflexivity. Qed.

Lemma int_from_bytes_range (bs : bytes) :
  0 <= int_from_bytes bs < 256 ^ len bs.
Proof.
  induction bs as [|b bs IH] using rev_ind.
  - unfold int_from_bytes, len. simpl. lia.
  - rewrite int_from_bytes_snoc, len_app.
    pose proof (byte_val_range b). pose proof (len_nonneg bs).
    change (len [b]) with 1. rewrite Z.pow_add_r by lia.
    change (256 ^ 1) with 256. nia.
Qed.

Lemma int_from_be_digits (k : nat) (n : Z) :
  0 <= n < 256 ^ Z.of_nat k -> int_from_bytes (be_digits k n) = n.
Proof.
  revert n. induction k as [|k IH]; intros n Hn.
  - change (256 ^ Z.of_nat 0) with 1 in Hn.
    unfold int_from_bytes. simpl. lia.
  - simpl be_digits. rewrite int_from_bytes_snoc.
    rewrite Nat2Z.inj_succ, Z.pow_succ_r in Hn by lia.
    rewrite IH, byte_val_of.
    + pose proof (Z.div_mod n 256). lia.
    + apply Z.mod_pos_bound. lia.
    + split; [apply Z.div_pos; lia|]. apply Z.div_lt_upper_bound; lia.
Qed.

Lemma int_to_bytes_Some (n : Z) (k : nat) :
  0 <= n < 256 ^ Z.of_nat k -> int_to_bytes n k = Some (be_digits k n).
Proof.
  intros [H1 H2]. unfold int_to_bytes.
  apply Z.leb_le in H1. apply Z.ltb_lt in H2. rewrite H1, H2. reflexivity.
Qed.

Lemma int_to_bytes_inv (n : Z) (k : nat) (bs : bytes) :
  int_to_bytes n k = Some bs ->
  length bs = k /\ int_from_bytes bs = n /\ 0 <= n < 256 ^ Z.of_nat k.
Proof.
  unfold int_to_bytes. intros H.
  destruct (0 <=? n) eqn:E1; [|discriminate].
  destruct (n <? 256 ^ Z.of_nat k) eqn:E2; [|discriminate].
  apply Z.leb_le in E1. apply Z.ltb_lt in E2.
  injection H as <-.
  split; [apply be_digits_length|].
  split; [apply int_from_be_digits|]; lia.
Qed.

(** ** UTF-8 *)

Ltac zcases :=
  repeat match goal with
  | |- context [?a <? ?b] => destruct (Z.ltb_spec a b); try lia
  | |- context [?a <=? ?b] => destruct (Z.leb_spec a b); try lia
  end.

Lemma utf8_decode_encode_cp (c : Z) (b r : bytes) :
  utf8_encode_cp c = Some b ->
  utf8_decode (b ++ r) =
  match utf8_decode r with Some s => Some (c :: s) | None => None end.
Proof.
  unfold utf8_encode_cp.
  destruct (Z.ltb_spec c 0); [discriminate|].
  destruct (Z.ltb_spec c 0x80).
  { intros [= <-]. cbn [app utf8_decode]. rewrite byte_val_of by lia.
    destruct (Z.ltb_spec c 0x80); [reflexivity|lia]. }
  destruct (Z.ltb_spec c 0x800).
  { intros [= <-]. cbn [app utf8_decode]. unfold is_cont, cont_bits.
    assert (0 <= c / 64 < 32) by (split; [apply Z.div_pos|apply Z.div_lt_upper_bound]; lia).
    pose proof (Z.mod_pos_bound c 64 ltac:(lia)).
    assert (2 <= c / 64) by (apply Z.div_le_lower_bound; lia).
    rewrite !byte_val_of by lia.
    zcases. cbn [andb].
    replace ((192 + c / 64 - 192) * 64 + (128 + c mod 64 - 128)) with c
      by (pose proof (Z.div_mod c 64); lia).
    reflexivity. }
  destruct (Z.ltb_spec c 0x10000).
  { destruct (Z.leb_spec 0xD800 c); destruct (Z.leb_spec c 0xDFFF);
      cbn [andb]; try discriminate.
    all: intros [= <-]; cbn [app utf8_decode]; unfold is_cont, cont_bits.
    all: assert (0 <= c / 4096 < 16) by (split; [apply Z.div_pos|apply Z.div_lt_upper_bound]; lia).
    all: pose proof (Z.mod_pos_bound c 64 ltac:(lia)).
    all: pose proof (Z.mod_pos_bound (c / 64) 64 ltac:(lia)).
    all: rewrite !byte_val_of by lia.
    all: replace ((224 + c / 4096 - 224) * 4096 + (128 + (c / 64) mod 64 - 128) * 64
               + (128 + c mod 64 - 128)) with c
        by (pose proof (Z.div_mod c 64 ltac:(lia)); pose proof (Z.div_mod (c / 64) 64 ltac:(lia));
            rewrite (Z.div_div c 64 64) in * by lia; change (64 * 64) with 4096 in *; lia).
    all: zcases; reflexivity. }
  destruct (Z.ltb_spec c 0x110000); [|discriminate].
  intros [= <-]; cbn [app utf8_decode]; unfold is_cont, cont_bits.
  assert (0 <= c / 262144 < 5) by (split; [apply Z.div_pos|apply Z.div_lt_upper_bound]; lia).
  pose proof (Z.mod_pos_bound c 64 ltac:(lia)).
  pose proof (Z.mod_pos_bound (c / 64) 64 ltac:(lia)).
  pose proof (Z.mod_pos_bound (c / 4096) 64 ltac:(lia)).
  rewrite !byte_val_of by lia.
  replace ((240 + c / 262144 - 240) * 262144 + (128 + (c / 4096) mod 64 - 128) * 4096
           + (128 + (c / 64) mod 64 - 128) * 64 + (128 + c mod 64 - 128)) with c.
  2:{ pose proof (Z.div_mod c 64 ltac:(lia)).
      pose proof (Z.div_mod (c / 64) 64 ltac:(lia)).
      pose proof (Z.div_mod (c / 4096) 64 ltac:(lia)).
      rewrite (Z.div_div c 64 64) in * by lia. change (64 * 64) with 4096 in *.
      rewrite (Z.div_div c 4096 64) in * by lia. change (4096 * 64) with 262144 in *.
      lia. }
  zcases; reflexivity.
Qed.

Lemma utf8_roundtrip (s : str) (bs : bytes) :
  utf8_encode s = Some bs -> utf8_decode bs = Some s.
Proof.
  revert bs. induction s as [|c s IH]; intros bs; cbn [utf8_encode].
  - intros [= <-]. reflexivity.
  - destruct (utf8_encode_cp c) as [b|] eqn:Ec; [|discriminate].
    destruct (utf8_encode s) as [bs'|]; [|discriminate].
    intros [= <-]. rewrite (utf8_decode_encode_cp _ _ _ Ec), (IH bs' eq_refl).
    reflexivity.
Qed.

Lemma utf8_encode_app (s t : str) :
  utf8_encode (s ++ t) =
  match utf8_encode s, utf8_encode t with
  | Some a, Some b => Some (a ++ b)
  | _, _ => None
  end.
Proof.
  induction s as [|c s IH]; cbn [app utf8_encode].
  - destruct (utf8_encode t); reflexivity.
  - rewrite IH. destruct (utf8_encode_cp c), (utf8_encode s), (utf8_encode t);
      try reflexivity. rewrite app_assoc. reflexivity.
Qed.

Lemma utf8_encode_cp_nonempty (c : Z) (b : bytes) :
  utf8_encode_cp c = Some b -> b <> [].
Proof.
  unfold utf8_encode_cp.
  repeat match goal with
         | |- context [if ?x then _ else _] => destruct x
         end; intros [= <-]; discriminate.
Qed.

Lemma utf8_encode_nonempty (s : str) (bs : bytes) :
  utf8_encode s = Some bs -> s <> [] -> 0 < len bs.
Proof.
  destruct s as [|c s]; [congruence|]. cbn [utf8_encode].
  destruct (utf8_encode_cp c) as [b|] eqn:Ec; [|discriminate].
  destruct (utf8_encode s); [|discriminate].
  intros [= <-] _. apply utf8_encode_cp_nonempty in Ec.
  rewrite len_app. pose proof (len_nonneg l). destruct b; [congruence|].
  unfold len in *. simpl. lia.
Qed.

Lemma utf8_encode_lit (s : string) : exists b, utf8_encode (lit s) = Some b.
Proof.
  unfold lit. induction s as [|a s [b IH]]; cbn [list_ascii_of_string map utf8_encode].
  - eauto.
  - rewrite IH.
    assert (Ha : 0 <= Z.of_N (N_of_ascii a) < 256)
      by (pose proof (N_ascii_bounded a); lia).
    unfold utf8_encode_cp.
    destruct (Z.ltb_spec (Z.of_N (N_of_ascii a)) 0); [lia|].
    destruct (Z.ltb_spec (Z.of_N (N_of_ascii a)) 128); [eauto|].
    destruct (Z.ltb_spec (Z.of_N (N_of_ascii a)) 2048); [eauto|lia].
Qed.

(** ** States up to bookkeeping *)

Lemma erase_log (e : event) (w : world) : erase (log e w) = erase w.
Proof. reflexivity. Qed.

Lemma erase_set_sched (s : list nat) (w : world) : erase (set_sched s w) = erase w.
Proof. reflexivity. Qed.

Lemma erase_fields (w w' : world) :
  erase w = erase w' <->
  readable w = readable w' /\ creatable w = creatable w' /\ disk w = disk w' /\
  stdin w = stdin w' /\ stdout w = stdout w' /\ stderr w = stderr w' /\
  fds w = fds w' /\ next_fd w = next_fd w'.
Proof.
  unfold erase. split.
  - intros H. injection H. auto 10.
  - intros (-> & -> & -> & -> & -> & -> & -> & ->). reflexivity.
Qed.

(** Splits a hypothesis [erase w = erase w'] into its eight equations. *)
Ltac erase_split H :=
  let H1 := fresh "Hreadable" in let H2 := fresh "Hcreatable" in
  let H3 := fresh "Hdisk" in let H4 := fresh "Hstdin" in
  let H5 := fresh "Hstdout" in let H6 := fresh "Hstderr" in
  let H7 := fresh "Hfds" in let H8 := fresh "Hnext" in
  apply erase_fields in H as (H1 & H2 & H3 & H4 & H5 & H6 & H7 & H8);
  cbn [readable creatable disk stdin stdout stderr fds next_fd
       set_disk set_stdin set_stdout set_stderr set_fds set_next_fd
       set_sched log erase] in H1, H2, H3, H4, H5, H6, H7, H8.

(** Proves a goal [erase w = erase w'] field by field. *)
Ltac erase_fields :=
  apply erase_fields;
  cbn [readable creatable disk stdin stdout stderr fds next_fd
       set_disk set_stdin set_stdout set_stderr set_fds set_next_fd
       set_sched log erase];
  repeat split; try congruence.

Lemma pending_of_erase (fd : nat) (w w' : world) :
  erase w = erase w' -> pending_of fd w = pending_of fd w'.
Proof.
  intros H. erase_split H. unfold pending_of. rewrite Hstdin, Hfds. reflexivity.
Qed.

Lemma set_pending_erase (fd : nat) (q : bytes) (w w' : world) :
  erase w = erase w' -> erase (set_pending fd q w) = erase (set_pending fd q w').
Proof.
  intros H. erase_split H. unfold set_pending.
  destruct (decide (fd = 0%nat)); [erase_fields|].
  rewrite Hfds. destruct (fds w' !! fd) as [[p st|path]|]; erase_fields.
Qed.

Lemma pending_of_set_pending (fd : nat) (p q : bytes) (w : world) :
  pending_of fd w = Some p -> pending_of fd (set_pending fd q w) = Some q.
Proof.
  unfold pending_of, set_pending.
  destruct (decide (fd = 0%nat)); [reflexivity|].
  destruct (fds w !! fd) as [[p' st|path]|] eqn:E; try discriminate.
  intros _. cbn [fds set_fds]. rewrite lookup_insert_eq. reflexivity.
Qed.

Lemma set_pending_twice (fd : nat) (p q q' : bytes) (w : world) :
  pending_of fd w = Some p ->
  set_pending fd q (set_pending fd q' w) = set_pending fd q w.
Proof.
  unfold pending_of, set_pending.
  destruct (decide (fd = 0%nat)); [reflexivity|].
  destruct (fds w !! fd) as [[p' st|path]|] eqn:E; try discriminate.
  intros _. cbn [fds set_fds]. rewrite lookup_insert_eq.
  unfold set_fds. cbn. rewrite insert_insert_eq. reflexivity.
Qed.

Lemma set_pending_same (fd : nat) (p : bytes) (w : world) :
  pending_of fd w = Some p -> set_pending fd p w = w.
Proof.
  unfold pending_of, set_pending.
  destruct (decide (fd = 0%nat)); [intros [= <-]; destruct w; reflexivity|].
  destruct (fds w !! fd) as [[p' st|path]|] eqn:E; try discriminate.
  intros [= ->]. rewrite insert_id by exact E. destruct w; reflexivity.
Qed.

Lemma trace_set_pending (fd : nat) (q : bytes) (w : world) :
  trace (set_pending fd q w) = trace w.
Proof.
  unfold set_pending. destruct (decide (fd = 0%nat)); [reflexivity|].
  destruct (fds w !! fd) as [[p st|path]|]; reflexivity.
Qed.

(** ** Reads *)

Lemma read_count_le (n : Z) (s : list nat) (a : nat) :
  (read_count n s a <= Z.to_nat n)%nat /\ (read_count n s a <= a)%nat.
Proof. unfold read_count. destruct s; lia. Qed.

Lemma read_count_pos (n : Z) (s : list nat) (a : nat) :
  0 < n -> (0 < a)%nat -> (0 < read_count n s a)%nat.
Proof. unfold read_count. destruct s; lia. Qed.

Lemma os_read_spec (fd : nat) (n : Z) (w : world) (p : bytes) :
  pending_of fd w = Some p ->
  let k := read_count n (sched w) (length p) in
  exists w', os_read fd n w = (Ret (take k p), w') /\
             pending_of fd w' = Some (drop k p) /\
             erase w' = erase (set_pending fd (drop k p) w) /\
             trace w' = trace w ++ [EvRead fd n (take k p)].
Proof.
  intros Hp k. unfold os_read. rewrite Hp. fold k.
  eexists. split; [reflexivity|]. split; [|split; [reflexivity|]].
  - rewrite <- (pending_of_set_pending fd p (drop k p) w Hp).
    apply pending_of_erase. reflexivity.
  - cbn [trace log set_sched]. rewrite trace_set_pending. reflexivity.
Qed.

Lemma take_split {A} (k m : nat) (l : list A) :
  take (k + m) l = take k l ++ take m (drop k l).
Proof.
  revert l. induction k as [|k IH]; intros [|x l]; cbn; try reflexivity.
  - destruct m; reflexivity.
  - rewrite IH. reflexivity.
Qed.

Lemma read_exact_loop_spec (fuel fd : nat) :
  forall (chunks : list bytes) (remaining : Z) (w : world) (p : bytes),
  pending_of fd w = Some p -> (length p < fuel)%nat ->
  exists w',
    read_exact_loop fuel fd chunks remaining w
      = (Ret (concat chunks ++ take (Z.to_nat remaining) p), w') /\
    erase w' = erase (set_pending fd (drop (Z.to_nat remaining) p) w).
Proof.
  induction fuel as [|fuel IH]; intros chunks remaining w p Hp Hfuel; [lia|].
  cbn [read_exact_loop].
  destruct (Z.gtb_spec remaining 0) as [Hpos|Hnon].
  2:{ exists w. replace (Z.to_nat remaining) with O by lia.
      rewrite take_0, drop_0, app_nil_r, (set_pending_same _ _ _ Hp). auto. }
  destruct (os_read_spec fd remaining w p Hp) as (w1 & Hrd & Hp1 & He1 & _).
  set (k := read_count remaining (sched w) (length p)) in *.
  pose proof (read_count_le remaining (sched w) (length p)) as [Hk1 Hk2]. fold k in Hk1, Hk2.
  unfold bind at 1. rewrite Hrd.
  destruct (take k p) as [|b data] eqn:Et.
  - (* end of the stream *)
    assert (p = []) as ->.
    { destruct p as [|x p]; [reflexivity|].
      pose proof (read_count_pos remaining (sched w) (length (x :: p)) ltac:(lia)
                    ltac:(simpl; lia)) as Hk. fold k in Hk.
      destruct k; [lia|discriminate]. }
    exists w1. rewrite take_nil, app_nil_r. split; [reflexivity|].
    rewrite He1. rewrite !drop_nil. reflexivity.
  - rewrite <- Et in *.
    assert (Hlen : length (take k p) = k) by (rewrite length_take; lia).
    destruct (IH (chunks ++ [take k p]) (remaining - len (take k p)) w1 (drop k p) Hp1)
      as (w' & Hloop & He').
    { rewrite length_drop. assert (0 < k)%nat by (rewrite <- Hlen, Et; simpl; lia). lia. }
    exists w'. rewrite Hloop. split.
    + rewrite concat_app. cbn [concat]. rewrite app_nil_r, <- app_assoc.
      unfold len. rewrite Hlen.
      replace (Z.to_nat remaining) with (k + Z.to_nat (remaining - Z.of_nat k))%nat by lia.
      rewrite take_split. reflexivity.
    + rewrite He'. unfold len. rewrite Hlen.
      rewrite (set_pending_erase _ _ _ _ He1), (set_pending_twice _ _ _ _ _ Hp).
      rewrite drop_drop. do 3 f_equal. lia.
Qed.

Lemma read_exact_spec (fd : nat) (n : Z) (w : world) (p : bytes) :
  pending_of fd w = Some p ->
  exists w',
    read_exact fd n w = (Ret (take (Z.to_nat n) p), w') /\
    erase w' = erase (set_pending fd (drop (Z.to_nat n) p) w).
Proof.
  intros Hp. unfold read_exact, avail. rewrite Hp.
  apply (read_exact_loop_spec _ fd [] n w p Hp). lia.
Qed.

(** ** Writes, closes and [die] *)

Lemma bind_Ret {A B} (m : M A) (k : A -> M B) (w w' : world) (a : A) :
  m w = (Ret a, w') -> bind m k w = k a w'.
Proof. intros H. unfold bind. rewrite H. reflexivity. Qed.

Lemma bind_SysExit {A B} (m : M A) (k : A -> M B) (w w' : world) (c : Z) :
  m w = (SysExit c, w') -> bind m k w = (SysExit c, w').
Proof. intros H. unfold bind. rewrite H. reflexivity. Qed.

Lemma os_write_stdout (d : bytes) (w : world) :
  os_write 1 d w = (Ret tt, log (EvWrite 1 d) (set_stdout (stdout w ++ d) w)).
Proof. reflexivity. Qed.

Lemma os_write_file (fd : nat) (path : str) (d : bytes) (w : world) :
  (3 <= fd)%nat -> fds w !! fd = Some (WrH path) ->
  os_write fd d w =
  (Ret tt, log (EvWrite fd d)
             (set_disk (<[path := default [] (disk w !! path) ++ d]> (disk w)) w)).
Proof.
  intros Hfd Hh. unfold os_write.
  destruct (decide (fd = 1%nat)); [lia|]. destruct (decide (fd = 2%nat)); [lia|].
  rewrite Hh. reflexivity.
Qed.

Lemma os_close_spec (fd : nat) (h : handle) (w : world) :
  fds w !! fd = Some h ->
  os_close fd w = (Ret tt, log (EvClose fd) (set_fds (delete fd (fds w)) w)).
Proof. intros Hh. unfold os_close. rewrite Hh. reflexivity. Qed.

Lemma die_spec {A} (msg : str) (b : bytes) (w : world) :
  diagnostic msg = Some b ->
  @die A msg w = (SysExit 1, log (EvWrite 2 b) (set_stderr (stderr w ++ b) w)).
Proof. intros H. unfold die, bind. rewrite H. reflexivity. Qed.

Lemma diagnostic_lit (s : string) : exists b, diagnostic (lit s) = Some b.
Proof.
  unfold diagnostic. rewrite !utf8_encode_app.
  destruct (utf8_encode_lit "mytar: ") as [b1 ->].
  destruct (utf8_encode_lit s) as [b2 ->].
  destruct (utf8_encode_lit (String "010" EmptyString)) as [b3 ->]. eauto.
Qed.

Lemma diagnostic_quoted (s t : string) (name : str) (nb : bytes) :
  utf8_encode name = Some nb ->
  exists b, diagnostic (lit s ++ name ++ lit t) = Some b.
Proof.
  intros Hn. unfold diagnostic. rewrite !utf8_encode_app, Hn.
  destruct (utf8_encode_lit "mytar: ") as [b1 ->].
  destruct (utf8_encode_lit s) as [b2 ->].
  destruct (utf8_encode_lit t) as [b4 ->].
  destruct (utf8_encode_lit (String "010" EmptyString)) as [b3 ->]. eauto.
Qed.

Lemma pending_of_file (fd : nat) (p : bytes) (st : option Z) (w : world) :
  (3 <= fd)%nat -> fds w !! fd = Some (RdH p st) -> pending_of fd w = Some p.
Proof.
  intros Hfd Hh. unfold pending_of.
  destruct (decide (fd = 0%nat)); [lia|]. rewrite Hh. reflexivity.
Qed.

Lemma set_pending_file (fd : nat) (p q : bytes) (st : option Z) (w : world) :
  (3 <= fd)%nat -> fds w !! fd = Some (RdH p st) ->
  set_pending fd q w = set_fds (<[fd := RdH q st]> (fds w)) w.
Proof.
  intros Hfd Hh. unfold set_pending.
  destruct (decide (fd = 0%nat)); [lia|]. rewrite Hh. reflexivity.
Qed.

(** ** The content loop of the encoder *)

Lemma create_copy_loop_spec (name : str) (fd : nat) (st : option Z) (fuel : nat) :
  forall (remaining : Z) (w : world) (p : bytes),
  (3 <= fd)%nat -> fds w !! fd = Some (RdH p st) -> (length p < fuel)%nat ->
  (remaining <= len p ->
   exists w',
     create_copy_loop fuel name fd remaining w = (Ret tt, w') /\
     erase w' = erase (set_stdout (stdout w ++ take (Z.to_nat remaining) p)
                         (set_fds (<[fd := RdH (drop (Z.to_nat remaining) p) st]> (fds w)) w))) /\
  (len p < remaining ->
   forall b, diagnostic (lit "unexpected EOF reading '" ++ name ++ lit "'") = Some b ->
   exists w' evs,
     create_copy_loop fuel name fd remaining w = (SysExit 1, w') /\
     erase w' = erase (set_stderr (stderr w ++ b)
                         (set_stdout (stdout w ++ p)
                            (set_fds (delete fd (fds w)) w))) /\
     trace w' = trace w ++ evs ++ [EvClose fd; EvWrite 2 b]).
Proof.
  induction fuel as [|fuel IH]; intros remaining w p Hfd Hh Hfuel; [lia|].
  pose proof (pending_of_file fd p st w Hfd Hh) as Hp.
  cbn [create_copy_loop].
  destruct (Z.gtb_spec remaining 0) as [Hpos|Hnon].
  2:{ split; [|pose proof (len_nonneg p); lia].
      intros _. exists w. split; [reflexivity|].
      replace (Z.to_nat remaining) with O by lia.
      rewrite take_0, drop_0, app_nil_r, insert_id by exact Hh. destruct w; reflexivity. }
  destruct (os_read_spec fd (Z.min BUF_SIZE remaining) w p Hp) as (w1 & Hrd & Hp1 & He1 & Ht1).
  set (k := read_count (Z.min BUF_SIZE remaining) (sched w) (length p)) in *.
  pose proof (read_count_le (Z.min BUF_SIZE remaining) (sched w) (length p)) as [Hk1 Hk2].
  fold k in Hk1, Hk2.
  rewrite (set_pending_file fd p _ st w Hfd Hh) in He1.
  rewrite (bind_Ret _ _ _ _ _ Hrd).
  destruct (take k p) as [|c data] eqn:Et.
  - (* the file has no more bytes *)
    assert (p = []) as ->.
    { destruct p as [|x p]; [reflexivity|].
      pose proof (read_count_pos (Z.min BUF_SIZE remaining) (sched w) (length (x :: p))
                    ltac:(unfold BUF_SIZE; lia) ltac:(simpl; lia)) as Hk. fold k in Hk.
      destruct k; [lia|discriminate]. }
    split; [unfold len; simpl; lia|]. intros _ b Hb.
    assert (Hh1 : fds w1 !! fd = Some (RdH [] st)).
    { erase_split He1. rewrite Hfds, drop_nil. apply lookup_insert_eq. }
    rewrite (bind_Ret _ _ _ _ _ (os_close_spec fd _ w1 Hh1)), (die_spec _ _ _ Hb).
    eexists _, [EvRead fd (Z.min BUF_SIZE remaining) []]. split; [reflexivity|]. split.
    + erase_split He1. erase_fields.
      * rewrite Hstdout, app_nil_r. reflexivity.
      * rewrite Hfds. apply delete_insert_eq.
    + cbn [trace log set_fds set_stderr]. rewrite Ht1, <- !app_assoc. reflexivity.
  - cbv beta iota.
    assert (Hkpos : (0 < k)%nat) by (destruct k; [discriminate|lia]).
    rewrite <- Et in *. clear c data Et.
    assert (Hlen : length (take k p) = k) by (rewrite length_take; lia).
    rewrite (bind_Ret _ _ _ _ _ (os_write_stdout _ w1)).
    erase_split He1.
    remember (log (EvWrite 1 (take k p)) (set_stdout (stdout w1 ++ take k p) w1)) as w2 eqn:Ew2.
    assert (Hfds2 : fds w2 = <[fd := RdH (drop k p) st]> (fds w)) by (subst w2; exact Hfds).
    assert (Hout2 : stdout w2 = stdout w ++ take k p)
      by (subst w2; cbn [stdout log set_stdout]; congruence).
    assert (Herr2 : stderr w2 = stderr w) by (subst w2; exact Hstderr).
    assert (Ht2 : trace w2 = trace w1 ++ [EvWrite 1 (take k p)]) by (subst w2; reflexivity).
    assert (He2 : erase w2 = erase (set_stdout (stdout w2) (set_fds (fds w2) w)))
      by (subst w2; erase_fields).
    clear Ew2.
    assert (Hh2 : fds w2 !! fd = Some (RdH (drop k p) st))
      by (rewrite Hfds2; apply lookup_insert_eq).
    destruct (IH (remaining - len (take k p)) w2 (drop k p) Hfd Hh2) as [IHok IHeof].
    { rewrite length_drop. lia. }
    unfold len in *. rewrite Hlen, length_drop in *.
    erase_split He2.
    split.
    + intros Hle. destruct IHok as (w' & Hloop & He'); [lia|].
      exists w'. split; [exact Hloop|]. rewrite He'. erase_fields.
      * rewrite Hout2, <- app_assoc.
        replace (Z.to_nat remaining) with (k + Z.to_nat (remaining - Z.of_nat k))%nat by lia.
        rewrite take_split. reflexivity.
      * rewrite Hfds2, insert_insert_eq, drop_drop. do 3 f_equal. lia.
    + intros Hgt b Hb. destruct (IHeof ltac:(lia) b Hb) as (w' & evs & Hloop & He' & Ht').
      exists w', (EvRead fd (Z.min BUF_SIZE remaining) (take k p) :: EvWrite 1 (take k p) :: evs).
      split; [exact Hloop|]. split.
      * rewrite He'. erase_fields.
        -- rewrite Hout2, <- app_assoc, take_drop. reflexivity.
        -- rewrite Hfds2. apply delete_insert_eq.
      * rewrite Ht', Ht2, Ht1, <- !app_assoc. reflexivity.
Qed.

(** ** One file of the encoder *)

Lemma except_Ret {A} (m h : M A) (w w' : world) (a : A) :
  m w = (Ret a, w') -> except_OSError m h w = (Ret a, w').
Proof. intros H. unfold except_OSError. rewrite H. reflexivity. Qed.

Lemma except_OSError_caught {A} (m h : M A) (w w' : world) :
  m w = (Raised OSError, w') -> except_OSError m h w = h w'.
Proof. intros H. unfold except_OSError. rewrite H. reflexivity. Qed.

Lemma except_ValueError {A} (m h : M A) (w w' : world) :
  m w = (Raised ValueError, w') -> except_OSError m h w = (Raised ValueError, w').
Proof. intros H. unfold except_OSError. rewrite H. reflexivity. Qed.

Lemma os_open_create_fails (name : str) (w : world) :
  creatable w name = false ->
  os_open_create name w = (Raised (if has_nul name then ValueError else OSError), w).
Proof. intros H. unfold os_open_create. rewrite H. destruct (has_nul name); reflexivity. Qed.

Lemma bind_Raised {A B} (m : M A) (k : A -> M B) (w w' : world) (e : exn) :
  m w = (Raised e, w') -> bind m k w = (Raised e, w').
Proof. intros H. unfold bind. rewrite H. reflexivity. Qed.

Lemma bind_ret {A B} (a : A) (k : A -> M B) (w : world) : bind (ret a) k w = k a w.
Proof. reflexivity. Qed.

Lemma fd_wf_erase (w w' : world) : erase w = erase w' -> fd_wf w -> fd_wf w'.
Proof. intros H. erase_split H. unfold fd_wf. rewrite Hfds, Hnext. auto. Qed.

Lemma fd_wf_next (w : world) : fd_wf w -> fd_wf (set_next_fd (S (next_fd w)) w).
Proof.
  intros [H3 Hfree]. split; cbn [next_fd fds set_next_fd]; [lia|].
  intros k Hk. apply Hfree. lia.
Qed.

Lemma create_archive_body_header (name : str) (size : Z) (data nb : bytes) (w : world) :
  (3 <= next_fd w)%nat ->
  readable w !! name = Some (RFile (Some size) data) ->
  utf8_encode name = Some nb ->
  len nb < 2 ^ 32 -> 0 <= size < 2 ^ 64 ->
  create_archive_body name w =
  bind (create_copy_loop (S (length data)) name (next_fd w) size)
    (fun _ => os_close (next_fd w)) (after_header name nb size data w).
Proof.
  intros H3 Hfile Hname Hnb Hsize.
  set (fd := next_fd w).
  set (w1 := log (EvOpen name fd)
               (set_next_fd (S fd) (set_fds (<[fd := RdH data (Some size)]> (fds w)) w))).
  set (w2 := log (EvWrite 1 (be_digits 4 (len nb))) (set_stdout (stdout w1 ++ be_digits 4 (len nb)) w1)).
  set (w3 := log (EvWrite 1 nb) (set_stdout (stdout w2 ++ nb) w2)).
  set (w4 := log (EvWrite 1 (be_digits 8 size)) (set_stdout (stdout w3 ++ be_digits 8 size) w3)).
  change (after_header name nb size data w) with w4.
  assert (Hopen : os_open_rdonly name w = (Ret fd, w1))
    by (unfold os_open_rdonly; rewrite Hfile; reflexivity).
  assert (Hstat : os_fstat_size fd w1 = (Ret size, w1)).
  { unfold os_fstat_size. cbn [w1 fds log set_next_fd set_fds].
    rewrite lookup_insert_eq. reflexivity. }
  assert (Hh4 : fds w4 !! fd = Some (RdH data (Some size))) by apply lookup_insert_eq.
  assert (Hav : avail fd w4 = length data).
  { unfold avail. rewrite (pending_of_file fd data (Some size) w4); [reflexivity|exact H3|exact Hh4]. }
  unfold create_archive_body.
  rewrite (bind_Ret _ _ _ _ _ (except_Ret _ _ _ _ _ Hopen)).
  rewrite (bind_Ret _ _ _ _ _ (except_Ret _ _ _ _ _ Hstat)).
  rewrite Hname. cbn [or_raise]. rewrite bind_ret.
  rewrite (int_to_bytes_Some (len nb) 4)
    by (pose proof (len_nonneg nb); change (256 ^ Z.of_nat 4) with (2 ^ 32); lia).
  cbn [or_raise]. rewrite bind_ret.
  rewrite (bind_Ret _ _ _ _ _ (os_write_stdout _ w1)). fold w2.
  rewrite (bind_Ret _ _ _ _ _ (os_write_stdout _ w2)). fold w3.
  rewrite (int_to_bytes_Some size 8) by (change (256 ^ Z.of_nat 8) with (2 ^ 64); lia).
  cbn [or_raise]. rewrite bind_ret.
  rewrite (bind_Ret _ _ _ _ _ (os_write_stdout _ w3)). fold w4.
  unfold bind at 1. rewrite Hav. reflexivity.
Qed.

Lemma create_archive_body_spec (name : str) (size : Z) (data nb : bytes) (w : world) :
  fd_wf w ->
  readable w !! name = Some (RFile (Some size) data) ->
  utf8_encode name = Some nb ->
  len nb < 2 ^ 32 -> 0 <= size < 2 ^ 64 ->
  (size <= len data ->
   exists w',
     create_archive_body name w = (Ret tt, w') /\
     erase w' = erase (set_next_fd (S (next_fd w))
                         (set_stdout (stdout w ++ record_bytes nb size (take (Z.to_nat size) data)) w))) /\
  (len data < size ->
   exists b w' evs,
     diagnostic (lit "unexpected EOF reading '" ++ name ++ lit "'") = Some b /\
     create_archive_body name w = (SysExit 1, w') /\
     erase w' = erase (set_next_fd (S (next_fd w))
                         (set_stderr (stderr w ++ b)
                            (set_stdout (stdout w ++ record_bytes nb size data) w))) /\
     trace w' = trace w ++ EvOpen name (next_fd w) :: evs ++ [EvClose (next_fd w); EvWrite 2 b]).
Proof.
  intros [H3 Hfree] Hfile Hname Hnb Hsize.
  rewrite (create_archive_body_header name size data nb w H3 Hfile Hname Hnb Hsize).
  set (fd := next_fd w).
  set (w4 := after_header name nb size data w).
  assert (Hh4 : fds w4 !! fd = Some (RdH data (Some size))) by apply lookup_insert_eq.
  assert (Hout4 : stdout w4 = stdout w ++ be_digits 4 (len nb) ++ nb ++ be_digits 8 size)
    by (cbn [w4 after_header stdout log set_stdout set_next_fd set_fds];
        rewrite <- !app_assoc; reflexivity).
  assert (He4 : erase w4 = erase (set_next_fd (S fd) (set_stdout (stdout w4)
                   (set_fds (<[fd := RdH data (Some size)]> (fds w)) w)))) by reflexivity.
  assert (Ht4 : exists evs, trace w4 = trace w ++ EvOpen name fd :: evs).
  { eexists. cbn [w4 after_header trace log set_stdout set_next_fd set_fds].
    rewrite <- !app_assoc. reflexivity. }
  clearbody w4.
  destruct (create_copy_loop_spec name fd (Some size) (S (length data)) size w4 data
              H3 Hh4 ltac:(lia)) as [Hok Heof].
  erase_split He4.
  split.
  - intros Hle. destruct (Hok Hle) as (w5 & Hloop & He5).
    rewrite (bind_Ret _ _ _ _ _ Hloop).
    assert (Hh5 : fds w5 !! fd = Some (RdH (drop (Z.to_nat size) data) (Some size))).
    { erase_split He5. rewrite Hfds0. apply lookup_insert_eq. }
    rewrite (os_close_spec fd _ w5 Hh5). eexists. split; [reflexivity|].
    erase_split He5. erase_fields.
    + rewrite Hstdout0, Hout4. unfold record_bytes. rewrite <- !app_assoc. reflexivity.
    + rewrite Hfds0, Hfds, delete_insert_eq, delete_insert_eq. apply delete_id, Hfree. lia.
  - intros Hgt.
    destruct (diagnostic_quoted "unexpected EOF reading '" "'" name nb Hname) as [b Hb].
    destruct (Heof Hgt b Hb) as (w5 & evs & Hloop & He5 & Ht5).
    destruct Ht4 as [evs4 Ht4].
    exists b, w5, (evs4 ++ evs). split; [exact Hb|].
    rewrite (bind_SysExit _ _ _ _ _ Hloop). split; [reflexivity|]. split.
    + erase_split He5. erase_fields.
      * rewrite Hstdout0, Hout4. unfold record_bytes. rewrite <- !app_assoc. reflexivity.
      * rewrite Hfds0, Hfds, delete_insert_eq. apply delete_id, Hfree. lia.
    + rewrite Ht5, Ht4, <- !app_assoc. reflexivity.
Qed.

Lemma diagnostic_quoted_shape (s t : string) (name : str) (nb b : bytes) :
  utf8_encode name = Some nb ->
  diagnostic (lit s ++ name ++ lit t) = Some b ->
  exists pre post, b = pre ++ nb ++ post.
Proof.
  intros Hn. unfold diagnostic. rewrite !utf8_encode_app, Hn.
  destruct (utf8_encode_lit "mytar: ") as [b1 ->].
  destruct (utf8_encode_lit s) as [b2 ->].
  destruct (utf8_encode_lit t) as [b4 ->].
  destruct (utf8_encode_lit (String "010" EmptyString)) as [b3 ->].
  intros [= <-]. exists (b1 ++ b2), (b4 ++ b3). rewrite <- !app_assoc. reflexivity.
Qed.

(** ** The content loop of the decoder *)

Lemma extract_copy_loop_spec (out_fd : nat) (path : str) (fuel : nat) :
  forall (remaining : Z) (w : world) (old : bytes),
  (3 <= out_fd)%nat -> fds w !! out_fd = Some (WrH path) ->
  disk w !! path = Some old -> (length (stdin w) < fuel)%nat ->
  (remaining <= len (stdin w) ->
   exists w',
     extract_copy_loop fuel 0 out_fd remaining w = (Ret tt, w') /\
     erase w' = erase (set_stdin (drop (Z.to_nat remaining) (stdin w))
                         (set_disk (<[path := old ++ take (Z.to_nat remaining) (stdin w)]> (disk w)) w))) /\
  (len (stdin w) < remaining ->
   forall b, diagnostic (lit "corrupted archive (unexpected EOF in file data)") = Some b ->
   exists w' evs,
     extract_copy_loop fuel 0 out_fd remaining w = (SysExit 1, w') /\
     erase w' = erase (set_stderr (stderr w ++ b)
                         (set_fds (delete out_fd (fds w))
                            (set_stdin []
                               (set_disk (<[path := old ++ stdin w]> (disk w)) w)))) /\
     trace w' = trace w ++ evs ++ [EvClose out_fd; EvWrite 2 b]).
Proof.
  induction fuel as [|fuel IH]; intros remaining w old Hfd Hh Hold Hfuel; [lia|].
  cbn [extract_copy_loop].
  destruct (Z.gtb_spec remaining 0) as [Hpos|Hnon].
  2:{ split; [|pose proof (len_nonneg (stdin w)); lia].
      intros _. exists w. split; [reflexivity|].
      replace (Z.to_nat remaining) with O by lia.
      rewrite take_0, drop_0, app_nil_r, insert_id by exact Hold. destruct w; reflexivity. }
  destruct (os_read_spec 0 (Z.min BUF_SIZE remaining) w (stdin w) eq_refl)
    as (w1 & Hrd & _ & He1 & Ht1).
  remember (stdin w) as p eqn:Ep.
  set (k := read_count (Z.min BUF_SIZE remaining) (sched w) (length p)) in *.
  pose proof (read_count_le (Z.min BUF_SIZE remaining) (sched w) (length p)) as [Hk1 Hk2].
  fold k in Hk1, Hk2.
  change (set_pending 0 (drop k p) w) with (set_stdin (drop k p) w) in He1.
  rewrite (bind_Ret _ _ _ _ _ Hrd).
  erase_split He1.
  destruct (take k p) as [|c data] eqn:Et.
  - (* the stream has no more bytes *)
    assert (Hp : p = []).
    { clear Ep. destruct p as [|x p']; [reflexivity|].
      pose proof (read_count_pos (Z.min BUF_SIZE remaining) (sched w) (length (x :: p'))
                    ltac:(unfold BUF_SIZE; lia) ltac:(simpl; lia)) as Hk. fold k in Hk.
      destruct k; [lia|discriminate]. }
    rewrite Hp in *.
    split; [unfold len; simpl; lia|]. intros _ b Hb.
    assert (Hh1 : fds w1 !! out_fd = Some (WrH path)) by congruence.
    rewrite (bind_Ret _ _ _ _ _ (os_close_spec out_fd _ w1 Hh1)), (die_spec _ _ _ Hb).
    eexists _, [EvRead 0 (Z.min BUF_SIZE remaining) []]. split; [reflexivity|]. split.
    + erase_fields.
      * rewrite app_nil_r, insert_id by exact Hold. congruence.
      * rewrite Hstdin. apply drop_nil.
    + cbn [trace log set_fds set_stderr]. rewrite Ht1, <- !app_assoc. reflexivity.
  - cbv beta iota.
    assert (Hkpos : (0 < k)%nat) by (destruct k; [discriminate|lia]).
    rewrite <- Et in *. clear c data Et.
    assert (Hlen : length (take k p) = k) by (rewrite length_take; lia).
    assert (Hh1 : fds w1 !! out_fd = Some (WrH path)) by congruence.
    rewrite (bind_Ret _ _ _ _ _ (os_write_file out_fd path _ w1 Hfd Hh1)).
    rewrite Hdisk, Hold. change (default [] (Some old)) with old.
    remember (log (EvWrite out_fd (take k p))
                (set_disk (<[path := old ++ take k p]> (disk w)) w1)) as w2 eqn:Ew2.
    assert (He2 : erase w2 = erase (set_stdin (drop k p)
                     (set_disk (<[path := old ++ take k p]> (disk w)) w)))
      by (subst w2; erase_fields).
    assert (Ht2 : trace w2 = trace w1 ++ [EvWrite out_fd (take k p)]) by (subst w2; reflexivity).
    clear Ew2. erase_split He2.
    assert (Hh2 : fds w2 !! out_fd = Some (WrH path)) by congruence.
    assert (Hold2 : disk w2 !! path = Some (old ++ take k p))
      by (rewrite Hdisk0; apply lookup_insert_eq).
    destruct (IH (remaining - len (take k p)) w2 (old ++ take k p) Hfd Hh2 Hold2) as [IHok IHeof].
    { rewrite Hstdin0, length_drop. lia. }
    unfold len in *. rewrite Hstdin0, Hlen, length_drop in *.
    split.
    + intros Hle. destruct IHok as (w' & Hloop & He'); [lia|].
      exists w'. split; [exact Hloop|]. rewrite He'. erase_fields.
      * rewrite Hdisk0, insert_insert_eq, <- app_assoc.
        replace (Z.to_nat remaining) with (k + Z.to_nat (remaining - Z.of_nat k))%nat by lia.
        rewrite take_split. reflexivity.
      * rewrite drop_drop. f_equal. lia.
    + intros Hgt b Hb. destruct (IHeof ltac:(lia) b Hb) as (w' & evs & Hloop & He' & Ht').
      exists w', (EvRead 0 (Z.min BUF_SIZE remaining) (take k p) :: EvWrite out_fd (take k p) :: evs).
      split; [exact Hloop|]. split.
      * rewrite He'. erase_fields.
        rewrite Hdisk0, insert_insert_eq, <- app_assoc, take_drop. reflexivity.
      * rewrite Ht', Ht2, Ht1, <- !app_assoc. reflexivity.
Qed.

(** ** What a computation adds to the trace *)

Section Emits.
Variable ok : event -> Prop.

Lemma emits_ret {A} (a : A) : emits ok (ret a).
Proof. intros w. exists []. rewrite app_nil_r. auto. Qed.

Lemma emits_fail {A} (o : outcome A) : emits ok (fun w => (o, w)).
Proof. intros w. exists []. rewrite app_nil_r. auto. Qed.

Lemma emits_bind {A B} (m : M A) (k : A -> M B) :
  emits ok m -> (forall a, emits ok (k a)) -> emits ok (bind m k).
Proof.
  intros Hm Hk w. destruct (Hm w) as (evs & Ht & Hok). unfold bind.
  destruct (m w) as [[a|c|e|] w1]; cbn [snd] in *; eauto.
  destruct (Hk a w1) as (evs' & Ht' & Hok').
  exists (evs ++ evs'). rewrite Ht', Ht, app_assoc. split; [reflexivity|].
  apply Forall_app; auto.
Qed.

Lemma emits_except {A} (m h : M A) :
  emits ok m -> emits ok h -> emits ok (except_OSError m h).
Proof.
  intros Hm Hh w. destruct (Hm w) as (evs & Ht & Hok). unfold except_OSError.
  destruct (m w) as [[a|c|[]|] w1]; cbn [snd] in *; eauto.
  destruct (Hh w1) as (evs' & Ht' & Hok').
  exists (evs ++ evs'). rewrite Ht', Ht, app_assoc. split; [reflexivity|].
  apply Forall_app; auto.
Qed.

Lemma emits_or_raise {A} (e : exn) (o : option A) : emits ok (or_raise e o).
Proof. destruct o; [apply emits_ret|apply emits_fail]. Qed.

Lemma emits_os_read (fd : nat) (n : Z) :
  (forall got, len got <= Z.max 0 n -> ok (EvRead fd n got)) -> emits ok (os_read fd n).
Proof.
  intros Hok w. unfold os_read.
  destruct (pending_of fd w) as [p|]; [|apply (emits_fail (Raised OSError))].
  eexists [_]. cbn [snd trace log set_sched]. rewrite trace_set_pending.
  split; [reflexivity|]. constructor; [|constructor]. apply Hok.
  pose proof (read_count_le n (sched w) (length p)) as [H1 H2].
  unfold len. rewrite length_take. lia.
Qed.

Lemma emits_os_write (fd : nat) (d : bytes) :
  ok (EvWrite fd d) -> emits ok (os_write fd d).
Proof.
  intros Hok w. unfold os_write.
  destruct (decide (fd = 1%nat)); [exists [EvWrite fd d]; auto|].
  destruct (decide (fd = 2%nat)); [exists [EvWrite fd d]; auto|].
  destruct (fds w !! fd) as [[p st|path]|];
    [apply (emits_fail (Raised OSError))|exists [EvWrite fd d]; auto
    |apply (emits_fail (Raised OSError))].
Qed.

Lemma emits_os_close (fd : nat) : ok (EvClose fd) -> emits ok (os_close fd).
Proof.
  intros Hok w. unfold os_close.
  destruct (fds w !! fd); [exists [EvClose fd]; auto|apply (emits_fail (Raised OSError))].
Qed.

Lemma emits_die {A} (msg : str) :
  (forall b, ok (EvWrite 2 b)) -> emits ok (@die A msg).
Proof.
  intros Hok. unfold die. apply emits_bind; [apply emits_or_raise|]. intros b.
  apply emits_bind; [apply emits_os_write, Hok|]. intros _.
  apply (emits_fail (SysExit 1)).
Qed.
End Emits.

Lemma emits_weaken {A} (ok ok' : event -> Prop) (m : M A) :
  (forall e, ok e -> ok' e) -> emits ok m -> emits ok' m.
Proof.
  intros Himp Hm w. destruct (Hm w) as (evs & Ht & Hok).
  exists evs. split; [exact Ht|]. eapply Forall_impl; eauto.
Qed.

Lemma copy_event_mono (r r' : Z) (e : event) :
  r <= r' -> copy_event r e -> copy_event r' e.
Proof. intros Hr. destruct e; cbn; try tauto. lia. Qed.

Lemma copy_event_not_create (r : Z) (e : event) : copy_event r e -> not_create e.
Proof. destruct e; cbn; auto. Qed.

Lemma create_copy_loop_bounded (name : str) (fd fuel : nat) :
  forall remaining, emits (copy_event remaining) (create_copy_loop fuel name fd remaining).
Proof.
  induction fuel as [|fuel IH]; intros remaining; cbn [create_copy_loop];
    destruct (Z.gtb_spec remaining 0); try apply emits_ret;
    [apply (emits_fail _ OutOfFuel)|].
  apply emits_bind.
  { apply emits_os_read. intros got Hgot. cbn. unfold BUF_SIZE in *. lia. }
  intros [|c chunk].
  - apply emits_bind; [apply emits_os_close; exact I|]. intros _.
    apply emits_die. intros b. exact I.
  - apply emits_bind; [apply emits_os_write; exact I|]. intros _.
    eapply emits_weaken; [|apply IH]. intros e. apply copy_event_mono.
    pose proof (len_nonneg (c :: chunk)). lia.
Qed.

Lemma extract_copy_loop_bounded (in_fd out_fd fuel : nat) :
  forall remaining,
  emits (copy_event remaining) (extract_copy_loop fuel in_fd out_fd remaining).
Proof.
  induction fuel as [|fuel IH]; intros remaining; cbn [extract_copy_loop];
    destruct (Z.gtb_spec remaining 0); try apply emits_ret;
    [apply (emits_fail _ OutOfFuel)|].
  apply emits_bind.
  { apply emits_os_read. intros got Hgot. cbn. unfold BUF_SIZE in *. lia. }
  intros [|c chunk].
  - apply emits_bind; [apply emits_os_close; exact I|]. intros _.
    apply emits_die. intros b. exact I.
  - apply emits_bind; [apply emits_os_write; exact I|]. intros _.
    eapply emits_weaken; [|apply IH]. intros e. apply copy_event_mono.
    pose proof (len_nonneg (c :: chunk)). lia.
Qed.

Lemma read_exact_not_create (fd : nat) (n : Z) : emits not_create (read_exact fd n).
Proof.
  intros w. unfold read_exact. generalize (S (avail fd w)) as fuel.
  generalize (@nil bytes) as chunks. revert n w.
  enough (H : forall fuel chunks n, emits not_create (read_exact_loop fuel fd chunks n))
    by (intros; apply H).
  induction fuel as [|fuel IH]; intros chunks n; cbn [read_exact_loop];
    destruct (n >? 0); try apply emits_ret; [apply (emits_fail _ OutOfFuel)|].
  apply emits_bind; [apply emits_os_read; intros; exact I|].
  intros [|c chunk]; [apply emits_ret|apply IH].
Qed.

Lemma created_app (t t' : list event) : created (t ++ t') = created t ++ created t'.
Proof. unfold created. apply flat_map_app. Qed.

Lemma created_not_create (evs : list event) : Forall not_create evs -> created evs = [].
Proof.
  induction 1 as [|e evs He _ IH]; [reflexivity|].
  cbn [created flat_map]. fold (created evs). rewrite IH.
  destruct e; try reflexivity. destruct He.
Qed.

Lemma emits_created {A} (m : M A) (w : world) :
  emits not_create m -> created (trace (snd (m w))) = created (trace w).
Proof.
  intros Hm. destruct (Hm w) as (evs & -> & Hok).
  rewrite created_app, (created_not_create _ Hok), app_nil_r. reflexivity.
Qed.

(** ** One record of the decoder *)

Lemma read_exact_stdin (n : Z) (w : world) (front rest : bytes) :
  stdin w = front ++ rest -> len front = n ->
  exists w',
    read_exact 0 n w = (Ret front, w') /\
    erase w' = erase (set_stdin rest w) /\
    created (trace w') = created (trace w).
Proof.
  intros Hin Hn.
  destruct (read_exact_spec 0 n w (stdin w) eq_refl) as (w' & Hrd & He).
  exists w'. unfold len in Hn. subst n. rewrite Nat2Z.id in *.
  rewrite Hin, take_app_length in Hrd. rewrite Hin, drop_app_length in He.
  repeat split; [exact Hrd|exact He|].
  pose proof (emits_created _ w (read_exact_not_create 0 (Z.of_nat (length front)))) as Hc.
  rewrite Hrd in Hc. exact Hc.
Qed.

Lemma extract_loop_header (fuel : nat) (w : world) (raw_len name_bytes raw_size rest : bytes)
    (name : str) :
  stdin w = raw_len ++ name_bytes ++ raw_size ++ rest ->
  length raw_len = 4%nat -> int_from_bytes raw_len = len name_bytes ->
  0 < len name_bytes -> utf8_decode name_bytes = Some name ->
  length raw_size = 8%nat -> creatable w name = true ->
  exists w4,
    extract_loop (S fuel) 0 w =
      bind (extract_copy_loop (S (length rest)) 0 (next_fd w) (int_from_bytes raw_size))
        (fun _ => bind (os_close (next_fd w)) (fun _ => extract_loop fuel 0)) w4 /\
    erase w4 = erase (set_next_fd (S (next_fd w))
                        (set_fds (<[next_fd w := WrH name]> (fds w))
                           (set_stdin rest (set_disk (<[name := []]> (disk w)) w)))) /\
    created (trace w4) = created (trace w) ++ [name].
Proof.
  intros Hin Hl4 Hnl Hpos Hname Hl8 Hcr.
  destruct (read_exact_stdin 4 w raw_len _ Hin ltac:(unfold len; lia)) as (w1 & Hr1 & He1 & Hc1).
  assert (Hin1 : stdin w1 = name_bytes ++ raw_size ++ rest) by (erase_split He1; exact Hstdin).
  destruct (read_exact_stdin (len name_bytes) w1 name_bytes _ Hin1 eq_refl)
    as (w2 & Hr2 & He2 & Hc2).
  assert (Hin2 : stdin w2 = raw_size ++ rest) by (erase_split He2; exact Hstdin).
  destruct (read_exact_stdin 8 w2 raw_size _ Hin2 ltac:(unfold len; lia)) as (w3 & Hr3 & He3 & Hc3).
  assert (He : erase w3 = erase (set_stdin rest w)).
  { erase_split He1. erase_split He2. erase_split He3. erase_fields. }
  clear He1 He2 He3 Hin1 Hin2. erase_split He.
  assert (Hopen : os_open_create name w3 =
            (Ret (next_fd w),
             log (EvCreate name (next_fd w))
               (set_next_fd (S (next_fd w))
                  (set_fds (<[next_fd w := WrH name]> (fds w3))
                     (set_disk (<[name := []]> (disk w3)) w3)))))
    by (unfold os_open_create; rewrite Hcreatable, Hcr, Hnext; reflexivity).
  eexists. split; [|split].
  - cbn [extract_loop].
    rewrite (bind_Ret _ _ _ _ _ Hr1).
    replace (len raw_len) with 4 by (unfold len; lia). cbn [Z.eqb Z.ltb Z.compare Pos.compare Pos.compare_cont].
    rewrite Hnl. destruct (Z.leb_spec (len name_bytes) 0); [lia|].
    rewrite (bind_Ret _ _ _ _ _ Hr2), Z.ltb_irrefl, Hname.
    rewrite (bind_Ret _ _ _ _ _ Hr3).
    replace (len raw_size) with 8 by (unfold len; lia). cbn [Z.ltb Z.compare Pos.compare Pos.compare_cont].
    pose proof (int_from_bytes_range raw_size) as Hsz.
    destruct (Z.ltb_spec (int_from_bytes raw_size) 0); [lia|].
    rewrite (bind_Ret _ _ _ _ _ (except_Ret _ _ _ _ _ Hopen)).
    unfold bind at 1. unfold avail. cbn [pending_of decide]. 
    change (pending_of 0 ?w) with (Some (stdin w)). cbv beta iota.
    cbn [stdin log set_next_fd set_fds set_disk]. rewrite Hstdin. reflexivity.
  - erase_fields.
  - cbn [trace log set_next_fd set_fds set_disk]. rewrite created_app. cbn [created flat_map app].
    congruence.
Qed.

Lemma extract_loop_record (fuel : nat) (w : world)
    (raw_len name_bytes raw_size data rest : bytes) (name : str) :
  fd_wf w ->
  stdin w = raw_len ++ name_bytes ++ raw_size ++ data ++ rest ->
  length raw_len = 4%nat -> int_from_bytes raw_len = len name_bytes ->
  0 < len name_bytes -> utf8_decode name_bytes = Some name ->
  length raw_size = 8%nat -> int_from_bytes raw_size = len data ->
  creatable w name = true ->
  exists w',
    extract_loop (S fuel) 0 w = extract_loop fuel 0 w' /\
    erase w' = erase (set_next_fd (S (next_fd w))
                        (set_stdin rest (set_disk (<[name := data]> (disk w)) w))) /\
    created (trace w') = created (trace w) ++ [name].
Proof.
  intros [H3 Hfree] Hin Hl4 Hnl Hpos Hname Hl8 Hsz Hcr.
  destruct (extract_loop_header fuel w raw_len name_bytes raw_size (data ++ rest) name
              Hin Hl4 Hnl Hpos Hname Hl8 Hcr) as (w4 & Hrun & He4 & Hc4).
  rewrite Hrun, Hsz. clear Hrun. erase_split He4.
  destruct (extract_copy_loop_spec (next_fd w) name (S (length (data ++ rest))) (len data) w4 [])
    as [Hok _].
  { exact H3. } { rewrite Hfds. apply lookup_insert_eq. }
  { rewrite Hdisk. apply lookup_insert_eq. } { rewrite Hstdin. lia. }
  destruct Hok as (w5 & Hloop & He5).
  { rewrite Hstdin, len_app. pose proof (len_nonneg rest). lia. }
  unfold len in He5. rewrite Nat2Z.id, Hstdin, take_app_length, drop_app_length in He5.
  pose proof (emits_created _ w4 (emits_weaken _ not_create _ (copy_event_not_create (len data))
                (extract_copy_loop_bounded 0 (next_fd w) (S (length (data ++ rest))) (len data))))
    as Hc5.
  rewrite Hloop in Hc5. cbn [snd] in Hc5.
  rewrite (bind_Ret _ _ _ _ _ Hloop). erase_split He5.
  assert (Hh5 : fds w5 !! next_fd w = Some (WrH name))
    by (rewrite Hfds0, Hfds; apply lookup_insert_eq).
  rewrite (bind_Ret _ _ _ _ _ (os_close_spec _ _ w5 Hh5)).
  eexists. split; [reflexivity|]. split.
  - erase_fields.
    + rewrite Hdisk0, Hdisk, insert_insert_eq. reflexivity.
    + rewrite Hfds0, Hfds, delete_insert_eq. apply delete_id, Hfree. lia.
  - cbn [trace log set_fds]. rewrite created_app. cbn [created flat_map].
    rewrite app_nil_r. congruence.
Qed.

Lemma read_exact_stdin_short (n : Z) (w : world) :
  len (stdin w) <= n ->
  exists w',
    read_exact 0 n w = (Ret (stdin w), w') /\
    erase w' = erase (set_stdin [] w) /\
    created (trace w') = created (trace w).
Proof.
  intros Hn.
  destruct (read_exact_spec 0 n w (stdin w) eq_refl) as (w' & Hrd & He).
  exists w'. unfold len in Hn.
  rewrite take_ge in Hrd by lia. rewrite drop_ge in He by lia.
  repeat split; [exact Hrd|exact He|].
  pose proof (emits_created _ w (read_exact_not_create 0 n)) as Hc.
  rewrite Hrd in Hc. exact Hc.
Qed.

Lemma extract_loop_eof (fuel : nat) (w : world) :
  stdin w = [] ->
  exists w', extract_loop (S fuel) 0 w = (Ret tt, w') /\ erase w' = erase w /\
             created (trace w') = created (trace w).
Proof.
  intros Hin.
  destruct (read_exact_stdin_short 4 w) as (w1 & Hrd & He & Hc).
  { rewrite Hin. unfold len. simpl. lia. }
  exists w1. cbn [extract_loop]. rewrite (bind_Ret _ _ _ _ _ Hrd), Hin.
  split; [reflexivity|]. split; [|exact Hc].
  rewrite He. erase_fields.
Qed.

(** The decoder on a stream that starts with the records of [files]. *)
Lemma extract_loop_prefix (files : list (str * bytes)) :
  forall (fuel : nat) (w : world) (rest : bytes),
  fd_wf w ->
  Forall (fun f => archivable f /\ creatable w f.1 = true) files ->
  stdin w = archive_of files ++ rest ->
  exists w',
    extract_loop (length files + fuel) 0 w = extract_loop fuel 0 w' /\
    erase w' = erase (set_next_fd (next_fd w + length files)
                        (set_stdin rest
                           (set_disk (foldl (fun d f => <[f.1 := f.2]> d) (disk w) files) w))) /\
    created (trace w') = created (trace w) ++ map fst files.
Proof.
  induction files as [|[name data] files IH]; intros fuel w rest Hwf Hfiles Hin.
  - exists w. split; [reflexivity|]. split.
    + cbn [length foldl]. rewrite Nat.add_0_r. erase_fields. exact Hin.
    + cbn [map]. rewrite app_nil_r. reflexivity.
  - apply Forall_cons in Hfiles as [[(Hne & (nb & Hnb & Hnb32) & Hsz) Hcr] Hfiles].
    cbn [fst snd] in *. cbn [archive_of] in Hin. rewrite Hnb in Hin.
    change (default [] (Some nb)) with nb in Hin.
    unfold record_bytes in Hin. rewrite <- !app_assoc in Hin.
    pose proof (len_nonneg nb). pose proof (len_nonneg data).
    cbn [length Nat.add].
    destruct (extract_loop_record (length files + fuel) w (be_digits 4 (len nb)) nb
                (be_digits 8 (len data)) data (archive_of files ++ rest) name Hwf Hin)
      as (w1 & Hrun & He & Hc).
    { apply be_digits_length. }
    { apply int_from_be_digits. change (256 ^ Z.of_nat 4) with (2 ^ 32). lia. }
    { apply utf8_encode_nonempty with name; assumption. }
    { apply utf8_roundtrip, Hnb. }
    { apply be_digits_length. }
    { apply int_from_be_digits. change (256 ^ Z.of_nat 8) with (2 ^ 64). lia. }
    { exact Hcr. }
    rewrite Hrun.
    pose proof (fd_wf_erase _ _ (eq_sym He)) as Hwf1.
    erase_split He.
    destruct (IH fuel w1 rest) as (w' & Hrun' & He' & Hc').
    { apply Hwf1. destruct Hwf as [H3 Hfree]. split; cbn; [lia|]. intros k Hk. apply Hfree. lia. }
    { eapply Forall_impl; [exact Hfiles|]. intros f [? ?]. rewrite Hcreatable. auto. }
    { exact Hstdin. }
    exists w'. split; [exact Hrun'|]. split.
    + rewrite He'. erase_fields.
      * cbn [foldl fst snd]. congruence.
      * rewrite Hnext. lia.
    + rewrite Hc', Hc, <- app_assoc. reflexivity.
Qed.

Lemma archive_of_length (files : list (str * bytes)) :
  (length files <= length (archive_of files))%nat.
Proof.
  induction files as [|[name data] files IH]; cbn [archive_of length]; [lia|].
  unfold record_bytes. rewrite !length_app, be_digits_length. lia.
Qed.

(** The fuel [extract_archive] starts with covers the records of the stream
    and the last, empty read. *)
Lemma extract_archive_fuel (files : list (str * bytes)) (rest : bytes) (w : world) :
  stdin w = archive_of files ++ rest ->
  exists fuel, S (length (stdin w)) = (length files + S fuel)%nat.
Proof.
  intros ->. rewrite length_app. pose proof (archive_of_length files).
  exists (length (archive_of files) + length rest - length files)%nat. lia.
Qed.

(** ** The encoder on a list of files *)

Lemma create_archive_files (files : list (str * bytes)) :
  forall w : world,
  fd_wf w ->
  Forall (fun f => archivable f /\
                   readable w !! f.1 = Some (RFile (Some (len f.2)) f.2)) files ->
  exists w',
    create_archive (map fst files) w = (Ret tt, w') /\
    erase w' = erase (set_next_fd (next_fd w + length files)
                        (set_stdout (stdout w ++ archive_of files) w)).
Proof.
  induction files as [|[name data] files IH]; intros w Hwf Hfiles.
  - exists w. split; [reflexivity|]. cbn [length archive_of].
    rewrite Nat.add_0_r, app_nil_r. erase_fields.
  - apply Forall_cons in Hfiles as [[(Hne & (nb & Hnb & Hnb32) & Hsz) Hfile] Hfiles].
    cbn [fst snd] in *. pose proof (len_nonneg data).
    destruct (create_archive_body_spec name (len data) data nb w Hwf Hfile Hnb Hnb32
                ltac:(lia)) as [Hok _].
    destruct (Hok ltac:(lia)) as (w1 & Hrun & He).
    unfold len in He. rewrite Nat2Z.id, take_ge in He by lia. fold (len data) in He.
    pose proof (fd_wf_erase _ _ (eq_sym He) (fd_wf_next _ (proj1 (conj Hwf I)))) as Hwf1.
    assert (Hwf1' : fd_wf w1).
    { apply Hwf1. }
    clear Hwf1. erase_split He.
    destruct (IH w1 Hwf1') as (w' & Hrun' & He').
    { eapply Forall_impl; [exact Hfiles|]. intros f [? ?]. rewrite Hreadable. auto. }
    exists w'. cbn [map create_archive fst].
    rewrite (bind_Ret _ _ _ _ _ Hrun). split; [exact Hrun'|].
    rewrite He'. erase_fields.
    + rewrite Hstdout, <- app_assoc. cbn [archive_of]. rewrite Hnb. reflexivity.
    + rewrite Hnext. cbn [length]. lia.
Qed.

Lemma foldl_insert_snoc (d : gmap str bytes) (files : list (str * bytes)) (g : str * bytes) :
  foldl (fun d f => <[f.1 := f.2]> d) d (files ++ [g])
  = <[g.1 := g.2]> (foldl (fun d f => <[f.1 := f.2]> d) d files).
Proof. rewrite foldl_app. reflexivity. Qed.

Lemma foldl_insert_lookup (d : gmap str bytes) (files : list (str * bytes)) (f : str * bytes) :
  f ∈ files ->
  (forall g, g ∈ files -> g.1 = f.1 -> g.2 = f.2) ->
  foldl (fun d f => <[f.1 := f.2]> d) d files !! f.1 = Some f.2.
Proof.
  induction files as [|g files IH] using rev_ind; intros Hin Hsame.
  - inversion Hin.
  - rewrite foldl_insert_snoc. destruct (decide (g.1 = f.1)) as [Heq|Hne].
    + rewrite Heq, lookup_insert_eq. f_equal. apply Hsame; [|exact Heq].
      apply elem_of_app. right. apply list_elem_of_singleton. reflexivity.
    + rewrite lookup_insert_ne by exact Hne. apply IH.
      * apply elem_of_app in Hin as [Hin|Hin]; [exact Hin|].
        apply list_elem_of_singleton in Hin. congruence.
      * intros g' Hg'. apply Hsame. apply elem_of_app. left. exact Hg'.
Qed.

(** ** Streams that are cut short or malformed *)

Lemma extract_loop_short (fuel : nat) (w : world) :
  0 < len (stdin w) < 4 ->
  exists b w',
    diagnostic (lit "corrupted archive (incomplete filename length)") = Some b /\
    extract_loop (S fuel) 0 w = (SysExit 1, w') /\
    erase w' = erase (set_stderr (stderr w ++ b) (set_stdin [] w)) /\
    created (trace w') = created (trace w).
Proof.
  intros Hlen.
  destruct (read_exact_stdin_short 4 w ltac:(lia)) as (w1 & Hrd & He & Hc).
  destruct (diagnostic_lit "corrupted archive (incomplete filename length)") as [b Hb].
  exists b. eexists. split; [exact Hb|].
  cbn [extract_loop]. rewrite (bind_Ret _ _ _ _ _ Hrd).
  destruct (Z.eqb_spec (len (stdin w)) 0); [lia|].
  destruct (Z.ltb_spec (len (stdin w)) 4); [|lia].
  rewrite (die_spec _ _ _ Hb). split; [reflexivity|]. erase_split He. split.
  - erase_fields.
  - cbn [trace log set_stderr]. rewrite created_app. cbn [created flat_map].
    rewrite app_nil_r. exact Hc.
Qed.

Lemma extract_loop_zero_name (fuel : nat) (w : world) (raw_len rest : bytes) :
  stdin w = raw_len ++ rest -> length raw_len = 4%nat -> int_from_bytes raw_len = 0 ->
  exists b w',
    diagnostic (lit "corrupted archive (invalid filename length)") = Some b /\
    extract_loop (S fuel) 0 w = (SysExit 1, w') /\
    erase w' = erase (set_stderr (stderr w ++ b) (set_stdin rest w)) /\
    created (trace w') = created (trace w).
Proof.
  intros Hin Hl4 Hzero.
  destruct (read_exact_stdin 4 w raw_len rest Hin ltac:(unfold len; lia)) as (w1 & Hrd & He & Hc).
  destruct (diagnostic_lit "corrupted archive (invalid filename length)") as [b Hb].
  exists b. eexists. split; [exact Hb|].
  cbn [extract_loop]. rewrite (bind_Ret _ _ _ _ _ Hrd).
  replace (len raw_len) with 4 by (unfold len; lia).
  cbn [Z.eqb Z.ltb Z.compare Pos.compare Pos.compare_cont]. rewrite Hzero.
  cbn [Z.leb Z.compare]. rewrite (die_spec _ _ _ Hb). split; [reflexivity|].
  erase_split He. split.
  - erase_fields.
  - cbn [trace log set_stderr]. rewrite created_app. cbn [created flat_map].
    rewrite app_nil_r. exact Hc.
Qed.

Lemma extract_loop_truncated (fuel : nat) (w : world)
    (raw_len name_bytes raw_size data : bytes) (name : str) :
  fd_wf w ->
  stdin w = raw_len ++ name_bytes ++ raw_size ++ data ->
  length raw_len = 4%nat -> int_from_bytes raw_len = len name_bytes ->
  0 < len name_bytes -> utf8_decode name_bytes = Some name ->
  length raw_size = 8%nat -> len data < int_from_bytes raw_size ->
  creatable w name = true ->
  exists b w',
    diagnostic (lit "corrupted archive (unexpected EOF in file data)") = Some b /\
    extract_loop (S fuel) 0 w = (SysExit 1, w') /\
    erase w' = erase (set_next_fd (S (next_fd w))
                        (set_stderr (stderr w ++ b)
                           (set_stdin [] (set_disk (<[name := data]> (disk w)) w)))) /\
    created (trace w') = created (trace w) ++ [name].
Proof.
  intros [H3 Hfree] Hin Hl4 Hnl Hpos Hname Hl8 Hsz Hcr.
  destruct (extract_loop_header fuel w raw_len name_bytes raw_size data name
              Hin Hl4 Hnl Hpos Hname Hl8 Hcr) as (w4 & Hrun & He4 & Hc4).
  rewrite Hrun. clear Hrun.
  destruct (diagnostic_lit "corrupted archive (unexpected EOF in file data)") as [b Hb].
  erase_split He4.
  destruct (extract_copy_loop_spec (next_fd w) name (S (length data))
              (int_from_bytes raw_size) w4 []) as [_ Heof].
  { exact H3. } { rewrite Hfds. apply lookup_insert_eq. }
  { rewrite Hdisk. apply lookup_insert_eq. } { rewrite Hstdin. lia. }
  destruct (Heof ltac:(rewrite Hstdin; exact Hsz) b Hb) as (w5 & evs & Hloop & He5 & Ht5).
  pose proof (emits_created _ w4 (emits_weaken _ not_create _
                (copy_event_not_create (int_from_bytes raw_size))
                (extract_copy_loop_bounded 0 (next_fd w) (S (length data))
                   (int_from_bytes raw_size)))) as Hc5.
  rewrite Hloop in Hc5. cbn [snd] in Hc5.
  exists b, w5. split; [exact Hb|]. rewrite (bind_SysExit _ _ _ _ _ Hloop).
  split; [reflexivity|]. erase_split He5. split.
  - erase_fields.
    + rewrite Hdisk0, Hdisk, Hstdin, insert_insert_eq. reflexivity.
    + rewrite Hfds0, Hfds, delete_insert_eq. apply delete_id, Hfree. lia.
  - congruence.
Qed.

(** ** Files and records without content *)

Lemma create_copy_loop_zero (fuel : nat) (name : str) (fd : nat) :
  create_copy_loop fuel name fd 0 = ret tt.
Proof. destruct fuel; reflexivity. Qed.

Lemma extract_copy_loop_zero (fuel in_fd out_fd : nat) :
  extract_copy_loop fuel in_fd out_fd 0 = ret tt.
Proof. destruct fuel; reflexivity. Qed.

Lemma extract_archive_files (files : list (str * bytes)) (w : world) :
  fd_wf w ->
  Forall (fun f => archivable f /\ creatable w f.1 = true) files ->
  stdin w = archive_of files ->
  exists w',
    extract_archive w = (Ret tt, w') /\
    created (trace w') = created (trace w) ++ map fst files /\
    disk w' = foldl (fun d f => <[f.1 := f.2]> d) (disk w) files.
Proof.
  intros Hwf Hfiles Hin.
  assert (Hin' : stdin w = archive_of files ++ []) by (rewrite app_nil_r; exact Hin).
  destruct (extract_archive_fuel files [] w Hin') as [fuel Hfuel].
  destruct (extract_loop_prefix files (S fuel) w [] Hwf Hfiles Hin') as (w1 & Hrun & He1 & Hc1).
  erase_split He1.
  destruct (extract_loop_eof fuel w1 Hstdin) as (w' & Hrun' & He' & Hc').
  exists w'. unfold extract_archive. rewrite Hfuel, Hrun. erase_split He'.
  repeat split; congruence.
Qed.

(** ** Termination, and what a successful decoding says of the stream *)

Lemma die_outcome {A} (msg : str) (w : world) :
  exists w', @die A msg w = (SysExit 1, w') \/ @die A msg w = (Raised UnicodeEncodeError, w').
Proof.
  unfold die, bind. destruct (diagnostic msg) as [b|]; cbn [or_raise ret raise]; eauto.
Qed.

Lemma take_length_eq {A} (n : nat) (l : list A) :
  length (take n l) = n -> l = take n l ++ drop n l /\ (n <= length l)%nat.
Proof. rewrite length_take. intros H. rewrite take_drop. split; [reflexivity|lia]. Qed.

Lemma extract_loop_sound (fuel : nat) :
  forall w : world,
  fd_wf w -> (length (stdin w) < fuel)%nat ->
  exists o w',
    extract_loop fuel 0 w = (o, w') /\
    o <> OutOfFuel /\
    (o = Ret tt -> complete_records (stdin w)).
Proof.
  induction fuel as [|fuel IH]; intros w Hwf Hfuel; [lia|].
  cbn [extract_loop].
  (* a branch that ends in [die] *)
  assert (Hdie : forall msg w0, exists o w',
             @die unit msg w0 = (o, w') /\ o <> OutOfFuel /\
             (o = Ret tt -> complete_records (stdin w))).
  { intros msg w0. destruct (@die_outcome unit msg w0) as [w' [-> | ->]];
      eexists _, w'; (split; [reflexivity|split; discriminate]). }
  destruct (read_exact_spec 0 4 w (stdin w) eq_refl) as (w1 & Hr1 & He1).
  rewrite (bind_Ret _ _ _ _ _ Hr1). change (Z.to_nat 4) with 4%nat in *.
  set (p := stdin w) in *. set (raw_len := take 4 p) in *.
  change (set_pending 0 (drop 4 p) w) with (set_stdin (drop 4 p) w) in He1.
  destruct (Z.eqb_spec (len raw_len) 0) as [H0|H0].
  { exists (Ret tt), w1. split; [reflexivity|]. split; [discriminate|]. intros _.
    unfold len, raw_len in H0. rewrite length_take in H0.
    destruct p; [constructor|simpl in H0; lia]. }
  destruct (Z.ltb_spec (len raw_len) 4) as [H4|H4]; [apply Hdie|].
  assert (Hl4 : length raw_len = 4%nat).
  { unfold len, raw_len in *. rewrite length_take in *. lia. }
  destruct (take_length_eq 4 p Hl4) as [Hp Hp4]. fold raw_len in Hp.
  destruct (Z.leb_spec (int_from_bytes raw_len) 0) as [Hn0|Hn0]; [apply Hdie|].
  set (name_len := int_from_bytes raw_len) in *.
  assert (Hin1 : stdin w1 = drop 4 p) by (erase_split He1; exact Hstdin).
  destruct (read_exact_spec 0 name_len w1 (stdin w1) eq_refl) as (w2 & Hr2 & He2).
  rewrite (bind_Ret _ _ _ _ _ Hr2). rewrite Hin1 in *.
  set (name_bytes := take (Z.to_nat name_len) (drop 4 p)) in *.
  change (set_pending 0 ?q w1) with (set_stdin q w1) in He2.
  destruct (Z.ltb_spec (len name_bytes) name_len) as [Hnb|Hnb]; [apply Hdie|].
  assert (Hlnb : length name_bytes = Z.to_nat name_len).
  { unfold len, name_bytes in *. rewrite length_take in *. lia. }
  destruct (take_length_eq _ _ Hlnb) as [Hp1 Hp1len]. fold name_bytes in Hp1.
  destruct (utf8_decode name_bytes) as [name|] eqn:Hname; [|apply Hdie].
  assert (Hin2 : stdin w2 = drop (Z.to_nat name_len) (drop 4 p))
    by (erase_split He2; exact Hstdin).
  destruct (read_exact_spec 0 8 w2 (stdin w2) eq_refl) as (w3 & Hr3 & He3).
  rewrite (bind_Ret _ _ _ _ _ Hr3). rewrite Hin2 in *. change (Z.to_nat 8) with 8%nat in *.
  set (p2 := drop (Z.to_nat name_len) (drop 4 p)) in *.
  set (raw_size := take 8 p2) in *.
  change (set_pending 0 ?q w2) with (set_stdin q w2) in He3.
  destruct (Z.ltb_spec (len raw_size) 8) as [H8|H8]; [apply Hdie|].
  assert (Hl8 : length raw_size = 8%nat).
  { unfold len, raw_size in *. rewrite length_take in *. lia. }
  destruct (take_length_eq 8 p2 Hl8) as [Hp2 Hp2len]. fold raw_size in Hp2.
  destruct (Z.ltb_spec (int_from_bytes raw_size) 0) as [Hsz|Hsz]; [apply Hdie|].
  set (size := int_from_bytes raw_size) in *.
  assert (He : erase w3 = erase (set_stdin (drop 8 p2) w)).
  { erase_split He1. erase_split He2. erase_split He3. erase_fields. }
  clear He1 He2 He3 Hin1 Hin2. 
  assert (Hstream : p = raw_len ++ name_bytes ++ raw_size ++ drop 8 p2).
  { rewrite Hp at 1. f_equal. rewrite Hp1 at 1. f_equal. exact Hp2. }
  clearbody raw_len name_bytes raw_size. clear Hp Hp1 Hp2.
  set (rest := drop 8 p2) in *. clearbody rest. clear p2 Hp1len Hp2len.
  erase_split He. destruct Hwf as [H3 Hfree].
  destruct (creatable w3 name) eqn:Hcr.
  2:{ pose proof (os_open_create_fails name w3 Hcr) as Hopen.
      destruct (has_nul name).
      { rewrite (bind_Raised _ _ _ _ _ (except_ValueError _ _ _ _ Hopen)).
        eexists _, w3. split; [reflexivity|split; discriminate]. }
      unfold bind at 1. rewrite (except_OSError_caught _ _ _ _ Hopen).
      destruct (@die_outcome nat (lit "cannot create output file '" ++ name ++ lit "'") w3)
        as [w' [-> | ->]]; eexists _, w'; (split; [reflexivity|split; discriminate]). }
  set (fd := next_fd w) in *.
  set (w4 := log (EvCreate name fd)
               (set_next_fd (S fd) (set_fds (<[fd := WrH name]> (fds w3))
                  (set_disk (<[name := []]> (disk w3)) w3)))).
  assert (Hopen : os_open_create name w3 = (Ret fd, w4))
    by (unfold os_open_create; rewrite Hcr, Hnext; reflexivity).
  rewrite (bind_Ret _ _ _ _ _ (except_Ret _ _ _ _ _ Hopen)).
  assert (He4 : erase w4 = erase (set_next_fd (S fd) (set_fds (<[fd := WrH name]> (fds w))
                   (set_stdin rest (set_disk (<[name := []]> (disk w)) w)))))
    by (subst w4; erase_fields).
  clearbody w4. clear Hreadable Hcreatable Hdisk Hstdin Hstdout Hstderr Hfds Hnext.
  erase_split He4.
  assert (Hav : avail 0 w4 = length rest)
    by (unfold avail; change (pending_of 0 w4) with (Some (stdin w4)); rewrite Hstdin; reflexivity).
  unfold bind at 1. rewrite Hav.
  destruct (extract_copy_loop_spec fd name (S (length rest)) size w4 [])
    as [Hok Heof].
  { exact H3. } { rewrite Hfds. apply lookup_insert_eq. }
  { rewrite Hdisk. apply lookup_insert_eq. } { rewrite Hstdin. lia. }
  rewrite Hstdin in Hok, Heof.
  destruct (Z.le_gt_cases size (len rest)) as [Hle|Hgt].
  2:{ destruct (diagnostic_lit "corrupted archive (unexpected EOF in file data)") as [b Hb].
      destruct (Heof ltac:(lia) b Hb) as (w5 & evs & Hloop & _).
      rewrite Hloop. exists (SysExit 1), w5. split; [reflexivity|split; discriminate]. }
  destruct (Hok Hle) as (w5 & Hloop & He5). rewrite Hloop. clear Hok Heof.
  assert (He5' : erase w5 = erase (set_next_fd (S fd) (set_fds (<[fd := WrH name]> (fds w))
                    (set_stdin (drop (Z.to_nat size) rest)
                       (set_disk (<[name := take (Z.to_nat size) rest]> (disk w)) w))))).
  { rewrite He5. erase_fields. cbn [app]. rewrite Hdisk, insert_insert_eq. reflexivity. }
  clear He5 Hloop Hopen Hav.
  clear Hreadable Hcreatable Hdisk Hstdin Hstdout Hstderr Hfds Hnext.
  erase_split He5'.
  assert (Hh5 : fds w5 !! fd = Some (WrH name)) by (rewrite Hfds; apply lookup_insert_eq).
  rewrite (bind_Ret _ _ _ _ _ (os_close_spec _ _ w5 Hh5)).
  set (w6 := log (EvClose fd) (set_fds (delete fd (fds w5)) w5)).
  destruct (IH w6) as (o & w' & Hrun & Hoof & Hret).
  { split; cbn [w6 next_fd fds log set_fds]; rewrite ?Hnext, ?Hfds; [lia|].
    intros k Hk. rewrite delete_insert_eq, lookup_delete_ne by lia. apply Hfree. lia. }
  { cbn [w6 stdin log set_fds]. rewrite Hstdin, length_drop.
    fold p in Hfuel. rewrite Hstream, !length_app, Hl4 in Hfuel. lia. }
  exists o, w'. split; [exact Hrun|]. split; [exact Hoof|].
  intros Ho. specialize (Hret Ho). cbn [w6 stdin log set_fds] in Hret. rewrite Hstdin in Hret.
  rewrite Hstream, <- (take_drop (Z.to_nat size) rest).
  subst name_len size. apply records_cons; try assumption.
  - unfold len. lia.
  - unfold len. lia.
  - eauto.
  - unfold len in *. rewrite length_take. lia.
Qed.

Lemma create_archive_body_total (name : str) (w : world) :
  fd_wf w ->
  exists o w',
    create_archive_body name w = (o, w') /\ o <> OutOfFuel /\ (o = Ret tt -> fd_wf w').
Proof.
  intros Hwf. pose proof Hwf as [H3 Hfree].
  assert (Hstop : forall (o : outcome unit) w', 
            match o with SysExit _ | Raised _ => True | _ => False end ->
            o <> OutOfFuel /\ (o = Ret tt -> fd_wf w')).
  { intros [] w' Ho; try destruct Ho; split; discriminate. }
  destruct (readable w !! name) as [[st data]|] eqn:Hfile.
  2:{ unfold create_archive_body.
      assert (Hopen : os_open_rdonly name w = (Raised OSError, w))
        by (unfold os_open_rdonly; rewrite Hfile; reflexivity).
      unfold bind at 1. rewrite (except_OSError_caught _ _ _ _ Hopen).
      destruct (@die_outcome nat (lit "cannot open file '" ++ name ++ lit "'") w)
        as [w' [-> | ->]]; eexists _, w'; (split; [reflexivity|apply Hstop; exact I]). }
  set (fd := next_fd w).
  set (w1 := log (EvOpen name fd)
               (set_next_fd (S fd) (set_fds (<[fd := RdH data st]> (fds w)) w))).
  assert (Hopen : os_open_rdonly name w = (Ret fd, w1))
    by (unfold os_open_rdonly; rewrite Hfile; reflexivity).
  assert (Hh1 : fds w1 !! fd = Some (RdH data st)) by apply lookup_insert_eq.
  destruct st as [size|].
  2:{ unfold create_archive_body.
      rewrite (bind_Ret _ _ _ _ _ (except_Ret _ _ _ _ _ Hopen)).
      assert (Hstat : os_fstat_size fd w1 = (Raised OSError, w1))
        by (unfold os_fstat_size; rewrite Hh1; reflexivity).
      unfold bind at 1. rewrite (except_OSError_caught _ _ _ _ Hstat).
      rewrite (bind_Ret _ _ _ _ _ (os_close_spec _ _ w1 Hh1)).
      match goal with |- context [@die ?A ?m ?w0] =>
        destruct (@die_outcome A m w0) as [w' [-> | ->]] end;
        eexists _, w'; (split; [reflexivity|apply Hstop; exact I]). }
  assert (Hstat : os_fstat_size fd w1 = (Ret size, w1))
    by (unfold os_fstat_size; rewrite Hh1; reflexivity).
  destruct (utf8_encode name) as [nb|] eqn:Hname.
  2:{ unfold create_archive_body.
      rewrite (bind_Ret _ _ _ _ _ (except_Ret _ _ _ _ _ Hopen)).
      rewrite (bind_Ret _ _ _ _ _ (except_Ret _ _ _ _ _ Hstat)).
      rewrite Hname. eexists _, _. split; [reflexivity|apply Hstop; exact I]. }
  destruct (int_to_bytes (len nb) 4) as [raw_len|] eqn:Hraw_len.
  2:{ unfold create_archive_body.
      rewrite (bind_Ret _ _ _ _ _ (except_Ret _ _ _ _ _ Hopen)).
      rewrite (bind_Ret _ _ _ _ _ (except_Ret _ _ _ _ _ Hstat)).
      rewrite Hname. cbn [or_raise]. rewrite bind_ret, Hraw_len.
      eexists _, _. split; [reflexivity|apply Hstop; exact I]. }
  destruct (int_to_bytes size 8) as [raw_size|] eqn:Hraw_size.
  2:{ unfold create_archive_body.
      rewrite (bind_Ret _ _ _ _ _ (except_Ret _ _ _ _ _ Hopen)).
      rewrite (bind_Ret _ _ _ _ _ (except_Ret _ _ _ _ _ Hstat)).
      rewrite Hname. cbn [or_raise]. rewrite bind_ret, Hraw_len.
      cbn [or_raise]. rewrite bind_ret.
      rewrite (bind_Ret _ _ _ _ _ (os_write_stdout _ _)).
      rewrite (bind_Ret _ _ _ _ _ (os_write_stdout _ _)).
      rewrite Hraw_size.
      eexists _, _. split; [reflexivity|apply Hstop; exact I]. }
  apply int_to_bytes_inv in Hraw_len as (_ & _ & Hnb).
  apply int_to_bytes_inv in Hraw_size as (_ & _ & Hsize).
  change (256 ^ Z.of_nat 4) with (2 ^ 32) in Hnb. change (256 ^ Z.of_nat 8) with (2 ^ 64) in Hsize.
  destruct (create_archive_body_spec name size data nb w Hwf Hfile Hname ltac:(lia) Hsize)
    as [Hok Heof].
  destruct (Z.le_gt_cases size (len data)) as [Hle|Hgt].
  - destruct (Hok Hle) as (w' & Hrun & He). exists (Ret tt), w'.
    split; [exact Hrun|]. split; [discriminate|]. intros _.
    apply (fd_wf_erase _ _ (eq_sym He)).
    split; cbn [next_fd fds set_next_fd set_stdout]; [lia|]. intros k Hk. apply Hfree. lia.
  - destruct (Heof ltac:(lia)) as (b & w' & evs & _ & Hrun & _).
    exists (SysExit 1), w'. split; [exact Hrun|apply Hstop; exact I].
Qed.

Lemma create_archive_total (filenames : list str) :
  forall w, fd_wf w -> fst (create_archive filenames w) <> OutOfFuel.
Proof.
  induction filenames as [|name rest IH]; intros w Hwf; [discriminate|].
  cbn [create_archive]. unfold bind.
  destruct (create_archive_body_total name w Hwf) as (o & w' & -> & Hoof & Hret).
  destruct o as [[]| | |]; cbn; try discriminate; [|congruence].
  apply IH, Hret. reflexivity.
Qed.

Lemma extract_archive_total (w : world) :
  fd_wf w -> fst (extract_archive w) <> OutOfFuel.
Proof.
  intros Hwf. unfold extract_archive.
  destruct (extract_loop_sound (S (length (stdin w))) w Hwf ltac:(lia)) as (o & w' & -> & Ho & _).
  exact Ho.
Qed.

Lemma read_exact_total (fd : nat) (n : Z) (w : world) :
  fst (read_exact fd n w) <> OutOfFuel.
Proof.
  destruct (pending_of fd w) as [p|] eqn:Hp.
  - destruct (read_exact_spec fd n w p Hp) as (w' & -> & _). discriminate.
  - unfold read_exact, avail. rewrite Hp. cbn [read_exact_loop].
    destruct (n >? 0); [|discriminate].
    unfold bind, os_read. rewrite Hp. discriminate.
Qed.

(** ** The calls of the content loops *)

Lemma close_die_after_eof (fd : nat) (msg : str) (w : world) :
  exists evs,
    trace (snd ((os_close fd ;; @die unit msg) w)) = trace w ++ evs /\
    Forall after_eof evs /\
    fst ((os_close fd ;; @die unit msg) w) <> Ret tt.
Proof.
  assert (Hem : emits after_eof (os_close fd ;; @die unit msg)).
  { apply emits_bind; [apply emits_os_close; exact I|]. intros _.
    apply emits_die. intros b. reflexivity. }
  destruct (Hem w) as (evs & Ht & Hok). exists evs. split; [exact Ht|]. split; [exact Hok|].
  unfold bind. destruct (os_close fd w) as [[[]|c|e|] w1]; cbn [fst]; try discriminate.
  destruct (@die_outcome unit msg w1) as (w2 & [-> | ->]); discriminate.
Qed.

Lemma os_read_event (fd : nat) (n : Z) (w : world) :
  (exists e, os_read fd n w = (Raised e, w)) \/
  exists chunk w1,
    os_read fd n w = (Ret chunk, w1) /\ trace w1 = trace w ++ [EvRead fd n chunk] /\
    len chunk <= Z.max 0 n.
Proof.
  unfold os_read. destruct (pending_of fd w) as [p|]; [right|left; eauto].
  eexists _, _. split; [reflexivity|]. cbn [trace log set_sched].
  rewrite trace_set_pending. split; [reflexivity|].
  pose proof (read_count_le n (sched w) (length p)) as [H1 H2].
  unfold len. rewrite length_take. lia.
Qed.

Lemma os_write_event (fd : nat) (d : bytes) (w : world) :
  (exists e, os_write fd d w = (Raised e, w)) \/
  exists w1, os_write fd d w = (Ret tt, w1) /\ trace w1 = trace w ++ [EvWrite fd d].
Proof.
  unfold os_write.
  destruct (decide (fd = 1%nat)); [right; eauto|].
  destruct (decide (fd = 2%nat)); [right; eauto|].
  destruct (fds w !! fd) as [[p st|path]|]; [left; eauto|right; eauto|left; eauto].
Qed.

Lemma copied_cons_write (dst : nat) (d : bytes) (evs : list event) :
  copied dst (EvWrite dst d :: evs) = d ++ copied dst evs.
Proof. unfold copied. cbn [flat_map]. rewrite decide_True by reflexivity. reflexivity. Qed.

Lemma copied_cons_read (dst fd : nat) (n : Z) (got : bytes) (evs : list event) :
  copied dst (EvRead fd n got :: evs) = copied dst evs.
Proof. reflexivity. Qed.

Lemma create_copy_loop_chunked (name : str) (fd fuel : nat) :
  forall remaining w,
  exists evs,
    trace (snd (create_copy_loop fuel name fd remaining w)) = trace w ++ evs /\
    chunked fd 1 remaining evs /\
    (fst (create_copy_loop fuel name fd remaining w) = Ret tt ->
     len (copied 1 evs) = Z.max 0 remaining).
Proof.
  induction fuel as [|fuel IH]; intros remaining w; cbn [create_copy_loop];
    destruct (Z.gtb_spec remaining 0) as [Hr|Hr];
    try (exists []; rewrite app_nil_r; split; [reflexivity|]; split; [exact I|];
         unfold out_of_fuel, ret, copied, len; cbn [fst flat_map length];
         intros; try discriminate; lia).
  destruct (os_read_event fd (Z.min BUF_SIZE remaining) w)
    as [(e & Hrd)|(chunk & w1 & Hrd & Ht1 & Hlen)];
    [rewrite (bind_Raised _ _ _ _ _ Hrd); exists []; rewrite app_nil_r;
     split; [reflexivity|]; split; [exact I|]; discriminate|].
  rewrite (bind_Ret _ _ _ _ _ Hrd).
  assert (Hn : len chunk <= Z.min BUF_SIZE remaining) by (unfold BUF_SIZE in *; lia).
  destruct chunk as [|c chunk].
  - destruct (close_die_after_eof fd (lit "unexpected EOF reading '" ++ name ++ lit "'") w1)
      as (evs & Ht & Hok & Hne).
    exists (EvRead fd (Z.min BUF_SIZE remaining) [] :: evs).
    split; [rewrite Ht, Ht1, <- app_assoc; reflexivity|].
    split; [cbn [chunked]; auto|]. intros H. destruct (Hne H).
  - rewrite (bind_Ret _ _ _ _ _ (os_write_stdout (c :: chunk) w1)).
    set (w2 := log _ _).
    destruct (IH (remaining - len (c :: chunk)) w2) as (evs & Ht & Hch & Hret).
    exists (EvRead fd (Z.min BUF_SIZE remaining) (c :: chunk) :: EvWrite 1 (c :: chunk) :: evs).
    split; [rewrite Ht; subst w2; cbn [trace log set_stdout]; rewrite Ht1, <- !app_assoc;
            reflexivity|].
    split; [cbn [chunked]; auto 10|].
    intros H. rewrite copied_cons_read, copied_cons_write.
    unfold len in *. rewrite length_app. specialize (Hret H). lia.
Qed.

Lemma extract_copy_loop_chunked (in_fd out_fd fuel : nat) :
  forall remaining w,
  exists evs,
    trace (snd (extract_copy_loop fuel in_fd out_fd remaining w)) = trace w ++ evs /\
    chunked in_fd out_fd remaining evs /\
    (fst (extract_copy_loop fuel in_fd out_fd remaining w) = Ret tt ->
     len (copied out_fd evs) = Z.max 0 remaining).
Proof.
  induction fuel as [|fuel IH]; intros remaining w; cbn [extract_copy_loop];
    destruct (Z.gtb_spec remaining 0) as [Hr|Hr];
    try (exists []; rewrite app_nil_r; split; [reflexivity|]; split; [exact I|];
         unfold out_of_fuel, ret, copied, len; cbn [fst flat_map length];
         intros; try discriminate; lia).
  destruct (os_read_event in_fd (Z.min BUF_SIZE remaining) w)
    as [(e & Hrd)|(chunk & w1 & Hrd & Ht1 & Hlen)];
    [rewrite (bind_Raised _ _ _ _ _ Hrd); exists []; rewrite app_nil_r;
     split; [reflexivity|]; split; [exact I|]; discriminate|].
  rewrite (bind_Ret _ _ _ _ _ Hrd).
  assert (Hn : len chunk <= Z.min BUF_SIZE remaining) by (unfold BUF_SIZE in *; lia).
  destruct chunk as [|c chunk].
  - destruct (close_die_after_eof out_fd
                (lit "corrupted archive (unexpected EOF in file data)") w1)
      as (evs & Ht & Hok & Hne).
    exists (EvRead in_fd (Z.min BUF_SIZE remaining) [] :: evs).
    split; [rewrite Ht, Ht1, <- app_assoc; reflexivity|].
    split; [cbn [chunked]; auto|]. intros H. destruct (Hne H).
  - destruct (os_write_event out_fd (c :: chunk) w1) as [(e & Hwr)|(w2 & Hwr & Ht2)].
    { rewrite (bind_Raised _ _ _ _ _ Hwr).
      exists [EvRead in_fd (Z.min BUF_SIZE remaining) (c :: chunk)].
      split; [exact Ht1|]. split; [cbn [chunked]; auto|]. discriminate. }
    rewrite (bind_Ret _ _ _ _ _ Hwr).
    destruct (IH (remaining - len (c :: chunk)) w2) as (evs & Ht & Hch & Hret).
    exists (EvRead in_fd (Z.min BUF_SIZE remaining) (c :: chunk)
              :: EvWrite out_fd (c :: chunk) :: evs).
    split; [rewrite Ht, Ht2, Ht1, <- !app_assoc; reflexivity|].
    split; [cbn [chunked]; auto 10|].
    intros H. rewrite copied_cons_read, copied_cons_write.
    unfold len in *. rewrite length_app. specialize (Hret H). lia.
Qed.

Lemma after_eof_copy_event (remaining : Z) (e : event) : after_eof e -> copy_event remaining e.
Proof. destruct e; cbn; tauto. Qed.

Lemma after_eof_within_buffer (e : event) : after_eof e -> within_buffer e.
Proof. destruct e; cbn; tauto. Qed.

Lemma chunked_bounded (src dst : nat) (n : nat) :
  forall remaining evs,
  (length evs <= n)%nat -> chunked src dst remaining evs ->
  Forall (copy_event remaining) evs /\ Forall within_buffer evs.
Proof.
  induction n as [|n IH]; intros remaining evs Hlen Hch.
  { destruct evs; [split; constructor|cbn in Hlen; lia]. }
  destruct evs as [|[| |fd k chunk| |] rest]; try (destruct Hch; fail); [split; constructor|].
  cbn [chunked] in Hch. destruct Hch as (-> & Hr & -> & Hk & Hrest).
  assert (Hhead : copy_event remaining (EvRead src (Z.min BUF_SIZE remaining) chunk) /\
                  within_buffer (EvRead src (Z.min BUF_SIZE remaining) chunk))
    by (cbn; unfold BUF_SIZE in *; lia).
  destruct Hhead as [Hc Hb].
  destruct chunk as [|c chunk].
  - split; (constructor; [assumption|]); eapply Forall_impl; try exact Hrest.
    + intros e. apply after_eof_copy_event.
    + apply after_eof_within_buffer.
  - destruct rest as [|[| | |fd' data|] rest']; try (destruct Hrest; fail).
    { split; (constructor; [assumption|constructor]). }
    destruct Hrest as (-> & -> & Hrest). cbn [length] in Hlen.
    destruct (IH _ rest' ltac:(lia) Hrest) as [H1 H2].
    split.
    + constructor; [assumption|]. constructor; [exact I|].
      eapply Forall_impl; [exact H1|]. intros e. apply copy_event_mono.
      pose proof (len_nonneg (c :: chunk)). lia.
    + constructor; [assumption|]. constructor; [|exact H2].
      cbn. intros _. unfold BUF_SIZE in *. lia.
Qed.

(** ** The model at work *)

Example utf8_encode_sample :
  utf8_encode [0x24; 0xe9; 0x20ac; 0x1F600]
  = Some [x24; xc3; xa9; xe2; x82; xac; xf0; x9f; x98; x80].
Proof. reflexivity. Qed.

Example utf8_rejects_surrogates :
  utf8_encode [0xD800] = None /\ utf8_decode [xed; xa0; x80] = None.
Proof. split; reflexivity. Qed.

Example utf8_rejects_overlong_and_large :
  utf8_decode [xc0; x80] = None /\ utf8_decode [xf4; x90; x80; x80] = None.
Proof. split; reflexivity. Qed.

Example int_to_bytes_sample :
  int_to_bytes 258 4 = Some [x00; x00; x01; x02] /\ int_to_bytes (2 ^ 32) 4 = None.
Proof. split; reflexivity. Qed.

(** One file of three bytes, read one byte at a time. *)
Example create_archive_sample :
  let w := fresh_world {[ [233; 0x4e2d] := RFile (Some 3) [x01; x02; x03] ]} false []
             [0; 0]%nat in
  let r := create_archive [[233; 0x4e2d]] w in
  fst r = Ret tt /\
  stdout (snd r) = [x00; x00; x00; x05; xc3; xa9; xe4; xb8; xad;
                    x00; x00; x00; x00; x00; x00; x00; x03; x01; x02; x03] /\
  trace (snd r) = [EvOpen [233; 0x4e2d] 3; EvWrite 1 [x00; x00; x00; x05];
                   EvWrite 1 [xc3; xa9; xe4; xb8; xad];
                   EvWrite 1 [x00; x00; x00; x00; x00; x00; x00; x03];
                   EvRead 3 3 [x01]; EvWrite 1 [x01];
                   EvRead 3 2 [x02]; EvWrite 1 [x02];
                   EvRead 3 1 [x03]; EvWrite 1 [x03]; EvClose 3].
Proof. vm_compute. repeat split; reflexivity. Qed.

(** A name with a lone surrogate, as Python makes of a file name that is
    not valid UTF-8, has no UTF-8 form: the encoder opens the file and then
    stops on the exception, with nothing written. *)
Example create_archive_surrogate_name :
  let w := fresh_world {[ [0xDCFF] := RFile (Some 1) [x01] ]} false [] [] in
  let r := create_archive [[0xDCFF]] w in
  fst r = Raised UnicodeEncodeError /\ stdout (snd r) = [].
Proof. vm_compute. split; reflexivity. Qed.

(** A path that cannot be created stops the decoder. *)
Example extract_archive_cannot_create :
  let w := fresh_world ∅ false (be_digits 4 1 ++ [x61] ++ be_digits 8 2 ++ [x68; x69]) [] in
  let r := extract_archive w in
  fst r = SysExit 1 /\
  Some (stderr (snd r)) = diagnostic (lit "cannot create output file 'a'") /\
  disk (snd r) = ∅.
Proof. vm_compute. repeat split; reflexivity. Qed.

(** A name with a NUL character in it is refused by Python itself, and the
    exception is not the one line 113 catches. *)
Example extract_archive_nul_name :
  let w := fresh_world ∅ false (be_digits 4 3 ++ [x61; x00; x62] ++ be_digits 8 0) [] in
  let r := extract_archive w in
  fst r = Raised ValueError /\ stderr (snd r) = [] /\ disk (snd r) = ∅.
Proof. vm_compute. repeat split; reflexivity. Qed.

(** Four bytes copied two at a time are two reads, for 4 and then for 2
    bytes, each followed by the write of its chunk. *)
Example chunked_sample :
  chunked 3 1 4 [EvRead 3 4 [x01; x02]; EvWrite 1 [x01; x02];
                 EvRead 3 2 [x03; x04]; EvWrite 1 [x03; x04]].
Proof. cbn [chunked]. unfold BUF_SIZE, len. cbn [length]. repeat split; lia. Qed.

(** Keeping the chunks to write them together is not [chunked], and
    neither is asking again for the length the loop started with. *)
Example buffering_is_not_chunked :
  ~ chunked 3 1 4 [EvRead 3 4 [x01; x02]; EvRead 3 2 [x03; x04];
                   EvWrite 1 [x01; x02; x03; x04]].
Proof. cbn [chunked]. tauto. Qed.

Example stale_request_is_not_chunked :
  ~ chunked 3 1 4 [EvRead 3 4 [x01; x02]; EvWrite 1 [x01; x02];
                   EvRead 3 4 [x03; x04]; EvWrite 1 [x03; x04]].
Proof. cbn [chunked]. unfold BUF_SIZE, len. cbn [length]. lia. Qed.

(** * The properties of the specification *)

(** C1 (round trip).  Take any list of files the format can carry (a name
    that is not empty and whose UTF-8 form is shorter than 2^32 bytes, a
    content shorter than 2^64 bytes), each readable in the encoder's
    environment with the size its content has, and each creatable in the
    decoder's.  The encoder succeeds on their names; the decoder, fed the
    bytes the encoder wrote, succeeds too, creates the files in the order of
    the list, and leaves under every name exactly the content of that
    file. *)
Theorem C1_round_trip (files : list (str * bytes)) (src dst : world) :
  fd_wf src -> fd_wf dst -> stdout src = [] ->
  Forall (fun f => archivable f /\
                   readable src !! f.1 = Some (RFile (Some (len f.2)) f.2) /\
                   creatable dst f.1 = true) files ->
  exists src' dst',
    create_archive (map fst files) src = (Ret tt, src') /\
    extract_archive (set_stdin (stdout src') dst) = (Ret tt, dst') /\
    created (trace dst') = created (trace dst) ++ map fst files /\
    disk dst' = foldl (fun d f => <[f.1 := f.2]> d) (disk dst) files /\
    (forall f, f ∈ files -> disk dst' !! f.1 = Some f.2).
Proof.
  intros Hsrc Hdst Hout Hfiles.
  destruct (create_archive_files files src Hsrc) as (src' & Henc & He).
  { eapply Forall_impl; [exact Hfiles|]. intros f (? & ? & ?). auto. }
  erase_split He. rewrite Hout in Hstdout. cbn [app] in Hstdout.
  destruct (extract_archive_files files (set_stdin (stdout src') dst) Hdst)
    as (dst' & Hdec & Hc & Hd).
  { eapply Forall_impl; [exact Hfiles|]. intros f (? & ? & ?). auto. }
  { exact Hstdout. }
  exists src', dst'. repeat split; try assumption.
  intros f Hf. rewrite Hd. apply foldl_insert_lookup; [exact Hf|].
  intros g Hg Hkey. rewrite Forall_forall in Hfiles.
  destruct (Hfiles f Hf) as (_ & Hrf & _). destruct (Hfiles g Hg) as (_ & Hrg & _).
  rewrite Hkey, Hrf in Hrg. congruence.
Qed.

(** C2 (record layout).  For a path that opens, whose size [fstat] reports
    as [size], whose UTF-8 form [nb] fits the 4-byte field, and whose reads
    deliver at least [size] bytes, the encoder appends to its output exactly
    the 4-byte big-endian length of [nb], then [nb], then the 8-byte
    big-endian [size], then the first [size] bytes of the file. *)
Theorem C2_record_layout (name : str) (size : Z) (data nb : bytes) (w : world) :
  fd_wf w ->
  readable w !! name = Some (RFile (Some size) data) ->
  utf8_encode name = Some nb ->
  len nb < 2 ^ 32 -> 0 <= size < 2 ^ 64 -> size <= len data ->
  exists w',
    create_archive_body name w = (Ret tt, w') /\
    stdout w' = stdout w ++ be_digits 4 (len nb) ++ nb ++ be_digits 8 size
                         ++ take (Z.to_nat size) data /\
    (length (be_digits 4 (len nb)) = 4%nat /\ int_from_bytes (be_digits 4 (len nb)) = len nb) /\
    (length (be_digits 8 size) = 8%nat /\ int_from_bytes (be_digits 8 size) = size) /\
    len (take (Z.to_nat size) data) = size.
Proof.
  intros Hwf Hfile Hname Hnb Hsize Hle.
  destruct (create_archive_body_spec name size data nb w Hwf Hfile Hname Hnb Hsize) as [Hok _].
  destruct (Hok Hle) as (w' & Hrun & He). erase_split He.
  pose proof (len_nonneg nb).
  exists w'. split; [exact Hrun|]. split; [exact Hstdout|].
  split; [|split].
  - split; [apply be_digits_length|]. apply int_from_be_digits.
    change (256 ^ Z.of_nat 4) with (2 ^ 32). lia.
  - split; [apply be_digits_length|]. apply int_from_be_digits.
    change (256 ^ Z.of_nat 8) with (2 ^ 64). lia.
  - unfold len in *. rewrite length_take. lia.
Qed.

(** C3 (end of stream).  After any number of complete records, a stream
    that ends there makes the decoder stop successfully, and a stream that
    goes on for one, two or three bytes makes it fail with "incomplete
    filename length".  And the decoder succeeds on no other stream than one
    made of complete records: the end of the stream is accepted at a record
    boundary only. *)
Theorem C3_end_of_stream (files : list (str * bytes)) (tail : bytes) (w : world) :
  fd_wf w ->
  Forall (fun f => archivable f /\ creatable w f.1 = true) files ->
  stdin w = archive_of files ++ tail ->
  (tail = [] ->
   exists w', extract_archive w = (Ret tt, w') /\
              created (trace w') = created (trace w) ++ map fst files) /\
  (0 < len tail < 4 ->
   exists b w',
     diagnostic (lit "corrupted archive (incomplete filename length)") = Some b /\
     extract_archive w = (SysExit 1, w') /\
     stderr w' = stderr w ++ b /\
     created (trace w') = created (trace w) ++ map fst files) /\
  (forall w', extract_archive w = (Ret tt, w') -> complete_records (stdin w)).
Proof.
  intros Hwf Hfiles Hin.
  destruct (extract_archive_fuel files tail w Hin) as [fuel Hfuel].
  destruct (extract_loop_prefix files (S fuel) w tail Hwf Hfiles Hin) as (w1 & Hrun & He1 & Hc1).
  unfold extract_archive. rewrite Hfuel, Hrun. erase_split He1. split; [|split].
  - intros ->. destruct (extract_loop_eof fuel w1 Hstdin) as (w' & Hrun' & _ & Hc').
    exists w'. split; [exact Hrun'|]. congruence.
  - intros Hlen. rewrite <- Hstdin in Hlen.
    destruct (extract_loop_short fuel w1 Hlen) as (b & w' & Hb & Hrun' & He' & Hc').
    exists b, w'. erase_split He'. repeat split; congruence.
  - intros w' Hret. rewrite <- Hrun, <- Hfuel in Hret.
    destruct (extract_loop_sound (S (length (stdin w))) w Hwf ltac:(lia))
      as (o & w'' & Hrun' & _ & Hsound).
    apply Hsound. congruence.
Qed.

(** C4 (empty name).  After any number of complete records, four bytes
    that decode to a name length of 0 make the decoder fail with "invalid
    filename length", whatever follows them; nothing is created for that
    record. *)
Theorem C4_zero_name_length (files : list (str * bytes)) (raw_len rest : bytes) (w : world) :
  fd_wf w ->
  Forall (fun f => archivable f /\ creatable w f.1 = true) files ->
  stdin w = archive_of files ++ raw_len ++ rest ->
  length raw_len = 4%nat -> int_from_bytes raw_len = 0 ->
  exists b w',
    diagnostic (lit "corrupted archive (invalid filename length)") = Some b /\
    extract_archive w = (SysExit 1, w') /\
    stderr w' = stderr w ++ b /\
    created (trace w') = created (trace w) ++ map fst files /\
    disk w' = foldl (fun d f => <[f.1 := f.2]> d) (disk w) files.
Proof.
  intros Hwf Hfiles Hin Hl4 Hzero.
  destruct (extract_archive_fuel files _ w Hin) as [fuel Hfuel].
  destruct (extract_loop_prefix files (S fuel) w _ Hwf Hfiles Hin) as (w1 & Hrun & He1 & Hc1).
  unfold extract_archive. rewrite Hfuel, Hrun. erase_split He1.
  destruct (extract_loop_zero_name fuel w1 raw_len rest Hstdin Hl4 Hzero)
    as (b & w' & Hb & Hrun' & He' & Hc').
  exists b, w'. erase_split He'. repeat split; congruence.
Qed.

(** C5 (content cut short).  After any number of complete records, a
    record whose header is complete and asks for more content bytes than the
    stream still holds makes the decoder fail with "unexpected EOF in file
    data"; the file it created for the record stays, holds exactly the bytes
    that were there, and its descriptor is closed. *)
Theorem C5_truncated_content (files : list (str * bytes))
    (raw_len name_bytes raw_size data : bytes) (name : str) (w : world) :
  fd_wf w ->
  Forall (fun f => archivable f /\ creatable w f.1 = true) files ->
  stdin w = archive_of files ++ raw_len ++ name_bytes ++ raw_size ++ data ->
  length raw_len = 4%nat -> int_from_bytes raw_len = len name_bytes ->
  0 < len name_bytes -> utf8_decode name_bytes = Some name ->
  length raw_size = 8%nat -> len data < int_from_bytes raw_size ->
  creatable w name = true ->
  exists b w',
    diagnostic (lit "corrupted archive (unexpected EOF in file data)") = Some b /\
    extract_archive w = (SysExit 1, w') /\
    stderr w' = stderr w ++ b /\
    created (trace w') = created (trace w) ++ map fst files ++ [name] /\
    disk w' !! name = Some data /\
    fds w' = fds w.
Proof.
  intros Hwf Hfiles Hin Hl4 Hnl Hpos Hname Hl8 Hsz Hcr.
  destruct (extract_archive_fuel files _ w Hin) as [fuel Hfuel].
  destruct (extract_loop_prefix files (S fuel) w _ Hwf Hfiles Hin) as (w1 & Hrun & He1 & Hc1).
  unfold extract_archive. rewrite Hfuel, Hrun.
  pose proof (fd_wf_erase _ _ (eq_sym He1)) as Hwf1.
  erase_split He1.
  destruct (extract_loop_truncated fuel w1 raw_len name_bytes raw_size data name)
    as (b & w' & Hb & Hrun' & He' & Hc'); try assumption.
  { apply Hwf1. destruct Hwf as [H3 Hfree]. split; cbn; [lia|]. intros k Hk. apply Hfree. lia. }
  { congruence. }
  exists b, w'. erase_split He'. repeat split; try congruence.
  - rewrite Hc', Hc1, <- app_assoc. reflexivity.
  - rewrite Hdisk0. apply lookup_insert_eq.
Qed.

(** C6 (source cut short).  When the reads on a source file deliver fewer
    bytes than [fstat] announced, the encoder closes the file's descriptor
    and then exits with status 1, after writing to the diagnostic stream
    the line "mytar: unexpected EOF reading '<name>'", which carries the
    encoded name; the descriptor is no longer open afterwards, and the rest
    of the list is not processed. *)
Theorem C6_source_cut_short (name : str) (size : Z) (data nb : bytes) (w : world) :
  fd_wf w ->
  readable w !! name = Some (RFile (Some size) data) ->
  utf8_encode name = Some nb ->
  len nb < 2 ^ 32 -> 0 <= size < 2 ^ 64 -> len data < size ->
  exists b w' evs,
    diagnostic (lit "unexpected EOF reading '" ++ name ++ lit "'") = Some b /\
    (exists pre post, b = pre ++ nb ++ post) /\
    create_archive_body name w = (SysExit 1, w') /\
    (forall rest, create_archive (name :: rest) w = (SysExit 1, w')) /\
    stderr w' = stderr w ++ b /\
    trace w' = trace w ++ EvOpen name (next_fd w) :: evs
                       ++ [EvClose (next_fd w); EvWrite 2 b] /\
    fds w' !! next_fd w = None /\
    fds w' = fds w.
Proof.
  intros Hwf Hfile Hname Hnb Hsize Hlt.
  destruct (create_archive_body_spec name size data nb w Hwf Hfile Hname Hnb Hsize) as [_ Heof].
  destruct (Heof Hlt) as (b & w' & evs & Hb & Hrun & He & Ht).
  exists b, w', evs. erase_split He. destruct Hwf as [_ Hfree].
  split; [exact Hb|]. split; [exact (diagnostic_quoted_shape _ _ _ _ _ Hname Hb)|].
  split; [exact Hrun|]. split; [|split; [exact Hstderr|split; [exact Ht|split]]].
  - intros rest. cbn [create_archive]. apply bind_SysExit, Hrun.
  - rewrite Hfds. apply Hfree. lia.
  - exact Hfds.
Qed.

(** C7 (size is never negative).  Whatever bytes the decoder reads for the
    content length, the integer it decodes from them is not negative, so the
    test [size < 0] of line 108 is false; from eight bytes it is below
    2^64. *)
Theorem C7_size_never_negative (raw_size : bytes) :
  (int_from_bytes raw_size <? 0) = false /\
  (length raw_size = 8%nat -> 0 <= int_from_bytes raw_size < 2 ^ 64).
Proof.
  pose proof (int_from_bytes_range raw_size) as Hr. split.
  - apply Z.ltb_ge. lia.
  - intros H8. unfold len in Hr. rewrite H8 in Hr. exact Hr.
Qed.

(** C8 (empty file).  For a file whose size [fstat] reports as 0 the
    content loop of the encoder returns at once: the system calls of the
    encoder are the open, the three writes of the header and the close, and
    the record it writes is the header alone, with a content length of 0.
    The content loop of the decoder returns at once too, and the decoder,
    given that record, leaves an empty file under the name. *)
Theorem C8_empty_file (name : str) (data nb : bytes) (src dst : world) :
  fd_wf src ->
  readable src !! name = Some (RFile (Some 0) data) ->
  utf8_encode name = Some nb -> len nb < 2 ^ 32 -> name <> [] ->
  fd_wf dst -> creatable dst name = true ->
  let record := be_digits 4 (len nb) ++ nb ++ be_digits 8 0 in
  exists src' dst',
    create_archive_body name src = (Ret tt, src') /\
    stdout src' = stdout src ++ record /\
    int_from_bytes (be_digits 8 0) = 0 /\
    trace src' = trace src ++ [EvOpen name (next_fd src);
                                EvWrite 1 (be_digits 4 (len nb)); EvWrite 1 nb;
                                EvWrite 1 (be_digits 8 0); EvClose (next_fd src)] /\
    (forall fuel fd, create_copy_loop fuel name fd 0 = ret tt) /\
    (forall fuel in_fd out_fd, extract_copy_loop fuel in_fd out_fd 0 = ret tt) /\
    extract_archive (set_stdin record dst) = (Ret tt, dst') /\
    disk dst' !! name = Some [] /\
    created (trace dst') = created (trace dst) ++ [name].
Proof.
  intros Hsrc Hfile Hname Hnb Hne Hdst Hcr record.
  pose proof (create_archive_body_header name 0 data nb src (proj1 Hsrc) Hfile Hname Hnb
                ltac:(lia)) as Hrun.
  rewrite create_copy_loop_zero, bind_ret in Hrun.
  rewrite (os_close_spec (next_fd src) (RdH data (Some 0))) in Hrun
    by apply lookup_insert_eq.
  destruct (extract_archive_files [(name, [])] (set_stdin record dst) Hdst)
    as (dst' & Hdec & Hc & Hd).
  { constructor; [|constructor]. split; [|exact Hcr].
    split; [exact Hne|]. split; [exists nb; auto|]. reflexivity. }
  { cbn [archive_of stdin set_stdin]. rewrite Hname. unfold record_bytes, record.
    change (default [] (Some nb)) with nb. change (len []) with 0.
    rewrite !app_nil_r. reflexivity. }
  eexists _, dst'. split; [exact Hrun|].
  split; [|split; [|split; [|split; [|split; [|split; [|split]]]]]].
  - cbn [stdout log set_fds after_header set_stdout set_next_fd]. unfold record.
    rewrite <- !app_assoc. reflexivity.
  - reflexivity.
  - cbn [trace log set_fds after_header set_stdout set_next_fd].
    rewrite <- !app_assoc. reflexivity.
  - intros. apply create_copy_loop_zero.
  - intros. apply extract_copy_loop_zero.
  - exact Hdec.
  - rewrite Hd. cbn [foldl fst snd]. apply lookup_insert_eq.
  - exact Hc.
Qed.

(** C9 (bounded chunks).  Whatever the state, the length still to copy and
    the number of iterations allowed, the calls the content loops of the
    encoder and of the decoder make are [chunked]: every read asks for
    [min(BUF_SIZE, remaining)] bytes, with the [remaining] of its own
    iteration, which is the length the loop started with less the chunks
    read so far; every chunk is written as it was read, before the next
    read; and a loop that returns has written [remaining] bytes.  Hence no
    request, no chunk and no write of content exceeds 4096 bytes, whatever
    the length of the content. *)
Theorem C9_bounded_chunks :
  (forall fuel name fd remaining w,
     exists evs,
       trace (snd (create_copy_loop fuel name fd remaining w)) = trace w ++ evs /\
       chunked fd 1 remaining evs /\
       (fst (create_copy_loop fuel name fd remaining w) = Ret tt ->
        len (copied 1 evs) = Z.max 0 remaining)) /\
  (forall fuel in_fd out_fd remaining w,
     exists evs,
       trace (snd (extract_copy_loop fuel in_fd out_fd remaining w)) = trace w ++ evs /\
       chunked in_fd out_fd remaining evs /\
       (fst (extract_copy_loop fuel in_fd out_fd remaining w) = Ret tt ->
        len (copied out_fd evs) = Z.max 0 remaining)) /\
  (forall src dst remaining evs,
     chunked src dst remaining evs ->
     Forall (copy_event remaining) evs /\ Forall within_buffer evs) /\
  (forall remaining fd n got,
     copy_event remaining (EvRead fd n got) ->
     n <= Z.min 4096 remaining /\ len got <= 4096).
Proof.
  split; [|split; [|split]].
  - intros fuel name fd remaining w. apply create_copy_loop_chunked.
  - intros fuel in_fd out_fd remaining w. apply extract_copy_loop_chunked.
  - intros src dst remaining evs. apply (chunked_bounded src dst (length evs)). lia.
  - intros remaining fd n got. cbn. unfold BUF_SIZE. lia.
Qed.

(** C10 ([read_exact]).  On a descriptor open for reading with [p] still
    to come, [read_exact fd n] returns the first [n] bytes of [p], or all of
    [p] when it has fewer, and leaves the rest to come: the result is a
    prefix of [p] of length [min(n, len p)] for [n >= 0], never longer than
    [n]. *)
Theorem C10_read_exact (fd : nat) (n : Z) (w : world) (p : bytes) :
  pending_of fd w = Some p ->
  exists data w',
    read_exact fd n w = (Ret data, w') /\
    data = take (Z.to_nat n) p /\
    pending_of fd w' = Some (drop (Z.to_nat n) p) /\
    p = data ++ drop (Z.to_nat n) p /\
    len data = Z.min (Z.max 0 n) (len p) /\
    (0 <= n -> len data = Z.min n (len p) /\ len data <= n).
Proof.
  intros Hp. destruct (read_exact_spec fd n w p Hp) as (w' & Hrd & He).
  exists (take (Z.to_nat n) p), w'.
  assert (Hlen : len (take (Z.to_nat n) p) = Z.min (Z.max 0 n) (len p))
    by (unfold len; rewrite length_take; lia).
  split; [exact Hrd|]. split; [reflexivity|]. split; [|split; [|split]].
  - rewrite (pending_of_erase _ _ _ He). apply (pending_of_set_pending _ p), Hp.
  - symmetry. apply take_drop.
  - exact Hlen.
  - intros Hn. rewrite Hlen. lia.
Qed.

(** * The theorems at sample inputs *)

Lemma fresh_world_wf (files : gmap str rfile) (c : bool) (input : bytes) (s : list nat) :
  fd_wf (fresh_world files c input s).
Proof. split; [cbn; lia|]. intros k _. apply lookup_empty. Qed.

Ltac by_evaluation := vm_compute; reflexivity.

Ltac sample_archivable :=
  split; [vm_compute; discriminate|];
  split; [eexists; split; [by_evaluation|by_evaluation]|by_evaluation].

Ltac sample_file :=
  lazymatch goal with
  | |- archivable _ /\ _ /\ _ =>
      split; [sample_archivable|split; [by_evaluation|by_evaluation]]
  | |- archivable _ /\ _ => split; [sample_archivable|by_evaluation]
  end.

Ltac sample_list :=
  repeat (apply List.Forall_cons; [sample_file|]); apply List.Forall_nil.

Lemma C1_round_trip_witness :
  exists src' dst',
    create_archive (map fst sample_files) sample_src = (Ret tt, src') /\
    extract_archive (set_stdin (stdout src') sample_dst) = (Ret tt, dst') /\
    created (trace dst') = created (trace sample_dst) ++ map fst sample_files /\
    disk dst' = foldl (fun d f => <[f.1 := f.2]> d) (disk sample_dst) sample_files /\
    (forall f, f ∈ sample_files -> disk dst' !! f.1 = Some f.2).
Proof.
  apply (C1_round_trip sample_files sample_src sample_dst).
  - apply fresh_world_wf.
  - apply fresh_world_wf.
  - reflexivity.
  - unfold sample_files. sample_list.
Defined.

Lemma C2_record_layout_witness :
  exists w',
    create_archive_body (lit "a.txt") sample_src = (Ret tt, w') /\
    stdout w' = stdout sample_src ++ be_digits 4 5 ++ [x61; x2e; x74; x78; x74]
                  ++ be_digits 8 3 ++ [x68; x69; x0a] /\
    (length (be_digits 4 5) = 4%nat /\ int_from_bytes (be_digits 4 5) = 5) /\
    (length (be_digits 8 3) = 8%nat /\ int_from_bytes (be_digits 8 3) = 3) /\
    len [x68; x69; x0a] = 3.
Proof.
  apply (C2_record_layout (lit "a.txt") 3 [x68; x69; x0a] [x61; x2e; x74; x78; x74] sample_src).
  - apply fresh_world_wf.
  - vm_compute. reflexivity.
  - vm_compute. reflexivity.
  - vm_compute. reflexivity.
  - lia.
  - vm_compute. discriminate.
Defined.

Lemma C3_end_of_stream_witness :
  (exists w',
     extract_archive (set_stdin (archive_of sample_files) sample_dst) = (Ret tt, w') /\
     created (trace w') = map fst sample_files) /\
  (exists b w',
     diagnostic (lit "corrupted archive (incomplete filename length)") = Some b /\
     extract_archive (set_stdin (archive_of sample_files ++ [x00; x00]) sample_dst)
       = (SysExit 1, w') /\
     stderr w' = b /\
     created (trace w') = map fst sample_files) /\
  (forall w',
     extract_archive (set_stdin (archive_of sample_files) sample_dst) = (Ret tt, w') ->
     complete_records (archive_of sample_files)).
Proof.
  split; [|split].
  - apply (C3_end_of_stream sample_files []
             (set_stdin (archive_of sample_files) sample_dst));
      [apply fresh_world_wf|unfold sample_files; sample_list
      |vm_compute; reflexivity|reflexivity].
  - apply (C3_end_of_stream sample_files [x00; x00]
             (set_stdin (archive_of sample_files ++ [x00; x00]) sample_dst));
      [apply fresh_world_wf|unfold sample_files; sample_list
      |reflexivity|vm_compute; split; reflexivity].
  - apply (C3_end_of_stream sample_files []
             (set_stdin (archive_of sample_files) sample_dst));
      [apply fresh_world_wf|unfold sample_files; sample_list
      |vm_compute; reflexivity].
Defined.

Lemma C4_zero_name_length_witness :
  exists b w',
    diagnostic (lit "corrupted archive (invalid filename length)") = Some b /\
    extract_archive
      (set_stdin (archive_of [(lit "a.txt", [x68; x69; x0a])]
                  ++ [x00; x00; x00; x00] ++ be_digits 8 2 ++ [x68; x69]) sample_dst)
      = (SysExit 1, w') /\
    stderr w' = b /\
    created (trace w') = [lit "a.txt"] /\
    disk w' = <[lit "a.txt" := [x68; x69; x0a]]> ∅.
Proof.
  apply (C4_zero_name_length [(lit "a.txt", [x68; x69; x0a])] [x00; x00; x00; x00]
           (be_digits 8 2 ++ [x68; x69])
           (set_stdin (archive_of [(lit "a.txt", [x68; x69; x0a])]
                       ++ [x00; x00; x00; x00] ++ be_digits 8 2 ++ [x68; x69]) sample_dst)).
  - apply fresh_world_wf.
  - sample_list.
  - reflexivity.
  - reflexivity.
  - reflexivity.
Defined.

Lemma C5_truncated_content_witness :
  exists b w',
    diagnostic (lit "corrupted archive (unexpected EOF in file data)") = Some b /\
    extract_archive
      (set_stdin (be_digits 4 1 ++ [x61] ++ be_digits 8 100 ++ repeat x2a 40) sample_dst)
      = (SysExit 1, w') /\
    stderr w' = b /\
    created (trace w') = [lit "a"] /\
    disk w' !! lit "a" = Some (repeat x2a 40) /\
    fds w' = ∅.
Proof.
  apply (C5_truncated_content [] (be_digits 4 1) [x61] (be_digits 8 100) (repeat x2a 40)
           (lit "a")
           (set_stdin (be_digits 4 1 ++ [x61] ++ be_digits 8 100 ++ repeat x2a 40) sample_dst)).
  - apply fresh_world_wf.
  - apply List.Forall_nil.
  - reflexivity.
  - reflexivity.
  - reflexivity.
  - reflexivity.
  - reflexivity.
  - reflexivity.
  - vm_compute. reflexivity.
  - reflexivity.
Defined.

Lemma C6_source_cut_short_witness :
  exists b w' evs,
    diagnostic (lit "unexpected EOF reading '" ++ lit "log" ++ lit "'") = Some b /\
    (exists pre post, b = pre ++ [x6c; x6f; x67] ++ post) /\
    create_archive_body (lit "log") shrunk_src = (SysExit 1, w') /\
    (forall rest, create_archive (lit "log" :: rest) shrunk_src = (SysExit 1, w')) /\
    stderr w' = b /\
    trace w' = EvOpen (lit "log") 3 :: evs ++ [EvClose 3; EvWrite 2 b] /\
    fds w' !! 3%nat = None /\
    fds w' = ∅.
Proof.
  apply (C6_source_cut_short (lit "log") 10 [x01; x02; x03; x04] [x6c; x6f; x67] shrunk_src).
  - apply fresh_world_wf.
  - vm_compute. reflexivity.
  - vm_compute. reflexivity.
  - vm_compute. reflexivity.
  - lia.
  - vm_compute. reflexivity.
Defined.

Lemma C7_size_never_negative_witness :
  (int_from_bytes (repeat xff 8) <? 0) = false /\
  0 <= int_from_bytes (repeat xff 8) < 2 ^ 64.
Proof.
  split.
  - apply (C7_size_never_negative (repeat xff 8)).
  - apply (C7_size_never_negative (repeat xff 8)). reflexivity.
Defined.

Lemma C8_empty_file_witness :
  exists src' dst',
    create_archive_body (lit "e") empty_src = (Ret tt, src') /\
    stdout src' = be_digits 4 1 ++ [x65] ++ be_digits 8 0 /\
    int_from_bytes (be_digits 8 0) = 0 /\
    trace src' = [EvOpen (lit "e") 3; EvWrite 1 (be_digits 4 1); EvWrite 1 [x65];
                  EvWrite 1 (be_digits 8 0); EvClose 3] /\
    (forall fuel fd, create_copy_loop fuel (lit "e") fd 0 = ret tt) /\
    (forall fuel in_fd out_fd, extract_copy_loop fuel in_fd out_fd 0 = ret tt) /\
    extract_archive (set_stdin (be_digits 4 1 ++ [x65] ++ be_digits 8 0) sample_dst)
      = (Ret tt, dst') /\
    disk dst' !! lit "e" = Some [] /\
    created (trace dst') = [lit "e"].
Proof.
  apply (C8_empty_file (lit "e") [] [x65] empty_src sample_dst).
  - apply fresh_world_wf.
  - vm_compute. reflexivity.
  - vm_compute. reflexivity.
  - vm_compute. reflexivity.
  - vm_compute. discriminate.
  - apply fresh_world_wf.
  - reflexivity.
Defined.

Lemma C9_bounded_chunks_witness :
  (exists evs,
     trace (snd (create_copy_loop 4501 (lit "big") 3 4500
                   (after_header (lit "big") [x62; x69; x67] 4500 (repeat x2a 4500) sample_src)))
       = trace (after_header (lit "big") [x62; x69; x67] 4500 (repeat x2a 4500) sample_src)
         ++ evs /\
     chunked 3 1 4500 evs /\
     len (copied 1 evs) = Z.max 0 4500 /\
     Forall (copy_event 4500) evs /\ Forall within_buffer evs) /\
  (4096 <= Z.min 4096 4500 /\ len (repeat x2a 4096) <= 4096).
Proof.
  split.
  - destruct (proj1 C9_bounded_chunks 4501%nat (lit "big") 3%nat 4500
                (after_header (lit "big") [x62; x69; x67] 4500 (repeat x2a 4500) sample_src))
      as (evs & Ht & Hch & Hret).
    exists evs. split; [exact Ht|]. split; [exact Hch|].
    split; [apply Hret; vm_compute; reflexivity|].
    apply (proj1 (proj2 (proj2 C9_bounded_chunks)) 3%nat 1%nat 4500 evs Hch).
  - apply (proj2 (proj2 (proj2 C9_bounded_chunks)) 4500 3%nat 4096 (repeat x2a 4096)).
    vm_compute. split; discriminate.
Defined.

Lemma C10_read_exact_witness :
  exists data w',
    read_exact 0 4 (fresh_world ∅ false [x01; x02; x03; x04; x05; x06] [0; 1]%nat)
      = (Ret data, w') /\
    data = [x01; x02; x03; x04] /\
    pending_of 0 w' = Some [x05; x06] /\
    [x01; x02; x03; x04; x05; x06] = data ++ [x05; x06] /\
    len data = 4 /\
    (0 <= 4 -> len data = 4 /\ len data <= 4).
Proof.
  apply (C10_read_exact 0 4 (fresh_world ∅ false [x01; x02; x03; x04; x05; x06] [0; 1]%nat)
           [x01; x02; x03; x04; x05; x06]).
  reflexivity.
Defined.

(** * Lemmas for the further properties *)

(** ** Decoding a name, then encoding it *)

Lemma byte_of_val' (b : byte) (z : Z) : z = byte_val b -> byte_of z = b.
Proof. intros ->. apply byte_of_val. Qed.

Lemma utf8_encode_decode_le (n : nat) :
  forall (bs : bytes) (s : str),
  (length bs <= n)%nat -> utf8_decode bs = Some s -> utf8_encode s = Some bs.
Proof.
  induction n as [|n IH]; intros bs s Hlen.
  { destruct bs; [|simpl in Hlen; lia]. intros [= <-]. reflexivity. }
  destruct bs as [|b0 r0]; [intros [= <-]; reflexivity|].
  cbn [utf8_decode]. cbn [length] in Hlen.
  pose proof (byte_val_range b0) as H0.
  destruct (Z.ltb_spec (byte_val b0) 0x80) as [Ha|Ha].
  { destruct (utf8_decode r0) as [s'|] eqn:Hr; [|discriminate]. intros [= <-].
    cbn [utf8_encode]. rewrite (IH r0 s' ltac:(lia) Hr).
    unfold utf8_encode_cp.
    destruct (Z.ltb_spec (byte_val b0) 0); [lia|].
    destruct (Z.ltb_spec (byte_val b0) 0x80); [|lia].
    rewrite byte_of_val. reflexivity. }
  destruct (Z.ltb_spec (byte_val b0) 0xC2) as [Hb|Hb]; [discriminate|].
  destruct (Z.ltb_spec (byte_val b0) 0xE0) as [Hc|Hc].
  { destruct r0 as [|b1 r1]; [discriminate|].
    destruct (is_cont b1) eqn:Hc1; [|discriminate].
    destruct (utf8_decode r1) as [s'|] eqn:Hr; [|discriminate]. intros [= <-].
    cbn [length] in Hlen.
    cbn [utf8_encode]. rewrite (IH r1 s' ltac:(lia) Hr).
    unfold is_cont in Hc1. apply andb_prop in Hc1 as [H1 H2].
    apply Z.leb_le in H1. apply Z.ltb_lt in H2. unfold cont_bits.
    set (c := (byte_val b0 - 192) * 64 + (byte_val b1 - 128)).
    assert (Hq : c / 64 = byte_val b0 - 192 /\ c mod 64 = byte_val b1 - 128)
      by (subst c; Z.div_mod_to_equations; lia).
    destruct Hq as [Hq Hm].
    unfold utf8_encode_cp.
    destruct (Z.ltb_spec c 0); [lia|].
    destruct (Z.ltb_spec c 0x80); [lia|].
    destruct (Z.ltb_spec c 0x800); [|lia].
    rewrite Hq, Hm, (byte_of_val' b0), (byte_of_val' b1) by lia. reflexivity. }
  destruct (Z.ltb_spec (byte_val b0) 0xF0) as [Hd|Hd].
  { destruct r0 as [|b1 [|b2 r2]]; try discriminate.
    match goal with |- (if ?cond then _ else _) = _ -> _ => destruct cond eqn:Hcond end;
      [|discriminate].
    destruct (utf8_decode r2) as [s'|] eqn:Hr; [|discriminate]. intros [= <-].
    cbn [length] in Hlen.
    cbn [utf8_encode]. rewrite (IH r2 s' ltac:(lia) Hr).
    repeat (apply andb_prop in Hcond as [Hcond ?]).
    unfold is_cont in *. 
    repeat match goal with
           | H : andb _ _ = true |- _ => apply andb_prop in H as [? ?]
           | H : (_ <=? _) = true |- _ => apply Z.leb_le in H
           | H : (_ <? _) = true |- _ => apply Z.ltb_lt in H
           end.
    unfold cont_bits in *.
    set (c := (byte_val b0 - 224) * 4096 + (byte_val b1 - 128) * 64 + (byte_val b2 - 128)) in *.
    assert (Hq : c / 4096 = byte_val b0 - 224 /\ (c / 64) mod 64 = byte_val b1 - 128
                 /\ c mod 64 = byte_val b2 - 128)
      by (subst c; Z.div_mod_to_equations; lia).
    destruct Hq as (Hq & Hm1 & Hm2).
    unfold utf8_encode_cp.
    destruct (Z.ltb_spec c 0); [lia|].
    destruct (Z.ltb_spec c 0x80); [lia|].
    destruct (Z.ltb_spec c 0x800); [lia|].
    destruct (Z.ltb_spec c 0x10000); [|subst c; lia].
    match goal with H : negb ?x = true |- _ => destruct x; [discriminate|] end.
    rewrite Hq, Hm1, Hm2, (byte_of_val' b0), (byte_of_val' b1), (byte_of_val' b2) by lia.
    reflexivity. }
  destruct (Z.ltb_spec (byte_val b0) 0xF5) as [He|He]; [|discriminate].
  destruct r0 as [|b1 [|b2 [|b3 r3]]]; try discriminate.
  match goal with |- (if ?cond then _ else _) = _ -> _ => destruct cond eqn:Hcond end;
    [|discriminate].
  destruct (utf8_decode r3) as [s'|] eqn:Hr; [|discriminate]. intros [= <-].
  cbn [length] in Hlen.
  cbn [utf8_encode]. rewrite (IH r3 s' ltac:(lia) Hr).
  repeat (apply andb_prop in Hcond as [Hcond ?]).
  unfold is_cont in *.
  repeat match goal with
         | H : andb _ _ = true |- _ => apply andb_prop in H as [? ?]
         | H : (_ <=? _) = true |- _ => apply Z.leb_le in H
         | H : (_ <? _) = true |- _ => apply Z.ltb_lt in H
         end.
  unfold cont_bits in *.
  set (c := (byte_val b0 - 240) * 262144 + (byte_val b1 - 128) * 4096
            + (byte_val b2 - 128) * 64 + (byte_val b3 - 128)) in *.
  assert (Hq : c / 262144 = byte_val b0 - 240 /\ (c / 4096) mod 64 = byte_val b1 - 128
               /\ (c / 64) mod 64 = byte_val b2 - 128 /\ c mod 64 = byte_val b3 - 128)
    by (subst c; Z.div_mod_to_equations; lia).
  destruct Hq as (Hq & Hm1 & Hm2 & Hm3).
  unfold utf8_encode_cp.
  destruct (Z.ltb_spec c 0); [lia|].
  destruct (Z.ltb_spec c 0x80); [lia|].
  destruct (Z.ltb_spec c 0x800); [lia|].
  destruct (Z.ltb_spec c 0x10000); [lia|].
  destruct (Z.ltb_spec c 0x110000); [|lia].
  rewrite Hq, Hm1, Hm2, Hm3, (byte_of_val' b0), (byte_of_val' b1), (byte_of_val' b2),
    (byte_of_val' b3) by lia.
  reflexivity.
Qed.

Lemma utf8_encode_decode (bs : bytes) (s : str) :
  utf8_decode bs = Some s -> utf8_encode s = Some bs.
Proof. apply (utf8_encode_decode_le (length bs)). lia. Qed.

Lemma be_digits_int_from_bytes (bs : bytes) :
  be_digits (length bs) (int_from_bytes bs) = bs.
Proof.
  induction bs as [|b bs IH] using rev_ind; [reflexivity|].
  rewrite length_app, Nat.add_comm. cbn [length Nat.add be_digits].
  rewrite int_from_bytes_snoc. pose proof (byte_val_range b).
  replace ((int_from_bytes bs * 256 + byte_val b) / 256) with (int_from_bytes bs)
    by (Z.div_mod_to_equations; lia).
  replace ((int_from_bytes bs * 256 + byte_val b) mod 256) with (byte_val b)
    by (Z.div_mod_to_equations; lia).
  rewrite IH, byte_of_val. reflexivity.
Qed.

(** ** One iteration of the decoder *)

Lemma read_exact_stdin_take (n : Z) (w : world) :
  exists w',
    read_exact 0 n w = (Ret (take (Z.to_nat n) (stdin w)), w') /\
    erase w' = erase (set_stdin (drop (Z.to_nat n) (stdin w)) w) /\
    created (trace w') = created (trace w).
Proof.
  destruct (read_exact_spec 0 n w (stdin w) eq_refl) as (w' & Hrd & He).
  exists w'. repeat split; [exact Hrd|exact He|].
  pose proof (emits_created _ w (read_exact_not_create 0 n)) as Hc.
  rewrite Hrd in Hc. exact Hc.
Qed.

Lemma die_erase {A} (msg : str) (b : bytes) (w : world) :
  diagnostic msg = Some b ->
  exists w',
    @die A msg w = (SysExit 1, w') /\
    erase w' = erase (set_stderr (stderr w ++ b) w) /\
    created (trace w') = created (trace w).
Proof.
  intros Hb. rewrite (die_spec _ _ _ Hb). eexists. split; [reflexivity|].
  split; [reflexivity|]. cbn [trace log set_stderr]. rewrite created_app.
  cbn [created flat_map]. apply app_nil_r.
Qed.

Lemma die_fails_with (s : string) (rest : bytes) (w w0 : world) :
  erase w0 = erase (set_stdin rest w) ->
  created (trace w0) = created (trace w) ->
  fails_with (lit s) rest w (@die unit (lit s) w0).
Proof.
  intros He Hc. destruct (diagnostic_lit s) as [b Hb].
  destruct (@die_erase unit _ b w0 Hb) as (w' & Hdie & He' & Hc').
  exists b. rewrite Hdie. cbn [fst snd]. split; [exact Hb|]. split; [reflexivity|].
  split; [|congruence]. rewrite He'. erase_split He. erase_fields.
Qed.

Lemma extract_loop_step (fuel : nat) (w : world) :
  fd_wf w ->
  step_agrees fuel w (scan_record (creatable w) (stdin w)) (extract_loop (S fuel) 0 w).
Proof.
  intros Hwf. unfold scan_record. cbn [extract_loop].
  destruct (read_exact_stdin_take 4 w) as (w1 & Hr1 & He1 & Hc1).
  change (Z.to_nat 4) with 4%nat in *.
  rewrite (bind_Ret _ _ _ _ _ Hr1).
  set (p := stdin w) in *. set (raw_len := take 4 p) in *.
  destruct (Z.eqb_spec (len raw_len) 0) as [H0|H0].
  { unfold step_agrees, ret. cbn [fst snd].
    split; [reflexivity|]. split; [|exact Hc1]. rewrite He1.
    assert (Hp : p = []).
    { unfold len, raw_len in H0. rewrite length_take in H0.
      destruct p; [reflexivity|simpl in H0; lia]. }
    rewrite Hp, drop_nil. erase_fields. exact (eq_sym Hp). }
  destruct (Z.ltb_spec (len raw_len) 4) as [H4|H4].
  { cbn [step_agrees]; apply die_fails_with; [|exact Hc1]. rewrite He1. f_equal. f_equal.
    apply drop_ge. unfold len, raw_len in H4. rewrite length_take in H4. lia. }
  assert (Hl4 : length raw_len = 4%nat).
  { unfold len, raw_len in *. rewrite length_take in *. lia. }
  destruct (Z.leb_spec (int_from_bytes raw_len) 0) as [Hn0|Hn0].
  { cbn [step_agrees]; apply die_fails_with; assumption. }
  set (name_len := int_from_bytes raw_len) in *.
  destruct (read_exact_stdin_take name_len w1) as (w2 & Hr2 & He2 & Hc2).
  assert (Hin1 : stdin w1 = drop 4 p) by (erase_split He1; exact Hstdin).
  rewrite Hin1 in Hr2, He2. rewrite (bind_Ret _ _ _ _ _ Hr2).
  set (name_bytes := take (Z.to_nat name_len) (drop 4 p)) in *.
  set (s2 := drop (Z.to_nat name_len) (drop 4 p)) in *.
  assert (He2' : erase w2 = erase (set_stdin s2 w)).
  { rewrite He2. erase_split He1. erase_fields. }
  assert (Hc2' : created (trace w2) = created (trace w)) by congruence.
  clear He1 He2 Hc1 Hc2 Hin1 Hr1 Hr2.
  destruct (Z.ltb_spec (len name_bytes) name_len) as [Hnb|Hnb].
  { cbn [step_agrees]; apply die_fails_with; assumption. }
  destruct (utf8_decode name_bytes) as [name|] eqn:Hname.
  2:{ cbn [step_agrees]; apply die_fails_with; assumption. }
  destruct (read_exact_stdin_take 8 w2) as (w3 & Hr3 & He3 & Hc3).
  change (Z.to_nat 8) with 8%nat in *.
  assert (Hin2 : stdin w2 = s2) by (erase_split He2'; exact Hstdin).
  rewrite Hin2 in Hr3, He3. rewrite (bind_Ret _ _ _ _ _ Hr3).
  set (raw_size := take 8 s2) in *. set (s3 := drop 8 s2) in *.
  assert (He3' : erase w3 = erase (set_stdin s3 w)).
  { rewrite He3. erase_split He2'. erase_fields. }
  assert (Hc3' : created (trace w3) = created (trace w)) by congruence.
  clear He2' He3 Hc2' Hc3 Hin2 Hr3.
  destruct (Z.ltb_spec (len raw_size) 8) as [H8|H8].
  { cbn [step_agrees]; apply die_fails_with; assumption. }
  destruct (Z.ltb_spec (int_from_bytes raw_size) 0) as [Hsz|Hsz].
  { cbn [step_agrees]; apply die_fails_with; assumption. }
  set (size := int_from_bytes raw_size) in *.
  assert (Hlnb : length name_bytes = Z.to_nat name_len).
  { unfold len, name_bytes in *. rewrite length_take in *. lia. }
  assert (Hl8 : length raw_size = 8%nat).
  { unfold len, raw_size in *. rewrite length_take in *. lia. }
  assert (Hstream : p = raw_len ++ name_bytes ++ raw_size ++ s3).
  { unfold raw_len, name_bytes, raw_size, s3, s2. rewrite !take_drop. reflexivity. }
  destruct Hwf as [Hge Hfree].
  pose proof He3' as He3''. erase_split He3''.
  destruct (creatable w name) eqn:Hcr.
  2:{ assert (Hcr3 : creatable w3 name = false) by (rewrite Hcreatable; exact Hcr).
      pose proof (os_open_create_fails name w3 Hcr3) as Hopen.
      destruct (has_nul name).
      { rewrite (bind_Raised _ _ _ _ _ (except_ValueError _ _ _ _ Hopen)).
        cbn [step_agrees fst snd]. split; [reflexivity|]. split; [|exact Hc3'].
        rewrite He3'. reflexivity. }
      unfold bind at 1. rewrite (except_OSError_caught _ _ _ _ Hopen).
      destruct (diagnostic_quoted "cannot create output file '" "'" name name_bytes
                  (utf8_encode_decode _ _ Hname)) as [b Hb].
      destruct (@die_erase nat _ b w3 Hb) as (w' & Hdie & He' & Hc').
      rewrite Hdie. cbn [step_agrees]. exists b. cbn [fst snd].
      split; [exact Hb|]. split; [reflexivity|].
      split; [|congruence]. rewrite He'. erase_fields. }
  set (fd := next_fd w) in *.
  remember (log (EvCreate name fd)
              (set_next_fd (S fd) (set_fds (<[fd := WrH name]> (fds w3))
                 (set_disk (<[name := []]> (disk w3)) w3)))) as w4 eqn:Ew4.
  assert (Hopen : os_open_create name w3 = (Ret fd, w4))
    by (unfold os_open_create; rewrite Hcreatable, Hcr, Hnext, Ew4; reflexivity).
  rewrite (bind_Ret _ _ _ _ _ (except_Ret _ _ _ _ _ Hopen)).
  assert (He4 : erase w4 = erase (set_next_fd (S fd) (set_fds (<[fd := WrH name]> (fds w))
                   (set_stdin s3 (set_disk (<[name := []]> (disk w)) w)))))
    by (subst w4; erase_fields).
  assert (Hc4 : created (trace w4) = created (trace w) ++ [name]).
  { subst w4. cbn [trace log set_next_fd set_fds set_disk]. rewrite created_app.
    cbn [created flat_map app]. congruence. }
  clear Ew4 Hopen Hreadable Hcreatable Hdisk Hstdin Hstdout Hstderr Hfds Hnext He3' Hc3'.
  erase_split He4.
  assert (Hav : avail 0 w4 = length s3)
    by (unfold avail; change (pending_of 0 w4) with (Some (stdin w4)); rewrite Hstdin; reflexivity).
  unfold bind at 1. rewrite Hav.
  destruct (extract_copy_loop_spec fd name (S (length s3)) size w4 []) as [Hok Heof].
  { exact Hge. } { rewrite Hfds. apply lookup_insert_eq. }
  { rewrite Hdisk. apply lookup_insert_eq. } { rewrite Hstdin. lia. }
  rewrite Hstdin in Hok, Heof.
  pose proof (emits_created _ w4 (emits_weaken _ not_create _ (copy_event_not_create size)
                (extract_copy_loop_bounded 0 fd (S (length s3)) size))) as Hc5.
  destruct (Z.ltb_spec (len s3) size) as [Hgt|Hle].
  - destruct (diagnostic_lit "corrupted archive (unexpected EOF in file data)") as [b Hb].
    destruct (Heof Hgt b Hb) as (w5 & evs & Hloop & He5 & _).
    rewrite Hloop in Hc5. rewrite Hloop. cbn [snd] in Hc5. cbn [step_agrees]. exists b.
    split; [exact Hb|]. split; [reflexivity|]. cbn [snd]. split; [|congruence].
    rewrite He5. erase_fields.
    + rewrite Hdisk, insert_insert_eq. reflexivity.
    + rewrite Hfds, delete_insert_eq. apply delete_id, Hfree. lia.
    + exact Hnext.
  - destruct (Hok Hle) as (w5 & Hloop & He5). rewrite Hloop in Hc5. rewrite Hloop.
    cbn [snd] in Hc5.
    assert (Hh5 : fds w5 !! fd = Some (WrH name)).
    { erase_split He5. rewrite Hfds0, Hfds. apply lookup_insert_eq. }
    rewrite (bind_Ret _ _ _ _ _ (os_close_spec _ _ w5 Hh5)).
    cbn [step_agrees]. eexists. split; [reflexivity|]. split; [|split].
    + erase_split He5. erase_fields.
      * rewrite Hdisk0, Hdisk, insert_insert_eq. reflexivity.
      * rewrite Hfds0, Hfds, delete_insert_eq. apply delete_id, Hfree. lia.
      * rewrite Hnext0. exact Hnext.
    + cbn [trace log set_fds]. rewrite created_app. cbn [created flat_map].
      rewrite app_nil_r. congruence.
    + fold p. rewrite Hstream, !length_app, length_drop, Hl4. lia.
Qed.

(** ** The decoder and the one-pass reading *)

Lemma scan_record_end (cc : str -> bool) (s : bytes) : scan_record cc s = VEnd -> s = [].
Proof.
  unfold scan_record.
  destruct (Z.eqb_spec (len (take 4 s)) 0) as [H0|H0].
  - intros _. unfold len in H0. rewrite length_take in H0.
    destruct s; [reflexivity|simpl in H0; lia].
  - repeat match goal with
           | |- context [if ?c then _ else _] => destruct c
           | |- context [match ?c with Some _ => _ | None => _ end] => destruct c
           end; discriminate.
Qed.

Lemma after_scan_erase (r : scan) (w v : world) :
  erase w = erase v -> erase (after_scan r w) = erase (after_scan r v).
Proof. intros H. erase_split H. unfold after_scan. erase_fields. Qed.

Lemma extract_loop_scan (fuel : nat) :
  forall w : world,
  fd_wf w -> (length (stdin w) < fuel)%nat ->
  let r := scan_stream fuel (creatable w) (stdin w) in
  exists w',
    extract_loop fuel 0 w = (scan_outcome r, w') /\
    erase w' = erase (after_scan r w) /\
    created (trace w') = created (trace w) ++ map fst (scanned r) /\
    (forall msg, failure r = Some (Said msg) -> is_Some (diagnostic msg)).
Proof.
  induction fuel as [|fuel IH]; intros w Hwf Hfuel; [lia|].
  cbn [scan_stream]. pose proof (extract_loop_step fuel w Hwf) as Hstep.
  destruct (scan_record (creatable w) (stdin w))
    as [|msg rest|e rest|name data msg|name data rest] eqn:Hv;
    cbn [step_agrees] in Hstep; cbn zeta.
  - destruct Hstep as (Ho & He & Hc). apply scan_record_end in Hv.
    destruct (extract_loop (S fuel) 0 w) as [o w']. cbn [fst snd] in *. subst o.
    exists w'. split; [reflexivity|]. split; [|split].
    + rewrite He. unfold after_scan. cbn [scanned failure unread length foldl].
      rewrite Nat.add_0_r, app_nil_r. erase_fields.
    + cbn [scanned map]. rewrite app_nil_r. exact Hc.
    + discriminate.
  - destruct Hstep as (b & Hb & Ho & He & Hc).
    destruct (extract_loop (S fuel) 0 w) as [o w']. cbn [fst snd] in *. subst o.
    exists w'. split; [reflexivity|]. split; [|split].
    + rewrite He. unfold after_scan. cbn [scanned failure unread length foldl].
      rewrite Hb, Nat.add_0_r. erase_fields.
    + cbn [scanned map]. rewrite app_nil_r. exact Hc.
    + cbn [failure]. intros ? [= <-]. eauto.
  - destruct Hstep as (Ho & He & Hc).
    destruct (extract_loop (S fuel) 0 w) as [o w']. cbn [fst snd] in *. subst o.
    exists w'. split; [reflexivity|]. split; [|split].
    + rewrite He. unfold after_scan. cbn [scanned failure unread length foldl].
      rewrite Nat.add_0_r, app_nil_r. erase_fields.
    + cbn [scanned map]. rewrite app_nil_r. exact Hc.
    + discriminate.
  - destruct Hstep as (b & Hb & Ho & He & Hc).
    destruct (extract_loop (S fuel) 0 w) as [o w']. cbn [fst snd] in *. subst o.
    exists w'. split; [reflexivity|]. split; [|split].
    + rewrite He. unfold after_scan. cbn [scanned failure unread length foldl fst snd].
      rewrite Hb. erase_fields. lia.
    + exact Hc.
    + cbn [failure]. intros ? [= <-]. eauto.
  - destruct Hstep as (w1 & Hrun & He & Hc & Hlen). rewrite Hrun.
    pose proof (fd_wf_erase _ _ (eq_sym He)) as Hwf1. erase_split He.
    destruct (IH w1) as (w' & Hrun' & He' & Hc' & Hd').
    { apply Hwf1. destruct Hwf as [H3 Hfree]. split; cbn; [lia|]. intros k Hk. apply Hfree. lia. }
    { rewrite Hstdin. lia. }
    rewrite Hcreatable, Hstdin in *.
    set (r := scan_stream fuel (creatable w) rest) in *.
    exists w'. split; [exact Hrun'|]. split; [|split].
    + rewrite He'. unfold after_scan. cbn [scanned failure unread length foldl fst snd].
      erase_fields. rewrite Hnext. lia.
    + cbn [scanned map fst]. rewrite Hc', Hc, <- app_assoc. reflexivity.
    + exact Hd'.
Qed.

Lemma erase_wf (w v : world) : erase w = erase v -> fd_wf w -> fd_wf v.
Proof. apply fd_wf_erase. Qed.

(** ** The decoder after a prefix of complete records *)

Lemma extract_archive_after_prefix (files : list (str * bytes)) (tail : bytes) (w : world) :
  fd_wf w ->
  Forall (fun f => archivable f /\ creatable w f.1 = true) files ->
  stdin w = archive_of files ++ tail ->
  exists fuel w1,
    extract_archive w = extract_loop (S fuel) 0 w1 /\
    fd_wf w1 /\
    erase w1 = erase (set_next_fd (next_fd w + length files)
                        (set_stdin tail
                           (set_disk (foldl (fun d f => <[f.1 := f.2]> d) (disk w) files) w))) /\
    created (trace w1) = created (trace w) ++ map fst files.
Proof.
  intros Hwf Hfiles Hin.
  destruct (extract_archive_fuel files tail w Hin) as [fuel Hfuel].
  destruct (extract_loop_prefix files (S fuel) w tail Hwf Hfiles Hin) as (w1 & Hrun & He & Hc).
  exists fuel, w1. unfold extract_archive. rewrite Hfuel. split; [exact Hrun|].
  split; [|split; assumption].
  apply (fd_wf_erase _ _ (eq_sym He)). destruct Hwf as [H3 Hfree].
  split; cbn; [lia|]. intros k Hk. apply Hfree. lia.
Qed.

Lemma extract_archive_tail_fails (files : list (str * bytes)) (tail : bytes)
    (msg : str) (rest : bytes) (w : world) :
  fd_wf w ->
  Forall (fun f => archivable f /\ creatable w f.1 = true) files ->
  stdin w = archive_of files ++ tail ->
  scan_record (creatable w) tail = VFail msg rest ->
  exists b w',
    diagnostic msg = Some b /\
    extract_archive w = (SysExit 1, w') /\
    stderr w' = stderr w ++ b /\
    created (trace w') = created (trace w) ++ map fst files /\
    disk w' = foldl (fun d f => <[f.1 := f.2]> d) (disk w) files /\
    fds w' = fds w.
Proof.
  intros Hwf Hfiles Hin Hscan.
  destruct (extract_archive_after_prefix files tail w Hwf Hfiles Hin)
    as (fuel & w1 & Hrun & Hwf1 & He & Hc).
  pose proof (extract_loop_step fuel w1 Hwf1) as Hstep. erase_split He.
  rewrite Hcreatable, Hstdin, Hscan in Hstep. cbn [step_agrees] in Hstep.
  destruct Hstep as (b & Hb & Ho & He' & Hc').
  rewrite Hrun. destruct (extract_loop (S fuel) 0 w1) as [o w']. cbn [fst snd] in *. subst o.
  exists b, w'. erase_split He'. repeat split; congruence.
Qed.

Lemma scan_record_name (cc : str -> bool) (raw_len name_bytes s2 : bytes) :
  length raw_len = 4%nat -> int_from_bytes raw_len = len name_bytes -> 0 < len name_bytes ->
  scan_record cc (raw_len ++ name_bytes ++ s2) =
  match utf8_decode name_bytes with
  | None => VFail (lit "corrupted archive (filename encoding)") s2
  | Some name =>
      if len (take 8 s2) <? 8 then
        VFail (lit "corrupted archive (incomplete file size)") (drop 8 s2)
      else if cc name then
        if len (drop 8 s2) <? int_from_bytes (take 8 s2) then
          VCut name (drop 8 s2) (lit "corrupted archive (unexpected EOF in file data)")
        else VFile name (take (Z.to_nat (int_from_bytes (take 8 s2))) (drop 8 s2))
                   (drop (Z.to_nat (int_from_bytes (take 8 s2))) (drop 8 s2))
      else if has_nul name then VRaise ValueError (drop 8 s2)
      else VFail (lit "cannot create output file '" ++ name ++ lit "'") (drop 8 s2)
  end.
Proof.
  intros Hl4 Hnl Hpos. unfold scan_record.
  rewrite (take_app_length' raw_len _ 4), (drop_app_length' raw_len _ 4), Hnl by congruence.
  replace (len raw_len) with 4 by (unfold len; lia).
  change (4 =? 0) with false. change (4 <? 4) with false. cbv iota.
  destruct (Z.leb_spec (len name_bytes) 0); [lia|].
  replace (Z.to_nat (len name_bytes)) with (length name_bytes) by (unfold len; lia).
  rewrite take_app_length, drop_app_length.
  rewrite Z.ltb_irrefl.
  destruct (utf8_decode name_bytes); [|reflexivity].
  destruct (len (take 8 s2) <? 8); [reflexivity|].
  pose proof (int_from_bytes_range (take 8 s2)).
  destruct (Z.ltb_spec (int_from_bytes (take 8 s2)) 0); [lia|]. reflexivity.
Qed.

(** * Further properties of the decoder *)

(** X1 (name cut short).  After any number of complete records, a name
    length followed by fewer bytes than it announces makes the decoder exit
    with status 1 and the line "corrupted archive (incomplete filename)";
    nothing is created for that record and no descriptor stays open. *)
Theorem extract_incomplete_filename (files : list (str * bytes)) (raw_len part : bytes)
    (w : world) :
  fd_wf w ->
  Forall (fun f => archivable f /\ creatable w f.1 = true) files ->
  stdin w = archive_of files ++ raw_len ++ part ->
  length raw_len = 4%nat -> len part < int_from_bytes raw_len ->
  exists b w',
    diagnostic (lit "corrupted archive (incomplete filename)") = Some b /\
    extract_archive w = (SysExit 1, w') /\
    stderr w' = stderr w ++ b /\
    created (trace w') = created (trace w) ++ map fst files /\
    disk w' = foldl (fun d f => <[f.1 := f.2]> d) (disk w) files /\
    fds w' = fds w.
Proof.
  intros Hwf Hfiles Hin Hl4 Hshort.
  apply (extract_archive_tail_fails files (raw_len ++ part) _ [] w Hwf Hfiles Hin).
  unfold scan_record.
  rewrite (take_app_length' raw_len _ 4), (drop_app_length' raw_len _ 4) by congruence.
  replace (len raw_len) with 4 by (unfold len; lia).
  change (4 =? 0) with false. change (4 <? 4) with false. cbv iota.
  pose proof (len_nonneg part).
  destruct (Z.leb_spec (int_from_bytes raw_len) 0); [lia|].
  unfold len in *. rewrite take_ge, drop_ge by lia.
  destruct (Z.ltb_spec (Z.of_nat (length part)) (int_from_bytes raw_len)); [reflexivity|lia].
Qed.

(** X2 (name that is not UTF-8).  After any number of complete records, a
    complete name that does not decode as UTF-8 makes the decoder exit with
    status 1 and the line "corrupted archive (filename encoding)", whatever
    follows; nothing is created for that record. *)
Theorem extract_bad_name_encoding (files : list (str * bytes))
    (raw_len name_bytes rest : bytes) (w : world) :
  fd_wf w ->
  Forall (fun f => archivable f /\ creatable w f.1 = true) files ->
  stdin w = archive_of files ++ raw_len ++ name_bytes ++ rest ->
  length raw_len = 4%nat -> int_from_bytes raw_len = len name_bytes ->
  0 < len name_bytes -> utf8_decode name_bytes = None ->
  exists b w',
    diagnostic (lit "corrupted archive (filename encoding)") = Some b /\
    extract_archive w = (SysExit 1, w') /\
    stderr w' = stderr w ++ b /\
    created (trace w') = created (trace w) ++ map fst files /\
    disk w' = foldl (fun d f => <[f.1 := f.2]> d) (disk w) files /\
    fds w' = fds w.
Proof.
  intros Hwf Hfiles Hin Hl4 Hnl Hpos Hdec.
  apply (extract_archive_tail_fails files _ _ rest w Hwf Hfiles Hin).
  rewrite (scan_record_name _ _ _ _ Hl4 Hnl Hpos), Hdec. reflexivity.
Qed.

(** X3 (size cut short).  After any number of complete records, a complete
    and valid name followed by fewer than eight bytes makes the decoder exit
    with status 1 and the line "corrupted archive (incomplete file size)";
    the file of that record is not created. *)
Theorem extract_incomplete_size (files : list (str * bytes))
    (raw_len name_bytes part : bytes) (name : str) (w : world) :
  fd_wf w ->
  Forall (fun f => archivable f /\ creatable w f.1 = true) files ->
  stdin w = archive_of files ++ raw_len ++ name_bytes ++ part ->
  length raw_len = 4%nat -> int_from_bytes raw_len = len name_bytes ->
  0 < len name_bytes -> utf8_decode name_bytes = Some name ->
  (length part < 8)%nat ->
  exists b w',
    diagnostic (lit "corrupted archive (incomplete file size)") = Some b /\
    extract_archive w = (SysExit 1, w') /\
    stderr w' = stderr w ++ b /\
    created (trace w') = created (trace w) ++ map fst files /\
    disk w' = foldl (fun d f => <[f.1 := f.2]> d) (disk w) files /\
    fds w' = fds w.
Proof.
  intros Hwf Hfiles Hin Hl4 Hnl Hpos Hdec Hshort.
  apply (extract_archive_tail_fails files _ _ (drop 8 part) w Hwf Hfiles Hin).
  rewrite (scan_record_name _ _ _ _ Hl4 Hnl Hpos), Hdec.
  destruct (Z.ltb_spec (len (take 8 part)) 8) as [_|H8]; [reflexivity|].
  unfold len in H8. rewrite length_take in H8. lia.
Qed.

(** X4 (file that cannot be created).  After any number of complete
    records, a complete header whose path cannot be created and has no NUL
    character in it (so that the [os.open] of line 112 raises [OSError])
    makes the decoder exit with status 1 and the line "cannot create output
    file '<name>'", which carries the bytes of the name read from the
    stream; the content is not read, nothing is written for that record and
    the files of the records before it stay. *)
Theorem extract_cannot_create (files : list (str * bytes))
    (raw_len name_bytes raw_size rest : bytes) (name : str) (w : world) :
  fd_wf w ->
  Forall (fun f => archivable f /\ creatable w f.1 = true) files ->
  stdin w = archive_of files ++ raw_len ++ name_bytes ++ raw_size ++ rest ->
  length raw_len = 4%nat -> int_from_bytes raw_len = len name_bytes ->
  0 < len name_bytes -> utf8_decode name_bytes = Some name ->
  length raw_size = 8%nat -> creatable w name = false -> has_nul name = false ->
  exists b w',
    diagnostic (lit "cannot create output file '" ++ name ++ lit "'") = Some b /\
    (exists pre post, b = pre ++ name_bytes ++ post) /\
    extract_archive w = (SysExit 1, w') /\
    stderr w' = stderr w ++ b /\
    stdin w' = rest /\
    created (trace w') = created (trace w) ++ map fst files /\
    disk w' = foldl (fun d f => <[f.1 := f.2]> d) (disk w) files /\
    fds w' = fds w.
Proof.
  intros Hwf Hfiles Hin Hl4 Hnl Hpos Hdec Hl8 Hcr Hnul.
  destruct (extract_archive_after_prefix files _ w Hwf Hfiles Hin)
    as (fuel & w1 & Hrun & Hwf1 & He & Hc).
  pose proof (extract_loop_step fuel w1 Hwf1) as Hstep. erase_split He.
  rewrite Hcreatable, Hstdin, (scan_record_name _ _ _ _ Hl4 Hnl Hpos), Hdec in Hstep.
  rewrite (take_app_length' raw_size _ 8), (drop_app_length' raw_size _ 8) in Hstep by congruence.
  replace (len raw_size) with 8 in Hstep by (unfold len; lia).
  change (8 <? 8) with false in Hstep. rewrite Hcr, Hnul in Hstep. cbn [step_agrees] in Hstep.
  destruct Hstep as (b & Hb & Ho & He' & Hc').
  rewrite Hrun. destruct (extract_loop (S fuel) 0 w1) as [o w']. cbn [fst snd] in *. subst o.
  exists b, w'. erase_split He'.
  split; [exact Hb|].
  split; [exact (diagnostic_quoted_shape _ _ _ _ _ (utf8_encode_decode _ _ Hdec) Hb)|].
  repeat split; congruence.
Qed.

(** X21 (name with a NUL character).  After any number of complete
    records, a complete header whose name holds a NUL character, which no
    file system lets create, ends the decoder by the [ValueError] of the
    [os.open] of line 112, which line 113 does not catch: no diagnostic is
    written, the content is not read, nothing is created for that record and
    the files of the records before it stay. *)
Theorem extract_nul_name (files : list (str * bytes))
    (raw_len name_bytes raw_size rest : bytes) (name : str) (w : world) :
  fd_wf w ->
  Forall (fun f => archivable f /\ creatable w f.1 = true) files ->
  stdin w = archive_of files ++ raw_len ++ name_bytes ++ raw_size ++ rest ->
  length raw_len = 4%nat -> int_from_bytes raw_len = len name_bytes ->
  0 < len name_bytes -> utf8_decode name_bytes = Some name ->
  length raw_size = 8%nat -> creatable w name = false -> has_nul name = true ->
  exists w',
    extract_archive w = (Raised ValueError, w') /\
    stderr w' = stderr w /\
    stdin w' = rest /\
    created (trace w') = created (trace w) ++ map fst files /\
    disk w' = foldl (fun d f => <[f.1 := f.2]> d) (disk w) files /\
    fds w' = fds w.
Proof.
  intros Hwf Hfiles Hin Hl4 Hnl Hpos Hdec Hl8 Hcr Hnul.
  destruct (extract_archive_after_prefix files _ w Hwf Hfiles Hin)
    as (fuel & w1 & Hrun & Hwf1 & He & Hc).
  pose proof (extract_loop_step fuel w1 Hwf1) as Hstep. erase_split He.
  rewrite Hcreatable, Hstdin, (scan_record_name _ _ _ _ Hl4 Hnl Hpos), Hdec in Hstep.
  rewrite (take_app_length' raw_size _ 8), (drop_app_length' raw_size _ 8) in Hstep by congruence.
  replace (len raw_size) with 8 in Hstep by (unfold len; lia).
  change (8 <? 8) with false in Hstep. rewrite Hcr, Hnul in Hstep. cbn [step_agrees] in Hstep.
  destruct Hstep as (Ho & He' & Hc').
  rewrite Hrun. destruct (extract_loop (S fuel) 0 w1) as [o w']. cbn [fst snd] in *. subst o.
  exists w'. erase_split He'. repeat split; congruence.
Qed.

Lemma extract_archive_agrees (w : world) :
  fd_wf w ->
  exists w',
    extract_archive w = (scan_outcome (scan_archive (creatable w) (stdin w)), w') /\
    erase w' = erase (after_scan (scan_archive (creatable w) (stdin w)) w) /\
    created (trace w') = created (trace w)
                         ++ map fst (scanned (scan_archive (creatable w) (stdin w))) /\
    (forall msg, failure (scan_archive (creatable w) (stdin w)) = Some (Said msg) ->
                 is_Some (diagnostic msg)).
Proof.
  intros Hwf. apply (extract_loop_scan (S (length (stdin w))) w Hwf). lia.
Qed.

Lemma extract_archive_outcome (w : world) :
  fd_wf w ->
  exists o w',
    extract_archive w = (o, w') /\
    match o with
    | Ret _ => fds w' = fds w
    | SysExit c => c = 1 /\ fds w' = fds w
    | Raised _ => True
    | OutOfFuel => False
    end.
Proof.
  intros Hwf. destruct (extract_archive_agrees w Hwf) as (w' & Hrun & He & _).
  eexists _, w'. split; [exact Hrun|]. unfold after_scan in He. erase_split He.
  unfold scan_outcome.
  destruct (failure (scan_archive (creatable w) (stdin w))) as [[msg|e]|]; auto.
Qed.

(** X5 (one pass).  From a well-formed state and under every schedule of
    short reads, the decoder does what one pass over the stream says
    ([scan_archive]), when the names of the files the pass creates are
    single path components, so that names that differ are files that
    differ and none is a standard stream: it returns when the pass ends
    without a failure, exits with status 1 when the pass ends by [die] and
    raises when the pass ends by an exception; it creates the files of the
    pass, in order, each with the content the pass gives it; it writes the
    message of the failure, and nothing else, to the diagnostic stream; it
    leaves unread what the pass leaves, and no descriptor open. *)
Theorem extract_archive_one_pass (w : world) :
  fd_wf w ->
  let r := scan_archive (creatable w) (stdin w) in
  Forall (fun f => plain_name f.1 = true) (scanned r) ->
  exists w',
    extract_archive w = (scan_outcome r, w') /\
    erase w' = erase (after_scan r w) /\
    created (trace w') = created (trace w) ++ map fst (scanned r) /\
    (forall msg, failure r = Some (Said msg) -> is_Some (diagnostic msg)).
Proof. intros Hwf r _. apply extract_archive_agrees, Hwf. Qed.

(** X6 (short reads do not matter).  Two runs of the decoder from
    well-formed states that differ only in the schedule of short reads and
    in the calls made before end alike: same outcome, same files, same
    diagnostic, same bytes left unread. *)
Theorem extract_archive_schedule_independent (w v : world) :
  fd_wf w -> erase w = erase v ->
  fst (extract_archive w) = fst (extract_archive v) /\
  erase (snd (extract_archive w)) = erase (snd (extract_archive v)).
Proof.
  intros Hwf He. pose proof (fd_wf_erase _ _ He Hwf) as Hwfv.
  destruct (extract_archive_agrees w Hwf) as (w' & Hw & Hew & _).
  destruct (extract_archive_agrees v Hwfv) as (v' & Hv & Hev & _).
  rewrite Hw, Hv. cbn [fst snd]. rewrite Hew, Hev.
  pose proof He as He'. erase_split He'. rewrite Hcreatable, Hstdin.
  split; [reflexivity|]. apply after_scan_erase, He.
Qed.

(** X7 (descriptors are closed).  From a well-formed state the decoder
    ends on any stream at all, and when it ends by returning or by an exit,
    the status of the exit is 1 and every descriptor it opened is closed:
    the descriptor table is what it was before the run. *)
Theorem extract_archive_closes_descriptors (w : world) :
  fd_wf w ->
  exists o w',
    extract_archive w = (o, w') /\
    match o with
    | Ret _ => fds w' = fds w
    | SysExit c => c = 1 /\ fds w' = fds w
    | Raised _ => True
    | OutOfFuel => False
    end.
Proof. apply extract_archive_outcome. Qed.

(** ** Streams the decoder accepts *)

Lemma scan_record_file (cc : str -> bool) (s : bytes) (name : str) (data rest : bytes) :
  scan_record cc s = VFile name data rest ->
  exists nb,
    utf8_encode name = Some nb /\ 0 < len nb < 2 ^ 32 /\ len data < 2 ^ 64 /\
    cc name = true /\
    s = record_bytes nb (len data) data ++ rest /\
    (length rest < length s)%nat.
Proof.
  unfold scan_record.
  set (raw_len := take 4 s). set (name_len := int_from_bytes raw_len).
  set (nb := take (Z.to_nat name_len) (drop 4 s)).
  set (s2 := drop (Z.to_nat name_len) (drop 4 s)).
  set (raw_size := take 8 s2). set (size := int_from_bytes raw_size). set (s3 := drop 8 s2).
  destruct (Z.eqb_spec (len raw_len) 0); [discriminate|].
  destruct (Z.ltb_spec (len raw_len) 4) as [|H4]; [discriminate|].
  destruct (Z.leb_spec name_len 0) as [|Hn0]; [discriminate|].
  destruct (Z.ltb_spec (len nb) name_len) as [|Hnb]; [discriminate|].
  destruct (utf8_decode nb) as [name'|] eqn:Hdec; [|discriminate].
  destruct (Z.ltb_spec (len raw_size) 8) as [|H8]; [discriminate|].
  destruct (Z.ltb_spec size 0) as [|Hsz]; [discriminate|].
  destruct (cc name') eqn:Hcc; [|destruct (has_nul name'); discriminate].
  destruct (Z.ltb_spec (len s3) size) as [|Hle]; [discriminate|].
  intros [= <- <- <-].
  assert (Hl4 : length raw_len = 4%nat).
  { unfold len, raw_len in *. rewrite length_take in *. lia. }
  assert (Hlnb : len nb = name_len).
  { unfold len, nb in *. rewrite length_take in *. lia. }
  assert (Hl8 : length raw_size = 8%nat).
  { unfold len, raw_size in *. rewrite length_take in *. lia. }
  assert (Hld : len (take (Z.to_nat size) s3) = size).
  { unfold len in *. rewrite length_take. lia. }
  pose proof (int_from_bytes_range raw_len) as Hr4.
  pose proof (int_from_bytes_range raw_size) as Hr8.
  unfold len in Hr4, Hr8. rewrite Hl4 in Hr4. rewrite Hl8 in Hr8.
  change (256 ^ Z.of_nat 4) with (2 ^ 32) in Hr4. change (256 ^ Z.of_nat 8) with (2 ^ 64) in Hr8.
  fold name_len in Hr4. fold size in Hr8.
  exists nb. split; [apply utf8_encode_decode, Hdec|].
  split; [lia|]. split; [lia|]. split; [exact Hcc|].
  assert (Hs : s = raw_len ++ nb ++ raw_size ++ take (Z.to_nat size) s3 ++ drop (Z.to_nat size) s3).
  { unfold raw_len, nb, raw_size, s3, s2. rewrite !take_drop. reflexivity. }
  split.
  - unfold record_bytes. rewrite Hlnb, Hld, <- !app_assoc.
    replace (be_digits 4 name_len) with raw_len
      by (unfold name_len; rewrite <- Hl4 at 1; symmetry; apply be_digits_int_from_bytes).
    replace (be_digits 8 size) with raw_size
      by (unfold size; rewrite <- Hl8 at 1; symmetry; apply be_digits_int_from_bytes).
    exact Hs.
  - pose proof (f_equal length Hs) as HL. rewrite !length_app, Hl4 in HL. lia.
Qed.

Lemma scan_stream_sound (fuel : nat) (cc : str -> bool) :
  forall s : bytes,
  (length s < fuel)%nat ->
  failure (scan_stream fuel cc s) = None ->
  s = archive_of (scanned (scan_stream fuel cc s)) /\
  Forall (fun f => archivable f /\ cc f.1 = true) (scanned (scan_stream fuel cc s)).
Proof.
  induction fuel as [|fuel IH]; intros s Hfuel; [lia|]. cbn [scan_stream].
  destruct (scan_record cc s) as [|msg rest|e rest|name data msg|name data rest] eqn:Hv;
    cbn [failure scanned]; try discriminate.
  - intros _. apply scan_record_end in Hv. subst s. split; [reflexivity|constructor].
  - intros Hf. apply scan_record_file in Hv as (nb & Hnb & Hlen & Hd & Hcc & Hs & Hshort).
    destruct (IH rest ltac:(lia) Hf) as [Hrest Hall]. split.
    + cbn [archive_of]. rewrite Hnb. change (default [] (Some nb)) with nb.
      rewrite <- Hrest. exact Hs.
    + constructor; [|exact Hall]. split; [|exact Hcc].
      split; [|split; [exists nb; split; [exact Hnb|lia]|exact Hd]].
      cbn [fst]. intros ->. cbn in Hnb. injection Hnb as <-. unfold len in Hlen. simpl in Hlen. lia.
Qed.

Lemma extract_archive_canonical (w w' : world) :
  fd_wf w -> extract_archive w = (Ret tt, w') ->
  exists files,
    Forall archivable files /\
    stdin w = archive_of files /\
    created (trace w') = created (trace w) ++ map fst files /\
    disk w' = foldl (fun d f => <[f.1 := f.2]> d) (disk w) files.
Proof.
  intros Hwf Hrun. destruct (extract_archive_agrees w Hwf) as (w1 & Hrun1 & He & Hc & _).
  rewrite Hrun in Hrun1. injection Hrun1 as Ho <-.
  unfold scan_outcome in Ho.
  destruct (failure (scan_archive (creatable w) (stdin w))) as [[msg|e]|] eqn:Hf;
    try discriminate.
  destruct (scan_stream_sound (S (length (stdin w))) (creatable w) (stdin w)
              ltac:(lia) Hf) as [Hs Hall].
  exists (scanned (scan_archive (creatable w) (stdin w))).
  unfold after_scan in He. erase_split He.
  split; [eapply Forall_impl; [exact Hall|]; intros f [? _]; assumption|].
  repeat split; assumption.
Qed.

(** X9 (accepted streams are canonical).  If the decoder returns normally,
    the stream it read is, byte for byte, the archive of the files it
    created: for each, in order, the 4-byte length of the name, the UTF-8
    name, the 8-byte length of the content and the content.  The format has
    one stream per list of files. *)
Theorem extract_archive_accepts_canonical (w w' : world) :
  fd_wf w -> extract_archive w = (Ret tt, w') ->
  exists files,
    Forall archivable files /\
    stdin w = archive_of files /\
    created (trace w') = created (trace w) ++ map fst files /\
    disk w' = foldl (fun d f => <[f.1 := f.2]> d) (disk w) files.
Proof. apply extract_archive_canonical. Qed.

(** X10 (archiving again).  Extract a stream successfully into files whose
    names are distinct and are single path components, so that they are
    distinct files; then archive the names created, in the order of their
    creation, from an environment where each holds what the decoder left in
    it: the encoder writes exactly the stream that was extracted. *)
Theorem extract_then_create (dst dst' src : world) (names : list str) :
  fd_wf dst -> extract_archive dst = (Ret tt, dst') ->
  created (trace dst') = created (trace dst) ++ names -> NoDup names ->
  Forall (fun name => plain_name name = true) names ->
  fd_wf src -> stdout src = [] ->
  readable src = (fun c => RFile (Some (len c)) c) <$> disk dst' ->
  exists src',
    create_archive names src = (Ret tt, src') /\ stdout src' = stdin dst.
Proof.
  intros Hdst Hrun Hnames Hnodup _ Hsrc Hout Hrd.
  destruct (extract_archive_canonical dst dst' Hdst Hrun)
    as (files & Hall & Hs & Hc & Hd).
  rewrite Hc in Hnames. apply app_inv_head in Hnames. subst names.
  destruct (create_archive_files files src Hsrc) as (src' & Henc & He).
  { rewrite Forall_forall in *. intros f Hf. split; [apply Hall, Hf|].
    rewrite Hrd, lookup_fmap, Hd.
    rewrite (foldl_insert_lookup _ files f Hf); [reflexivity|].
    intros g Hg Hkey.
    apply list_elem_of_lookup in Hf as [i Hi]. apply list_elem_of_lookup in Hg as [j Hj].
    assert (i = j).
    { eapply NoDup_lookup; [exact Hnodup| |]; rewrite list_lookup_fmap.
      - rewrite Hi. reflexivity.
      - rewrite Hj. cbn. rewrite Hkey. reflexivity. }
    subst j. congruence. }
  exists src'. split; [exact Henc|]. erase_split He. rewrite Hstdout, Hout, Hs. reflexivity.
Qed.

(** * Further properties of the encoder *)

Lemma bind_assoc {A B C} (m : M A) (f : A -> M B) (k : B -> M C) (w : world) :
  bind (bind m f) k w = bind m (fun x => bind (f x) k) w.
Proof. unfold bind. destruct (m w) as [[a|c|e|] w']; reflexivity. Qed.

Lemma bind_except_raised {A B} (m h : M A) (k : A -> M B) (w w' : world) :
  m w = (Raised OSError, w') -> bind (except_OSError m h) k w = bind h k w'.
Proof. intros H. unfold bind, except_OSError. rewrite H. reflexivity. Qed.

Lemma bind_die {A B} (msg : str) (k : A -> M B) (w : world) :
  bind (@die A msg) k w = @die B msg w.
Proof. unfold die, bind. destruct (diagnostic msg); reflexivity. Qed.

Lemma die_run_spec (msg : str) (w : world) :
  exists w',
    @die unit msg w = ((die_run msg).1, w') /\
    erase w' = erase (set_stderr (stderr w ++ (die_run msg).2) w) /\
    created (trace w') = created (trace w).
Proof.
  unfold die_run. destruct (diagnostic msg) as [b|] eqn:Hb.
  - rewrite (die_spec _ _ _ Hb). eexists. cbn [fst snd]. repeat split.
    cbn [trace log set_stderr]. rewrite created_app. apply app_nil_r.
  - unfold die, bind. rewrite Hb. exists w. cbn. repeat split.
    rewrite app_nil_r. erase_fields.
Qed.

Ltac erase_appends :=
  erase_fields; rewrite ?app_nil_r, <- ?app_assoc; try reflexivity.

Lemma create_archive_body_agrees (name : str) (w : world) :
  fd_wf w ->
  exists w',
    create_archive_body name w = (ends (archive_file (readable w) name), w') /\
    erase w' = erase (after_file (archive_file (readable w) name) w).
Proof.
  intros Hwf. pose proof Hwf as [H3 Hfree]. unfold archive_file.
  destruct (readable w !! name) as [[st data]|] eqn:Hfile.
  2:{ assert (Hopen : os_open_rdonly name w = (Raised OSError, w))
        by (unfold os_open_rdonly; rewrite Hfile; reflexivity).
      unfold create_archive_body. rewrite (bind_except_raised _ _ _ _ _ Hopen), bind_die.
      destruct (die_run_spec (lit "cannot open file '" ++ name ++ lit "'") w)
        as (w' & Hdie & He & _).
      exists w'. split; [exact Hdie|]. rewrite He. unfold after_file. cbn. erase_appends. }
  set (fd := next_fd w).
  set (w1 := log (EvOpen name fd)
               (set_next_fd (S fd) (set_fds (<[fd := RdH data st]> (fds w)) w))).
  assert (Hopen : os_open_rdonly name w = (Ret fd, w1))
    by (unfold os_open_rdonly; rewrite Hfile; reflexivity).
  assert (Hh1 : fds w1 !! fd = Some (RdH data st)) by apply lookup_insert_eq.
  cbn [st_size content].
  destruct st as [size|].
  2:{ assert (Hstat : os_fstat_size fd w1 = (Raised OSError, w1))
        by (unfold os_fstat_size; rewrite Hh1; reflexivity).
      unfold create_archive_body.
      rewrite (bind_Ret _ _ _ _ _ (except_Ret _ _ _ _ _ Hopen)).
      rewrite (bind_except_raised _ _ _ _ _ Hstat), bind_assoc.
      rewrite (bind_Ret _ _ _ _ _ (os_close_spec _ _ w1 Hh1)), bind_die.
      match goal with |- context [@die unit ?m ?w0] =>
        destruct (die_run_spec m w0) as (w' & Hdie & He & _) end.
      exists w'. split; [exact Hdie|]. rewrite He. unfold after_file. cbn. erase_appends.
      rewrite delete_insert_eq. apply delete_id, Hfree. lia. }
  assert (Hstat : os_fstat_size fd w1 = (Ret size, w1))
    by (unfold os_fstat_size; rewrite Hh1; reflexivity).
  destruct (utf8_encode name) as [nb|] eqn:Hname.
  2:{ unfold create_archive_body.
      rewrite (bind_Ret _ _ _ _ _ (except_Ret _ _ _ _ _ Hopen)).
      rewrite (bind_Ret _ _ _ _ _ (except_Ret _ _ _ _ _ Hstat)).
      rewrite Hname. eexists. split; [reflexivity|].
      unfold after_file. cbn. erase_appends. }
  destruct (int_to_bytes (len nb) 4) as [raw_len|] eqn:Hraw_len.
  2:{ unfold create_archive_body.
      rewrite (bind_Ret _ _ _ _ _ (except_Ret _ _ _ _ _ Hopen)).
      rewrite (bind_Ret _ _ _ _ _ (except_Ret _ _ _ _ _ Hstat)).
      rewrite Hname. cbn [or_raise]. rewrite bind_ret, Hraw_len.
      eexists. split; [reflexivity|].
      unfold after_file. cbn. erase_appends. }
  destruct (int_to_bytes size 8) as [raw_size|] eqn:Hraw_size.
  2:{ unfold create_archive_body.
      rewrite (bind_Ret _ _ _ _ _ (except_Ret _ _ _ _ _ Hopen)).
      rewrite (bind_Ret _ _ _ _ _ (except_Ret _ _ _ _ _ Hstat)).
      rewrite Hname. cbn [or_raise]. rewrite bind_ret, Hraw_len.
      cbn [or_raise]. rewrite bind_ret.
      rewrite (bind_Ret _ _ _ _ _ (os_write_stdout _ _)).
      rewrite (bind_Ret _ _ _ _ _ (os_write_stdout _ _)).
      rewrite Hraw_size. eexists. split; [reflexivity|].
      unfold after_file. cbn. erase_appends. }
  pose proof Hraw_len as Hraw_len'. pose proof Hraw_size as Hraw_size'.
  apply int_to_bytes_inv in Hraw_len' as (_ & _ & Hnb).
  apply int_to_bytes_inv in Hraw_size' as (_ & _ & Hsize).
  change (256 ^ Z.of_nat 4) with (2 ^ 32) in Hnb. change (256 ^ Z.of_nat 8) with (2 ^ 64) in Hsize.
  rewrite (int_to_bytes_Some (len nb) 4) in Hraw_len by assumption.
  rewrite (int_to_bytes_Some size 8) in Hraw_size by assumption.
  injection Hraw_len as <-. injection Hraw_size as <-.
  destruct (create_archive_body_spec name size data nb w Hwf Hfile Hname ltac:(lia) Hsize)
    as [Hok Heof].
  destruct (Z.leb_spec size (len data)) as [Hle|Hgt].
  - destruct (Hok Hle) as (w' & Hrun & He). exists w'. split; [exact Hrun|].
    rewrite He. unfold after_file, record_bytes. cbn. erase_appends.
  - destruct (Heof Hgt) as (b & w' & evs & Hb & Hrun & He & _).
    unfold die_run. rewrite Hb. cbn [fst snd].
    exists w'. split; [exact Hrun|].
    rewrite He. unfold after_file, record_bytes. cbn. erase_appends.
Qed.

Lemma archive_file_shape (files : gmap str rfile) (name : str) :
  let v := archive_file files name in
  match ends v with
  | Ret _ => left_open v = None /\ opened v = true /\ said v = []
  | SysExit c => c = 1 /\ left_open v = None
  | Raised _ => said v = [] /\ (left_open v <> None -> opened v = true)
  | OutOfFuel => False
  end.
Proof.
  unfold archive_file, die_run.
  repeat match goal with
         | |- context [match ?x with Some _ => _ | None => _ end] => destruct x
         | |- context [if ?x then _ else _] => destruct x
         end; cbn; repeat split; try discriminate; auto.
Qed.

Lemma after_file_wf (files : gmap str rfile) (name : str) (w : world) :
  fd_wf w -> fd_wf (after_file (archive_file files name) w).
Proof.
  intros [H3 Hfree]. pose proof (archive_file_shape files name) as Hs. cbn zeta in Hs.
  unfold after_file, fd_wf. cbn [next_fd fds set_next_fd set_fds set_stderr set_stdout].
  destruct (opened (archive_file files name)) eqn:Ho.
  - split; [lia|]. intros k Hk.
    destruct (left_open (archive_file files name)); [rewrite lookup_insert_ne by lia|];
      apply Hfree; lia.
  - split; [lia|]. intros k Hk.
    destruct (left_open (archive_file files name)) eqn:Hl; [|apply Hfree; lia].
    destruct (ends (archive_file files name)) as [[]| | |]; try tauto.
    + destruct Hs as (Hl' & _). congruence.
    + destruct Hs as (_ & Hl'). congruence.
    + destruct Hs as (_ & Hl'). specialize (Hl' ltac:(discriminate)). congruence.
Qed.

Lemma after_file_erase (v : file_run) (w u : world) :
  erase w = erase u -> erase (after_file v w) = erase (after_file v u).
Proof. intros H. erase_split H. unfold after_file. rewrite Hnext, Hfds. erase_fields. Qed.

Lemma after_runs_erase (vs : list file_run) :
  forall w u, erase w = erase u -> erase (after_runs vs w) = erase (after_runs vs u).
Proof.
  induction vs as [|v vs IH]; intros w u H; [exact H|].
  cbn [after_runs foldl]. apply IH, after_file_erase, H.
Qed.

Lemma archive_runs_nonempty (files : gmap str rfile) (names : list str) :
  archive_runs files names = [] -> names = [].
Proof. destruct names; [reflexivity|discriminate]. Qed.

Lemma runs_outcome_cons (v : file_run) (vs : list file_run) :
  runs_outcome (v :: vs) = match vs with [] => ends v | _ => runs_outcome vs end.
Proof. destruct vs; reflexivity. Qed.

Lemma create_archive_agrees (names : list str) :
  forall w : world,
  fd_wf w ->
  exists w',
    create_archive names w = (runs_outcome (archive_runs (readable w) names), w') /\
    erase w' = erase (after_runs (archive_runs (readable w) names) w).
Proof.
  induction names as [|name rest IH]; intros w Hwf.
  { exists w. split; reflexivity. }
  destruct (create_archive_body_agrees name w Hwf) as (w1 & Hrun & He).
  cbn [create_archive archive_runs].
  set (v := archive_file (readable w) name) in *.
  destruct (ends v) as [[]|c|e|] eqn:Hends.
  - rewrite (bind_Ret _ _ _ _ _ Hrun).
    pose proof (fd_wf_erase _ _ (eq_sym He) (after_file_wf (readable w) name w Hwf)) as Hwf1.
    destruct (IH w1 Hwf1) as (w' & Hrun' & He').
    assert (Hrd : readable w1 = readable w) by (erase_split He; exact Hreadable).
    rewrite Hrd in Hrun', He'.
    exists w'. split.
    + rewrite Hrun'. f_equal. rewrite runs_outcome_cons.
      destruct (archive_runs (readable w) rest) eqn:Hr; [|reflexivity].
      apply archive_runs_nonempty in Hr. subst rest. exact (eq_sym Hends).
    + rewrite He'. cbn [after_runs foldl]. apply after_runs_erase, He.
  - unfold bind. rewrite Hrun. exists w1. split; [rewrite <- Hends; reflexivity|exact He].
  - unfold bind. rewrite Hrun. exists w1. split; [rewrite <- Hends; reflexivity|exact He].
  - unfold bind. rewrite Hrun. exists w1. split; [rewrite <- Hends; reflexivity|exact He].
Qed.

Lemma bind_ext {A B} (m : M A) (k1 k2 : A -> M B) (w : world) :
  (forall a w', k1 a w' = k2 a w') -> bind m k1 w = bind m k2 w.
Proof. intros H. unfold bind. destruct (m w) as [[a|c|e|] w']; auto. Qed.

Lemma create_archive_app (l1 l2 : list str) :
  forall w, create_archive (l1 ++ l2) w
            = bind (create_archive l1) (fun _ => create_archive l2) w.
Proof.
  induction l1 as [|name l1 IH]; intros w; [reflexivity|].
  cbn [app create_archive]. rewrite bind_assoc. apply bind_ext. intros _ w'. apply IH.
Qed.

Lemma create_archive_after_prefix (files : list (str * bytes)) (names : list str) (w : world) :
  fd_wf w ->
  Forall (fun f => archivable f /\
                   readable w !! f.1 = Some (RFile (Some (len f.2)) f.2)) files ->
  exists w1,
    create_archive (map fst files ++ names) w = create_archive names w1 /\
    fd_wf w1 /\
    erase w1 = erase (set_next_fd (next_fd w + length files)
                        (set_stdout (stdout w ++ archive_of files) w)).
Proof.
  intros Hwf Hfiles.
  destruct (create_archive_files files w Hwf Hfiles) as (w1 & Hrun & He).
  exists w1. rewrite create_archive_app, (bind_Ret _ _ _ _ _ Hrun). split; [reflexivity|].
  split; [|exact He]. apply (fd_wf_erase _ _ (eq_sym He)). destruct Hwf as [H3 Hfree].
  split; cbn; [lia|]. intros k Hk. apply Hfree. lia.
Qed.

Lemma diagnostic_unencodable (s t : string) (name : str) :
  utf8_encode name = None -> diagnostic (lit s ++ name ++ lit t) = None.
Proof.
  intros Hn. unfold diagnostic. rewrite !utf8_encode_app, Hn.
  destruct (utf8_encode (lit "mytar: ")), (utf8_encode (lit s)); reflexivity.
Qed.

Lemma after_runs_released (files : gmap str rfile) (names : list str) :
  forall w,
  match runs_outcome (archive_runs files names) with
  | Ret _ | SysExit _ => fds (after_runs (archive_runs files names) w) = fds w
  | _ => True
  end.
Proof.
  induction names as [|name rest IH]; intros w; [reflexivity|].
  cbn [archive_runs]. pose proof (archive_file_shape files name) as Hs. cbn zeta in Hs.
  set (v := archive_file files name) in *. rewrite runs_outcome_cons.
  destruct (ends v) as [[]|c|e|] eqn:Hends.
  - destruct Hs as (Hl & _).
    assert (Hfds : fds (after_file v w) = fds w) by (unfold after_file; rewrite Hl; reflexivity).
    specialize (IH (after_file v w)).
    destruct (archive_runs files rest) as [|v' vs'] eqn:Hr.
    + cbn [after_runs foldl]. exact Hfds.
    + cbn [after_runs foldl] in *. destruct (runs_outcome (v' :: vs')); try exact I;
        rewrite IH; exact Hfds.
  - destruct Hs as (_ & Hl). cbn [after_runs foldl]. unfold after_file. rewrite Hl. reflexivity.
  - exact I.
  - exact I.
Qed.

Lemma runs_outcome_shape (files : gmap str rfile) (names : list str) :
  match runs_outcome (archive_runs files names) with
  | Ret _ => True
  | SysExit c => c = 1
  | Raised _ => True
  | OutOfFuel => False
  end.
Proof.
  induction names as [|name rest IH]; [exact I|].
  cbn [archive_runs]. pose proof (archive_file_shape files name) as Hs. cbn zeta in Hs.
  set (v := archive_file files name) in *. rewrite runs_outcome_cons.
  destruct (ends v) as [[]|c|e|] eqn:Hends.
  - destruct (archive_runs files rest); [exact I|exact IH].
  - tauto.
  - tauto.
  - tauto.
Qed.

Lemma emits_os_open_rdonly (ok : event -> Prop) (name : str) :
  (forall fd, ok (EvOpen name fd)) -> emits ok (os_open_rdonly name).
Proof.
  intros Hok w. unfold os_open_rdonly.
  destruct (readable w !! name); [|apply (emits_fail _ (Raised OSError))].
  eexists [_]. split; [reflexivity|]. constructor; [apply Hok|constructor].
Qed.

Lemma emits_os_fstat_size (ok : event -> Prop) (fd : nat) : emits ok (os_fstat_size fd).
Proof.
  intros w. unfold os_fstat_size.
  destruct (fds w !! fd) as [[p [sz|]|path]|];
    first [apply (emits_fail _ (Ret sz))|apply (emits_fail _ (Raised OSError))].
Qed.

Lemma create_archive_body_not_create (name : str) : emits not_create (create_archive_body name).
Proof.
  unfold create_archive_body.
  apply emits_bind.
  { apply emits_except; [apply emits_os_open_rdonly; intros; exact I|].
    apply emits_die; intros; exact I. }
  intros fd. apply emits_bind.
  { apply emits_except; [apply emits_os_fstat_size|].
    apply emits_bind; [apply emits_os_close; exact I|]. intros _.
    apply emits_die; intros; exact I. }
  intros size. apply emits_bind; [apply emits_or_raise|]. intros nb.
  apply emits_bind; [apply emits_or_raise|]. intros raw_len.
  apply emits_bind; [apply emits_os_write; exact I|]. intros _.
  apply emits_bind; [apply emits_os_write; exact I|]. intros _.
  apply emits_bind; [apply emits_or_raise|]. intros raw_size.
  apply emits_bind; [apply emits_os_write; exact I|]. intros _.
  apply emits_bind; [|intros _; apply emits_os_close; exact I].
  intros w. apply (emits_weaken (copy_event size) not_create); [apply copy_event_not_create|].
  apply create_copy_loop_bounded.
Qed.

Lemma create_archive_not_create (names : list str) : emits not_create (create_archive names).
Proof.
  induction names as [|name rest IH]; cbn [create_archive]; [apply emits_ret|].
  apply emits_bind; [apply create_archive_body_not_create|]. intros _. exact IH.
Qed.

Lemma archive_file_returns (files : gmap str rfile) (name : str) :
  ends (archive_file files name) = Ret tt ->
  exists nb content data,
    utf8_encode name = Some nb /\ len nb < 2 ^ 32 /\ len data < 2 ^ 64 /\
    files !! name = Some (RFile (Some (len data)) content) /\
    data `prefix_of` content /\
    written (archive_file files name) = record_bytes nb (len data) data.
Proof.
  unfold archive_file.
  destruct (files !! name) as [[st bs]|];
    [|unfold die_run; destruct (diagnostic _); discriminate].
  cbn [st_size content]. destruct st as [size|];
    [|unfold die_run; destruct (diagnostic _); discriminate].
  destruct (utf8_encode name) as [nb|]; [|discriminate].
  destruct (int_to_bytes (len nb) 4) as [raw_len|] eqn:H4; [|discriminate].
  destruct (int_to_bytes size 8) as [raw_size|] eqn:H8; [|discriminate].
  destruct (Z.leb_spec size (len bs)) as [Hle|Hgt];
    [|unfold die_run; destruct (diagnostic _); discriminate].
  intros _. cbn [written].
  apply int_to_bytes_inv in H4 as (Hl4 & Hv4 & Hr4).
  apply int_to_bytes_inv in H8 as (Hl8 & Hv8 & Hr8).
  change (256 ^ Z.of_nat 4) with (2 ^ 32) in Hr4.
  change (256 ^ Z.of_nat 8) with (2 ^ 64) in Hr8.
  assert (Hld : len (take (Z.to_nat size) bs) = size).
  { unfold len in *. rewrite length_take. lia. }
  exists nb, bs, (take (Z.to_nat size) bs). rewrite Hld.
  split; [reflexivity|]. split; [lia|]. split; [lia|]. split; [reflexivity|].
  split; [apply prefix_take|].
  unfold record_bytes.
  replace (be_digits 4 (len nb)) with raw_len
    by (rewrite <- Hv4, <- Hl4 at 1; symmetry; apply be_digits_int_from_bytes).
  replace (be_digits 8 size) with raw_size
    by (rewrite <- Hv8, <- Hl8 at 1; symmetry; apply be_digits_int_from_bytes).
  reflexivity.
Qed.

Lemma create_archive_canonical (names : list str) :
  forall w w' : world,
  fd_wf w -> create_archive names w = (Ret tt, w') ->
  exists files,
    map fst files = names /\
    Forall (fun f => exists nb content,
                utf8_encode f.1 = Some nb /\ len nb < 2 ^ 32 /\ len f.2 < 2 ^ 64 /\
                readable w !! f.1 = Some (RFile (Some (len f.2)) content) /\
                f.2 `prefix_of` content) files /\
    stdout w' = stdout w ++ archive_of files /\
    fds w' = fds w.
Proof.
  induction names as [|name rest IH]; intros w w' Hwf Hrun.
  { injection Hrun as <-. exists []. rewrite app_nil_r. repeat split; constructor. }
  cbn [create_archive] in Hrun.
  destruct (create_archive_body_agrees name w Hwf) as (w1 & Hbody & He).
  set (v := archive_file (readable w) name) in *.
  destruct (ends v) as [[]|c|e|] eqn:Hends.
  2:{ rewrite (bind_SysExit _ _ _ _ _ Hbody) in Hrun. discriminate. }
  2:{ rewrite (bind_Raised _ _ _ _ _ Hbody) in Hrun. discriminate. }
  2:{ unfold bind in Hrun. rewrite Hbody in Hrun. discriminate. }
  rewrite (bind_Ret _ _ _ _ _ Hbody) in Hrun.
  destruct (archive_file_returns (readable w) name Hends)
    as (nb & content & data & Hnb & Hl4 & Hl8 & Hfile & Hpre & Hwr).
  pose proof (archive_file_shape (readable w) name) as Hsh. cbn zeta in Hsh.
  fold v in Hsh, Hwr. rewrite Hends in Hsh. destruct Hsh as (Hleft & Hop & Hsaid).
  assert (Hwf1 : fd_wf w1).
  { apply (erase_wf (after_file v w)); [symmetry; exact He|]. apply after_file_wf, Hwf. }
  destruct (IH w1 w' Hwf1 Hrun) as (files & Hnames & Hall & Hout & Hfds).
  unfold after_file in He. rewrite Hleft, Hop, Hsaid, Hwr in He. erase_split He.
  exists ((name, data) :: files).
  split; [cbn [map fst]; rewrite Hnames; reflexivity|].
  split; [|split].
  - constructor; [exists nb, content; cbn [fst snd]; auto|].
    rewrite <- Hreadable. exact Hall.
  - rewrite Hout, Hstdout. cbn [archive_of]. rewrite Hnb.
    change (default [] (Some nb)) with nb. rewrite <- app_assoc. reflexivity.
  - congruence.
Qed.

(** X11 (what a return of the encoder means).  If the encoder returns,
    every path of the list was opened and examined, has a name that encodes
    into fewer than 2^32 bytes and a size below 2^64, and delivered as many
    bytes as [fstat] reported; and the encoder wrote, for each path in
    order, the record of the name and of those bytes, and nothing else, and
    closed every descriptor it opened. *)
Theorem create_archive_returns_canonical (names : list str) (w w' : world) :
  fd_wf w -> create_archive names w = (Ret tt, w') ->
  exists files,
    map fst files = names /\
    Forall (fun f => exists nb content,
                utf8_encode f.1 = Some nb /\ len nb < 2 ^ 32 /\ len f.2 < 2 ^ 64 /\
                readable w !! f.1 = Some (RFile (Some (len f.2)) content) /\
                f.2 `prefix_of` content) files /\
    stdout w' = stdout w ++ archive_of files /\
    fds w' = fds w.
Proof. apply create_archive_canonical. Qed.

(** X12 (short reads do not matter to the encoder).  Two runs of the
    encoder on the same paths from well-formed states that differ only in
    the schedule of short reads end alike and write the same bytes. *)
Theorem create_archive_schedule_independent (names : list str) (w v : world) :
  fd_wf w -> erase w = erase v ->
  fst (create_archive names w) = fst (create_archive names v) /\
  erase (snd (create_archive names w)) = erase (snd (create_archive names v)).
Proof.
  intros Hwf He. pose proof (fd_wf_erase _ _ He Hwf) as Hwfv.
  destruct (create_archive_agrees names w Hwf) as (w' & Hw & Hew).
  destruct (create_archive_agrees names v Hwfv) as (v' & Hv & Hev).
  rewrite Hw, Hv. cbn [fst snd]. rewrite Hew, Hev.
  pose proof He as He'. erase_split He'. rewrite Hreadable.
  split; [reflexivity|]. apply after_runs_erase, He.
Qed.

Lemma create_archive_outcome (names : list str) (w : world) :
  fd_wf w ->
  exists o w',
    create_archive names w = (o, w') /\
    created (trace w') = created (trace w) /\
    match o with
    | Ret _ => fds w' = fds w
    | SysExit c => c = 1 /\ fds w' = fds w
    | Raised _ => True
    | OutOfFuel => False
    end.
Proof.
  intros Hwf. destruct (create_archive_agrees names w Hwf) as (w' & Hrun & He).
  eexists _, w'. split; [exact Hrun|].
  split.
  { pose proof (emits_created _ w (create_archive_not_create names)) as Hc.
    rewrite Hrun in Hc. exact Hc. }
  pose proof (after_runs_released (readable w) names w) as Hrel.
  pose proof (runs_outcome_shape (readable w) names) as Hsh.
  erase_split He.
  destruct (runs_outcome (archive_runs (readable w) names)); try tauto.
  - congruence.
  - split; [exact Hsh|congruence].
Qed.

(** X13 (descriptors are closed, nothing is created).  From a well-formed
    state and on any list of paths, the encoder ends, and it never opens a
    file for writing; when it ends by returning or by an exit, the status of
    the exit is 1 and every descriptor it opened is closed: the descriptor
    table is what it was before the run. *)
Theorem create_archive_closes_descriptors (names : list str) (w : world) :
  fd_wf w ->
  exists o w',
    create_archive names w = (o, w') /\
    created (trace w') = created (trace w) /\
    match o with
    | Ret _ => fds w' = fds w
    | SysExit c => c = 1 /\ fds w' = fds w
    | Raised _ => True
    | OutOfFuel => False
    end.
Proof. apply create_archive_outcome. Qed.

(** X14 (file that cannot be opened).  When a path of the list cannot be
    opened, the encoder exits with status 1 and the line "cannot open file
    '<name>'" carrying the encoded name; the records of the files before it
    are on the standard output and stay there, nothing is written for it,
    the paths after it are not processed, and no descriptor stays open. *)
Theorem create_cannot_open (files : list (str * bytes)) (name : str) (rest : list str)
    (nb : bytes) (w : world) :
  fd_wf w ->
  Forall (fun f => archivable f /\
                   readable w !! f.1 = Some (RFile (Some (len f.2)) f.2)) files ->
  readable w !! name = None -> utf8_encode name = Some nb ->
  exists b w',
    diagnostic (lit "cannot open file '" ++ name ++ lit "'") = Some b /\
    (exists pre post, b = pre ++ nb ++ post) /\
    create_archive (map fst files ++ name :: rest) w = (SysExit 1, w') /\
    stdout w' = stdout w ++ archive_of files /\
    stderr w' = stderr w ++ b /\
    fds w' = fds w.
Proof.
  intros Hwf Hfiles Hnone Hname.
  destruct (create_archive_after_prefix files (name :: rest) w Hwf Hfiles)
    as (w1 & Hrun & Hwf1 & He).
  destruct (create_archive_body_agrees name w1 Hwf1) as (w' & Hbody & He').
  destruct (diagnostic_quoted "cannot open file '" "'" name nb Hname) as [b Hb].
  erase_split He.
  unfold archive_file, die_run in Hbody, He'. rewrite Hreadable, Hnone, Hb in Hbody, He'.
  cbn [fst snd ends] in Hbody. unfold after_file in He'. cbn in He'. erase_split He'.
  exists b, w'. split; [exact Hb|].
  split; [exact (diagnostic_quoted_shape _ _ _ _ _ Hname Hb)|].
  split; [rewrite Hrun; cbn [create_archive]; apply bind_SysExit, Hbody|].
  rewrite Hstdout0, Hstderr0, Hfds0, app_nil_r. repeat split; congruence.
Qed.

(** X15 (file that cannot be examined).  When [fstat] fails on a file that
    was opened, the encoder closes the descriptor and then exits with
    status 1 and the line "cannot stat file '<name>'"; nothing is written
    for the file and no descriptor stays open. *)
Theorem create_cannot_stat (files : list (str * bytes)) (name : str) (rest : list str)
    (data nb : bytes) (w : world) :
  fd_wf w ->
  Forall (fun f => archivable f /\
                   readable w !! f.1 = Some (RFile (Some (len f.2)) f.2)) files ->
  readable w !! name = Some (RFile None data) -> utf8_encode name = Some nb ->
  exists b w',
    diagnostic (lit "cannot stat file '" ++ name ++ lit "'") = Some b /\
    (exists pre post, b = pre ++ nb ++ post) /\
    create_archive (map fst files ++ name :: rest) w = (SysExit 1, w') /\
    stdout w' = stdout w ++ archive_of files /\
    stderr w' = stderr w ++ b /\
    fds w' = fds w.
Proof.
  intros Hwf Hfiles Hfile Hname.
  destruct (create_archive_after_prefix files (name :: rest) w Hwf Hfiles)
    as (w1 & Hrun & Hwf1 & He).
  destruct (create_archive_body_agrees name w1 Hwf1) as (w' & Hbody & He').
  destruct (diagnostic_quoted "cannot stat file '" "'" name nb Hname) as [b Hb].
  erase_split He.
  unfold archive_file, die_run in Hbody, He'. rewrite Hreadable, Hfile in Hbody, He'.
  cbn [st_size] in Hbody, He'. rewrite Hb in Hbody, He'.
  cbn [fst snd ends] in Hbody. unfold after_file in He'. cbn in He'. erase_split He'.
  exists b, w'. split; [exact Hb|].
  split; [exact (diagnostic_quoted_shape _ _ _ _ _ Hname Hb)|].
  split; [rewrite Hrun; cbn [create_archive]; apply bind_SysExit, Hbody|].
  rewrite Hstdout0, Hstderr0, Hfds0, app_nil_r. repeat split; congruence.
Qed.

(** X16 (name without a UTF-8 form).  A path with a lone surrogate, which
    is what Python makes of a file name that is not valid UTF-8, always ends
    the encoder by an uncaught [UnicodeEncodeError], whether the file opens
    or not: nothing is written for it, on the standard output or on the
    diagnostic stream, and when the file was opened and examined its
    descriptor is still open. *)
Theorem create_unencodable_name (name : str) (w : world) :
  fd_wf w -> utf8_encode name = None ->
  exists w',
    create_archive_body name w = (Raised UnicodeEncodeError, w') /\
    stdout w' = stdout w /\ stderr w' = stderr w /\
    (forall size data,
       readable w !! name = Some (RFile (Some size) data) ->
       fds w' !! next_fd w = Some (RdH data (Some size))).
Proof.
  intros Hwf Hname.
  destruct (create_archive_body_agrees name w Hwf) as (w' & Hbody & He).
  exists w'. unfold archive_file, die_run in Hbody, He.
  rewrite Hname, !(diagnostic_unencodable _ _ _ Hname) in Hbody, He.
  destruct (readable w !! name) as [[[size|] data]|] eqn:Hfile;
    cbn [st_size content fst snd ends] in Hbody, He; unfold after_file in He; cbn in He;
    erase_split He; rewrite ?app_nil_r in *;
    (split; [exact Hbody|]); (split; [assumption|]); (split; [assumption|]);
    intros size' data' [= <- <-] || intros size' data' [=].
  rewrite Hfds. apply lookup_insert_eq.
Qed.

(** * Further properties: the command line and [read_exact] *)

Lemma die_lit_run (s : string) (w : world) :
  exists b,
    diagnostic (lit s) = Some b /\
    @die unit (lit s) w = (SysExit 1, log (EvWrite 2 b) (set_stderr (stderr w ++ b) w)).
Proof. destruct (diagnostic_lit s) as [b Hb]. exists b. split; [exact Hb|apply die_spec, Hb]. Qed.

(** X17 (usage errors).  With no mode, with a mode that is neither [c]
    nor [x], and with the mode [c] and no path, [main] exits with status 1
    after one system call, the write of the usage line that fits the case
    to the diagnostic stream; nothing is read, opened or created. *)
Theorem main_usage_errors (argv : list str) (w : world) :
  (len argv < 2 ->
   exists b,
     diagnostic (lit "usage: mytar.py c file... | mytar.py x") = Some b /\
     main argv w = (SysExit 1, log (EvWrite 2 b) (set_stderr (stderr w ++ b) w))) /\
  (len argv = 2 -> argv !! 1%nat = Some (lit "c") ->
   exists b,
     diagnostic (lit "create mode requires at least one file") = Some b /\
     main argv w = (SysExit 1, log (EvWrite 2 b) (set_stderr (stderr w ++ b) w))) /\
  (forall mode, argv !! 1%nat = Some mode -> mode <> lit "c" -> mode <> lit "x" ->
   exists b,
     diagnostic (lit "unknown mode (use 'c' or 'x')") = Some b /\
     main argv w = (SysExit 1, log (EvWrite 2 b) (set_stderr (stderr w ++ b) w))).
Proof.
  split; [|split].
  - intros Hlen. destruct (die_lit_run "usage: mytar.py c file... | mytar.py x" w) as (b & Hb & Hdie).
    exists b. split; [exact Hb|]. unfold main.
    destruct (Z.ltb_spec (len argv) 2); [|lia]. apply bind_SysExit, Hdie.
  - intros Hlen Hmode.
    destruct (die_lit_run "create mode requires at least one file" w) as (b & Hb & Hdie).
    exists b. split; [exact Hb|]. unfold main. rewrite Hlen, Hmode.
    change (2 <? 2) with false. change (2 <? 3) with true. cbv iota. rewrite bind_ret.
    change (default [] (Some (lit "c"))) with (lit "c").
    destruct (decide (lit "c" = lit "c")); [|congruence]. apply bind_SysExit, Hdie.
  - intros mode Hmode Hc Hx.
    destruct (die_lit_run "unknown mode (use 'c' or 'x')" w) as (b & Hb & Hdie).
    exists b. split; [exact Hb|]. unfold main.
    assert (2 <= len argv).
    { apply lookup_lt_Some in Hmode. unfold len. lia. }
    destruct (Z.ltb_spec (len argv) 2); [lia|]. rewrite bind_ret, Hmode.
    change (default [] (Some mode)) with mode.
    destruct (decide (mode = lit "c")); [congruence|].
    destruct (decide (mode = lit "x")); [congruence|]. exact Hdie.
Qed.

(** X19 (round trip from the command line).  [mytar.py c file...] on a
    list of files that is not empty, followed by [mytar.py x] on the bytes
    it wrote, returns normally twice and recreates every file, in order,
    under its name and with its content; arguments after [x] are not
    looked at. *)
Theorem main_round_trip (prog prog' : str) (extra : list str)
    (files : list (str * bytes)) (src dst : world) :
  files <> [] ->
  fd_wf src -> fd_wf dst -> stdout src = [] ->
  Forall (fun f => archivable f /\
                   readable src !! f.1 = Some (RFile (Some (len f.2)) f.2) /\
                   creatable dst f.1 = true) files ->
  exists src' dst',
    main (prog :: lit "c" :: map fst files) src = (Ret tt, src') /\
    main (prog' :: lit "x" :: extra) (set_stdin (stdout src') dst) = (Ret tt, dst') /\
    created (trace dst') = created (trace dst) ++ map fst files /\
    (forall f, f ∈ files -> disk dst' !! f.1 = Some f.2).
Proof.
  intros Hne Hsrc Hdst Hout Hfiles.
  destruct (create_archive_files files src Hsrc) as (src' & Henc & He).
  { eapply Forall_impl; [exact Hfiles|]. intros f (? & ? & ?). auto. }
  erase_split He. rewrite Hout in Hstdout. cbn [app] in Hstdout.
  destruct (extract_archive_files files (set_stdin (stdout src') dst) Hdst)
    as (dst' & Hdec & Hc & Hdisk').
  { eapply Forall_impl; [exact Hfiles|]. intros f (? & ? & ?). auto. }
  { exact Hstdout. }
  assert (Hd : forall f, f ∈ files -> disk dst' !! f.1 = Some f.2).
  { intros f Hf. rewrite Hdisk'. apply foldl_insert_lookup; [exact Hf|].
    intros g Hg Hkey. rewrite Forall_forall in Hfiles.
    destruct (Hfiles f Hf) as (_ & Hrf & _). destruct (Hfiles g Hg) as (_ & Hrg & _).
    rewrite Hkey, Hrf in Hrg. congruence. }
  exists src', dst'. split; [|split; [|split; assumption]].
  - unfold main. destruct files as [|f files]; [congruence|].
    assert (Hl2 : (len (prog :: lit "c" :: map fst (f :: files)) <? 2) = false)
      by (apply Z.ltb_ge; unfold len; cbn [length map]; lia).
    assert (Hl3 : (len (prog :: lit "c" :: map fst (f :: files)) <? 3) = false)
      by (apply Z.ltb_ge; unfold len; cbn [length map]; lia).
    rewrite Hl2. cbv iota. rewrite bind_ret.
    change (default [] ((prog :: lit "c" :: map fst (f :: files)) !! 1%nat)) with (lit "c").
    destruct (decide (lit "c" = lit "c")); [|congruence].
    rewrite Hl3. cbv iota. rewrite bind_ret. exact Henc.
  - unfold main.
    assert (Hl2 : (len (prog' :: lit "x" :: extra) <? 2) = false)
      by (apply Z.ltb_ge; unfold len; cbn [length]; lia).
    rewrite Hl2. cbv iota. rewrite bind_ret.
    change (default [] ((prog' :: lit "x" :: extra) !! 1%nat)) with (lit "x").
    destruct (decide (lit "x" = lit "c")) as [Heq|_]; [discriminate Heq|].
    destruct (decide (lit "x" = lit "x")); [|congruence]. exact Hdec.
Qed.

(** X20 ([read_exact] twice).  Two calls to [read_exact] in a row, for [n]
    and then [m] bytes, return together what one call for [n + m] bytes
    returns and leave the same bytes to come, under any schedules of short
    reads. *)
Theorem read_exact_twice (fd : nat) (n m : Z) (w v : world) (p : bytes) :
  pending_of fd w = Some p -> pending_of fd v = Some p -> 0 <= n -> 0 <= m ->
  exists d1 w1 d2 w2 d v',
    read_exact fd n w = (Ret d1, w1) /\
    read_exact fd m w1 = (Ret d2, w2) /\
    read_exact fd (n + m) v = (Ret d, v') /\
    d1 ++ d2 = d /\
    pending_of fd w2 = pending_of fd v'.
Proof.
  intros Hp Hpv Hn Hm.
  assert (Hread : forall k u q, pending_of fd u = Some q ->
            exists u', read_exact fd k u = (Ret (take (Z.to_nat k) q), u') /\
                       pending_of fd u' = Some (drop (Z.to_nat k) q)).
  { intros k u q Hq. destruct (read_exact_spec fd k u q Hq) as (u' & Hrd & He).
    exists u'. split; [exact Hrd|].
    rewrite (pending_of_erase _ _ _ He). apply (pending_of_set_pending _ q), Hq. }
  destruct (Hread n w p Hp) as (w1 & Hr1 & Hp1).
  destruct (Hread m w1 _ Hp1) as (w2 & Hr2 & Hp2).
  destruct (Hread (n + m) v p Hpv) as (v' & Hr & Hp').
  set (d1 := take (Z.to_nat n) p) in *. set (d2 := take (Z.to_nat m) (drop (Z.to_nat n) p)) in *.
  set (d := take (Z.to_nat (n + m)) p) in *.
  assert (Hd1 : d1 = take (Z.to_nat n) p) by reflexivity.
  assert (Hd2 : d2 = take (Z.to_nat m) (drop (Z.to_nat n) p)) by reflexivity.
  assert (Hd : d = take (Z.to_nat (n + m)) p) by reflexivity.
  clearbody d1 d2 d.
  exists d1, w1, d2, w2, d, v'.
  split; [exact Hr1|]. split; [exact Hr2|]. split; [exact Hr|].
  assert (Hnm : Z.to_nat (n + m) = (Z.to_nat n + Z.to_nat m)%nat) by lia.
  split.
  - rewrite Hd1, Hd2, Hd, Hnm. symmetry. apply take_split.
  - rewrite Hp2, Hp', drop_drop, Hnm. reflexivity.
Qed.

(** * The further properties at sample inputs *)

Lemma extract_incomplete_filename_witness :
  exists b w',
    diagnostic (lit "corrupted archive (incomplete filename)") = Some b /\
    extract_archive cut_name_input = (SysExit 1, w') /\
    stderr w' = stderr cut_name_input ++ b /\
    created (trace w') = created (trace cut_name_input) ++ map fst one_file /\
    disk w' = foldl (fun d f => <[f.1 := f.2]> d) (disk cut_name_input) one_file /\
    fds w' = fds cut_name_input.
Proof.
  apply (extract_incomplete_filename one_file (be_digits 4 5) [x61; x62] cut_name_input);
    [apply fresh_world_wf|unfold one_file; sample_list|reflexivity|reflexivity|by_evaluation].
Defined.

Lemma extract_bad_name_encoding_witness :
  exists b w',
    diagnostic (lit "corrupted archive (filename encoding)") = Some b /\
    extract_archive bad_name_input = (SysExit 1, w') /\
    stderr w' = stderr bad_name_input ++ b /\
    created (trace w') = created (trace bad_name_input) ++ map fst one_file /\
    disk w' = foldl (fun d f => <[f.1 := f.2]> d) (disk bad_name_input) one_file /\
    fds w' = fds bad_name_input.
Proof.
  apply (extract_bad_name_encoding one_file (be_digits 4 2) [xc3; x28] (be_digits 8 0)
           bad_name_input);
    [apply fresh_world_wf|unfold one_file; sample_list|reflexivity|reflexivity|reflexivity
    |by_evaluation|reflexivity].
Defined.

Lemma extract_incomplete_size_witness :
  exists b w',
    diagnostic (lit "corrupted archive (incomplete file size)") = Some b /\
    extract_archive cut_size_input = (SysExit 1, w') /\
    stderr w' = stderr cut_size_input ++ b /\
    created (trace w') = created (trace cut_size_input) ++ map fst one_file /\
    disk w' = foldl (fun d f => <[f.1 := f.2]> d) (disk cut_size_input) one_file /\
    fds w' = fds cut_size_input.
Proof.
  apply (extract_incomplete_size one_file (be_digits 4 1) [x61] [x00; x00; x00] (lit "a")
           cut_size_input);
    [apply fresh_world_wf|unfold one_file; sample_list|reflexivity|reflexivity|reflexivity
    |by_evaluation|reflexivity|cbn; lia].
Defined.

Lemma extract_cannot_create_witness :
  exists b w',
    diagnostic (lit "cannot create output file '" ++ lit "a" ++ lit "'") = Some b /\
    (exists pre post, b = pre ++ [x61] ++ post) /\
    extract_archive no_create_input = (SysExit 1, w') /\
    stderr w' = stderr no_create_input ++ b /\
    stdin w' = [x68; x69] /\
    created (trace w') = created (trace no_create_input) ++ map fst (@nil (str * bytes)) /\
    disk w' = foldl (fun d f => <[f.1 := f.2]> d) (disk no_create_input) (@nil (str * bytes)) /\
    fds w' = fds no_create_input.
Proof.
  apply (extract_cannot_create [] (be_digits 4 1) [x61] (be_digits 8 2) [x68; x69] (lit "a")
           no_create_input);
    [apply fresh_world_wf|apply List.Forall_nil|reflexivity|reflexivity|reflexivity
    |by_evaluation|reflexivity|reflexivity|reflexivity|reflexivity].
Defined.

Lemma extract_nul_name_witness :
  exists w',
    extract_archive nul_name_input = (Raised ValueError, w') /\
    stderr w' = stderr nul_name_input /\
    stdin w' = [x68] /\
    created (trace w') = created (trace nul_name_input) ++ map fst (@nil (str * bytes)) /\
    disk w' = foldl (fun d f => <[f.1 := f.2]> d) (disk nul_name_input) (@nil (str * bytes)) /\
    fds w' = fds nul_name_input.
Proof.
  apply (extract_nul_name [] (be_digits 4 3) [x61; x00; x62] (be_digits 8 1) [x68]
           [97; 0; 98] nul_name_input);
    [apply fresh_world_wf|apply List.Forall_nil|reflexivity|reflexivity|reflexivity
    |by_evaluation|reflexivity|reflexivity|reflexivity|reflexivity].
Defined.

Lemma extract_archive_one_pass_witness :
  exists w',
    extract_archive bad_name_input
    = (scan_outcome (scan_archive (creatable bad_name_input) (stdin bad_name_input)), w') /\
    erase w'
    = erase (after_scan (scan_archive (creatable bad_name_input) (stdin bad_name_input))
               bad_name_input) /\
    created (trace w')
    = created (trace bad_name_input)
      ++ map fst (scanned (scan_archive (creatable bad_name_input)
                             (stdin bad_name_input))) /\
    (forall msg,
       failure (scan_archive (creatable bad_name_input) (stdin bad_name_input))
       = Some (Said msg) ->
       is_Some (diagnostic msg)).
Proof.
  apply (extract_archive_one_pass bad_name_input); [apply fresh_world_wf|].
  apply (bool_decide_unpack
           (Forall (fun f => plain_name f.1 = true)
              (scanned (scan_archive (creatable bad_name_input) (stdin bad_name_input))))).
  vm_compute. exact I.
Defined.

Lemma extract_archive_schedule_independent_witness :
  fst (extract_archive two_then_garbage) = fst (extract_archive two_then_garbage_at_once) /\
  erase (snd (extract_archive two_then_garbage))
  = erase (snd (extract_archive two_then_garbage_at_once)).
Proof.
  apply (extract_archive_schedule_independent two_then_garbage two_then_garbage_at_once);
    [apply fresh_world_wf|reflexivity].
Defined.

Lemma extract_archive_closes_descriptors_witness :
  exists o w',
    extract_archive two_then_garbage = (o, w') /\
    match o with
    | Ret _ => fds w' = fds two_then_garbage
    | SysExit c => c = 1 /\ fds w' = fds two_then_garbage
    | Raised _ => True
    | OutOfFuel => False
    end.
Proof. apply (extract_archive_closes_descriptors two_then_garbage). apply fresh_world_wf. Defined.

Lemma extract_archive_accepts_canonical_witness :
  exists files,
    Forall archivable files /\
    stdin two_records = archive_of files /\
    created (trace (snd (extract_archive two_records)))
    = created (trace two_records) ++ map fst files /\
    disk (snd (extract_archive two_records))
    = foldl (fun d f => <[f.1 := f.2]> d) (disk two_records) files.
Proof.
  apply (extract_archive_accepts_canonical two_records (snd (extract_archive two_records)));
    [apply fresh_world_wf|by_evaluation].
Defined.

Lemma extract_then_create_witness :
  exists src',
    create_archive [lit "a"; lit "b"] rearchive_src = (Ret tt, src') /\
    stdout src' = stdin two_records.
Proof.
  apply (extract_then_create two_records (snd (extract_archive two_records)) rearchive_src
           [lit "a"; lit "b"]);
    [apply fresh_world_wf|by_evaluation|by_evaluation
    |apply (bool_decide_unpack (NoDup [lit "a"; lit "b"])); vm_compute; exact I
    |apply (bool_decide_unpack
              (Forall (fun name => plain_name name = true) [lit "a"; lit "b"]));
     vm_compute; exact I
    |apply fresh_world_wf|reflexivity|reflexivity].
Defined.

Lemma create_archive_returns_canonical_witness :
  exists files,
    map fst files = [lit "a.txt"] /\
    Forall (fun f => exists nb content,
                utf8_encode f.1 = Some nb /\ len nb < 2 ^ 32 /\ len f.2 < 2 ^ 64 /\
                readable (odd_src [1; 0]%nat) !! f.1 = Some (RFile (Some (len f.2)) content) /\
                f.2 `prefix_of` content) files /\
    stdout (snd (create_archive [lit "a.txt"] (odd_src [1; 0]%nat)))
    = stdout (odd_src [1; 0]%nat) ++ archive_of files /\
    fds (snd (create_archive [lit "a.txt"] (odd_src [1; 0]%nat))) = fds (odd_src [1; 0]%nat).
Proof.
  apply (create_archive_returns_canonical [lit "a.txt"] (odd_src [1; 0]%nat)
           (snd (create_archive [lit "a.txt"] (odd_src [1; 0]%nat))));
    [apply fresh_world_wf|by_evaluation].
Defined.

Lemma create_archive_schedule_independent_witness :
  fst (create_archive [lit "a.txt"; lit "nostat"] (odd_src [1; 0]%nat))
  = fst (create_archive [lit "a.txt"; lit "nostat"] (odd_src [])) /\
  erase (snd (create_archive [lit "a.txt"; lit "nostat"] (odd_src [1; 0]%nat)))
  = erase (snd (create_archive [lit "a.txt"; lit "nostat"] (odd_src []))).
Proof.
  apply (create_archive_schedule_independent [lit "a.txt"; lit "nostat"]
           (odd_src [1; 0]%nat) (odd_src []));
    [apply fresh_world_wf|reflexivity].
Defined.

Lemma create_archive_closes_descriptors_witness :
  exists o w',
    create_archive [lit "a.txt"; lit "nostat"; lit "a.txt"] (odd_src [1; 0]%nat) = (o, w') /\
    created (trace w') = created (trace (odd_src [1; 0]%nat)) /\
    match o with
    | Ret _ => fds w' = fds (odd_src [1; 0]%nat)
    | SysExit c => c = 1 /\ fds w' = fds (odd_src [1; 0]%nat)
    | Raised _ => True
    | OutOfFuel => False
    end.
Proof.
  apply (create_archive_closes_descriptors [lit "a.txt"; lit "nostat"; lit "a.txt"]
           (odd_src [1; 0]%nat)).
  apply fresh_world_wf.
Defined.

Lemma create_cannot_open_witness :
  exists b w',
    diagnostic (lit "cannot open file '" ++ lit "missing" ++ lit "'") = Some b /\
    (exists pre post, b = pre ++ [x6d; x69; x73; x73; x69; x6e; x67] ++ post) /\
    create_archive (map fst one_file ++ lit "missing" :: [lit "a.txt"]) (odd_src [1; 0]%nat)
    = (SysExit 1, w') /\
    stdout w' = stdout (odd_src [1; 0]%nat) ++ archive_of one_file /\
    stderr w' = stderr (odd_src [1; 0]%nat) ++ b /\
    fds w' = fds (odd_src [1; 0]%nat).
Proof.
  apply (create_cannot_open one_file (lit "missing") [lit "a.txt"]
           [x6d; x69; x73; x73; x69; x6e; x67] (odd_src [1; 0]%nat));
    [apply fresh_world_wf|unfold one_file; sample_list|by_evaluation|by_evaluation].
Defined.

Lemma create_cannot_stat_witness :
  exists b w',
    diagnostic (lit "cannot stat file '" ++ lit "nostat" ++ lit "'") = Some b /\
    (exists pre post, b = pre ++ [x6e; x6f; x73; x74; x61; x74] ++ post) /\
    create_archive (map fst one_file ++ lit "nostat" :: [lit "a.txt"]) (odd_src [1; 0]%nat)
    = (SysExit 1, w') /\
    stdout w' = stdout (odd_src [1; 0]%nat) ++ archive_of one_file /\
    stderr w' = stderr (odd_src [1; 0]%nat) ++ b /\
    fds w' = fds (odd_src [1; 0]%nat).
Proof.
  apply (create_cannot_stat one_file (lit "nostat") [lit "a.txt"] [x01]
           [x6e; x6f; x73; x74; x61; x74] (odd_src [1; 0]%nat));
    [apply fresh_world_wf|unfold one_file; sample_list|by_evaluation|by_evaluation].
Defined.

Lemma create_unencodable_name_witness :
  exists w',
    create_archive_body [0xDCFF] (odd_src [1; 0]%nat) = (Raised UnicodeEncodeError, w') /\
    stdout w' = stdout (odd_src [1; 0]%nat) /\ stderr w' = stderr (odd_src [1; 0]%nat) /\
    (forall size data,
       readable (odd_src [1; 0]%nat) !! [0xDCFF] = Some (RFile (Some size) data) ->
       fds w' !! next_fd (odd_src [1; 0]%nat) = Some (RdH data (Some size))).
Proof.
  apply (create_unencodable_name [0xDCFF] (odd_src [1; 0]%nat));
    [apply fresh_world_wf|reflexivity].
Defined.

Lemma main_usage_errors_witness :
  (exists b,
     diagnostic (lit "usage: mytar.py c file... | mytar.py x") = Some b /\
     main [lit "mytar.py"] sample_src
     = (SysExit 1, log (EvWrite 2 b) (set_stderr (stderr sample_src ++ b) sample_src))) /\
  (exists b,
     diagnostic (lit "create mode requires at least one file") = Some b /\
     main [lit "mytar.py"; lit "c"] sample_src
     = (SysExit 1, log (EvWrite 2 b) (set_stderr (stderr sample_src ++ b) sample_src))) /\
  (exists b,
     diagnostic (lit "unknown mode (use 'c' or 'x')") = Some b /\
     main [lit "mytar.py"; lit "t"; lit "a.txt"] sample_src
     = (SysExit 1, log (EvWrite 2 b) (set_stderr (stderr sample_src ++ b) sample_src))).
Proof.
  split; [|split].
  - apply (proj1 (main_usage_errors [lit "mytar.py"] sample_src)). by_evaluation.
  - apply (proj1 (proj2 (main_usage_errors [lit "mytar.py"; lit "c"] sample_src)));
      reflexivity.
  - apply (proj2 (proj2 (main_usage_errors [lit "mytar.py"; lit "t"; lit "a.txt"] sample_src))
             (lit "t")); [reflexivity|vm_compute; discriminate|vm_compute; discriminate].
Defined.

Lemma main_round_trip_witness :
  exists src' dst',
    main (lit "mytar.py" :: lit "c" :: map fst sample_files) sample_src = (Ret tt, src') /\
    main (lit "./mytar.py" :: lit "x" :: [lit "ignored"]) (set_stdin (stdout src') sample_dst)
    = (Ret tt, dst') /\
    created (trace dst') = created (trace sample_dst) ++ map fst sample_files /\
    (forall f, f ∈ sample_files -> disk dst' !! f.1 = Some f.2).
Proof.
  apply (main_round_trip (lit "mytar.py") (lit "./mytar.py") [lit "ignored"]
           sample_files sample_src sample_dst);
    [unfold sample_files; discriminate|apply fresh_world_wf|apply fresh_world_wf|reflexivity
    |unfold sample_files; sample_list].
Defined.

Lemma read_exact_twice_witness :
  exists d1 w1 d2 w2 d v',
    read_exact 0 2 (reading true [x01; x02; x03; x04; x05]) = (Ret d1, w1) /\
    read_exact 0 2 w1 = (Ret d2, w2) /\
    read_exact 0 (2 + 2) (fresh_world ∅ true [x01; x02; x03; x04; x05] []) = (Ret d, v') /\
    d1 ++ d2 = d /\
    pending_of 0 w2 = pending_of 0 v'.
Proof.
  apply (read_exact_twice 0 2 2 (reading true [x01; x02; x03; x04; x05])
           (fresh_world ∅ true [x01; x02; x03; x04; x05] []) [x01; x02; x03; x04; x05]);
    [reflexivity|reflexivity|lia|lia].
Defined.
